(** * py-toolkit: project discovery, package-manager detection, venv
      staleness and the venv lifecycle

    A shallow embedding of the core of the extension:
      - [src/venv/hash.ts]            (hash store and staleness),
      - [src/venv/packageManager.ts]  (package-manager detection),
      - [src/discovery/projects.ts]   (sub-project discovery),
      - [src/discovery/venv.ts]       (venv locator, file-to-project),
      - [src/discovery/tests.ts]      (tests of a source file),
      - [src/tasks/provider.ts]       (executable files),
      - [src/venv/manager.ts]         (create / update a venv),
      - [src/watchers/requirementsWatcher.ts] (the change handler).

    Conventions of the model.
      - A JavaScript string is the list of its UTF-16 code units ([jsstring]).
      - A file's content is a list of bytes.
      - The host is POSIX: [path] is Node's [path.posix], [path.sep] is "/"
        and [process.platform] is not 'win32'.  Where the separator of
        Windows changes what a function returns, the function takes the
        separator as an argument.
      - The file system is a finite tree of directories and regular files;
        a path is looked up by its segments, resolved against the working
        directory.  Symbolic links and permissions are not modelled.
      - A function that can throw returns a [result]. *)

From Stdlib Require Import NArith ZArith String Ascii Bool Arith Lia.
From Stdlib Require Import Strings.Byte.
From Stdlib Require Import Sorting.Sorted Sorting.Permutation.
From Stdlib Require Import List.
Import ListNotations.

Set Implicit Arguments.

(* ================================================================== *)
(** * JavaScript strings *)

Definition jsstring := list N.

(** The code units of an ASCII literal. *)
Definition str (s : string) : jsstring :=
  map N_of_ascii (list_ascii_of_string s).

Module Js.

Definition eqb (a b : jsstring) : bool :=
  if list_eq_dec N.eq_dec a b then true else false.

(** [s.startsWith(p)] *)
Fixpoint startsWith (s p : jsstring) : bool :=
  match p, s with
  | [], _ => true
  | _ :: _, [] => false
  | c :: p', d :: s' => N.eqb c d && startsWith s' p'
  end.

(** [s.endsWith(p)] *)
Definition endsWith (s p : jsstring) : bool :=
  startsWith (rev s) (rev p).

(** [s.includes(p)] *)
Fixpoint includes (s p : jsstring) : bool :=
  startsWith s p ||
  match s with
  | [] => false
  | _ :: s' => includes s' p
  end.

(** [s.replace(/c/g, '')] for a single code unit [c]. *)
Definition remove_all (c : N) (s : jsstring) : jsstring :=
  filter (fun d => negb (N.eqb c d)) s.

(** ECMAScript WhiteSpace and LineTerminator code units, the ones
    [String.prototype.trim] strips. *)
Definition is_space (c : N) : bool :=
  existsb (N.eqb c)
    [0x09; 0x0A; 0x0B; 0x0C; 0x0D; 0x20; 0xA0; 0x1680; 0x2028; 0x2029;
     0x202F; 0x205F; 0x3000; 0xFEFF]%N
  || (N.leb 0x2000 c && N.leb c 0x200A).

Fixpoint trimStart (s : jsstring) : jsstring :=
  match s with
  | c :: s' => if is_space c then trimStart s' else s
  | [] => []
  end.

Definition trimEnd (s : jsstring) : jsstring := rev (trimStart (rev s)).

(** [s.trim()] *)
Definition trim (s : jsstring) : jsstring := trimEnd (trimStart s).

(** [s.split(c)] for a single code unit [c]: the pieces between
    occurrences of [c]; never empty. *)
Fixpoint split (c : N) (s : jsstring) : list jsstring :=
  match s with
  | [] => [[]]
  | d :: s' =>
      if N.eqb c d then [] :: split c s'
      else match split c s' with
           | p :: ps => (d :: p) :: ps
           | [] => [[d]]
           end
  end.

(** [pieces.join(sep)] *)
Fixpoint join (sep : jsstring) (pieces : list jsstring) : jsstring :=
  match pieces with
  | [] => []
  | [p] => p
  | p :: ps => p ++ sep ++ join sep ps
  end.

(** The order of strings under [<], code unit by code unit, as the number
    the default comparison of [Array.prototype.sort] gives: negative,
    zero or positive. *)
Fixpoint compare (a b : jsstring) : Z :=
  match a, b with
  | [], [] => 0%Z
  | [], _ :: _ => (-1)%Z
  | _ :: _, [] => 1%Z
  | c :: a', d :: b' =>
      if N.ltb c d then (-1)%Z
      else if N.ltb d c then 1%Z
      else compare a' b'
  end.

End Js.

(* ================================================================== *)
(** * UTF-8, as [Buffer.toString('utf-8')] and [Buffer.from(s, 'utf-8')] *)

Module Utf8.
Local Open Scope N_scope.

Definition replacement : N := 0xFFFD.

(** A code point as UTF-16 code units. *)
Definition utf16 (cp : N) : jsstring :=
  if cp <? 0x10000 then [cp]
  else let v := cp - 0x10000 in [0xD800 + v / 0x400; 0xDC00 + v mod 0x400].

Definition is_cont (b : N) : bool := (0x80 <=? b) && (b <=? 0xBF).
Definition in_range (lo hi b : N) : bool := (lo <=? b) && (b <=? hi).

(** Decoding with U+FFFD for every maximal ill-formed subsequence (the
    WHATWG decoder).  [fuel] bounds the number of steps by the number of
    bytes; every step consumes at least one byte. *)
Fixpoint decode_aux (fuel : nat) (bs : list N) : jsstring :=
  match fuel with
  | O => []
  | S fuel =>
    match bs with
    | [] => []
    | b0 :: r0 =>
      if b0 <? 0x80 then b0 :: decode_aux fuel r0
      else if in_range 0xC2 0xDF b0 then
        match r0 with
        | b1 :: r1 =>
            if is_cont b1
            then utf16 ((b0 - 0xC0) * 0x40 + (b1 - 0x80)) ++ decode_aux fuel r1
            else replacement :: decode_aux fuel r0
        | [] => [replacement]
        end
      else if in_range 0xE0 0xEF b0 then
        let lo := if b0 =? 0xE0 then 0xA0 else 0x80 in
        let hi := if b0 =? 0xED then 0x9F else 0xBF in
        match r0 with
        | b1 :: r1 =>
            if in_range lo hi b1 then
              match r1 with
              | b2 :: r2 =>
                  if is_cont b2
                  then utf16 ((b0 - 0xE0) * 0x1000 + (b1 - 0x80) * 0x40
                              + (b2 - 0x80)) ++ decode_aux fuel r2
                  else replacement :: decode_aux fuel r1
              | [] => [replacement]
              end
            else replacement :: decode_aux fuel r0
        | [] => [replacement]
        end
      else if in_range 0xF0 0xF4 b0 then
        let lo := if b0 =? 0xF0 then 0x90 else 0x80 in
        let hi := if b0 =? 0xF4 then 0x8F else 0xBF in
        match r0 with
        | b1 :: r1 =>
            if in_range lo hi b1 then
              match r1 with
              | b2 :: r2 =>
                  if is_cont b2 then
                    match r2 with
                    | b3 :: r3 =>
                        if is_cont b3
                        then utf16 ((b0 - 0xF0) * 0x40000
                                    + (b1 - 0x80) * 0x1000
                                    + (b2 - 0x80) * 0x40 + (b3 - 0x80))
                             ++ decode_aux fuel r3
                        else replacement :: decode_aux fuel r2
                    | [] => [replacement]
                    end
                  else replacement :: decode_aux fuel r1
              | [] => [replacement]
              end
            else replacement :: decode_aux fuel r0
        | [] => [replacement]
        end
      else replacement :: decode_aux fuel r0
    end
  end.

Definition decode (bs : list byte) : jsstring :=
  decode_aux (length bs) (map Byte.to_N bs).

Definition byte_of (n : N) : byte :=
  match Byte.of_N (n mod 256) with Some b => b | None => x00 end.

Definition is_high (c : N) : bool := in_range 0xD800 0xDBFF c.
Definition is_low (c : N) : bool := in_range 0xDC00 0xDFFF c.

Definition encode_cp (cp : N) : list byte :=
  map byte_of
    (if cp <? 0x80 then [cp]
     else if cp <? 0x800 then [0xC0 + cp / 0x40; 0x80 + cp mod 0x40]
     else if cp <? 0x10000 then
       [0xE0 + cp / 0x1000; 0x80 + (cp / 0x40) mod 0x40; 0x80 + cp mod 0x40]
     else
       [0xF0 + cp / 0x40000; 0x80 + (cp / 0x1000) mod 0x40;
        0x80 + (cp / 0x40) mod 0x40; 0x80 + cp mod 0x40]).

(** Encoding; a surrogate pair is one code point, a lone surrogate is
    written as U+FFFD. *)
Fixpoint encode (s : jsstring) : list byte :=
  match s with
  | [] => []
  | c :: s' =>
      if is_high c then
        match s' with
        | d :: s'' =>
            if is_low d
            then encode_cp (0x10000 + (c - 0xD800) * 0x400 + (d - 0xDC00))
                 ++ encode s''
            else encode_cp replacement ++ encode s'
        | [] => encode_cp replacement
        end
      else if is_low c then encode_cp replacement ++ encode s'
      else encode_cp c ++ encode s'
  end.

End Utf8.

(* ================================================================== *)
(** * MD5 (RFC 1321), as [crypto.createHash('md5')] computes it *)

Module MD5.
Local Open Scope N_scope.

Definition add32 (x y : N) : N := (x + y) mod 2 ^ 32.
Definition not32 (x : N) : N := N.lxor x 0xFFFFFFFF.
Definition rotl32 (x s : N) : N :=
  N.lor (N.shiftl x s mod 2 ^ 32) (N.shiftr x (32 - s)).

Definition F (x y z : N) := N.lor (N.land x y) (N.land (not32 x) z).
Definition G (x y z : N) := N.lor (N.land x z) (N.land y (not32 z)).
Definition H (x y z : N) := N.lxor (N.lxor x y) z.
Definition I (x y z : N) := N.lxor y (N.lor x (not32 z)).

(** T[i] = floor(2^32 * |sin(i + 1)|) *)
Definition T : list N :=
  [ 0xd76aa478; 0xe8c7b756; 0x242070db; 0xc1bdceee;
    0xf57c0faf; 0x4787c62a; 0xa8304613; 0xfd469501;
    0x698098d8; 0x8b44f7af; 0xffff5bb1; 0x895cd7be;
    0x6b901122; 0xfd987193; 0xa679438e; 0x49b40821;
    0xf61e2562; 0xc040b340; 0x265e5a51; 0xe9b6c7aa;
    0xd62f105d; 0x02441453; 0xd8a1e681; 0xe7d3fbc8;
    0x21e1cde6; 0xc33707d6; 0xf4d50d87; 0x455a14ed;
    0xa9e3e905; 0xfcefa3f8; 0x676f02d9; 0x8d2a4c8a;
    0xfffa3942; 0x8771f681; 0x6d9d6122; 0xfde5380c;
    0xa4beea44; 0x4bdecfa9; 0xf6bb4b60; 0xbebfbc70;
    0x289b7ec6; 0xeaa127fa; 0xd4ef3085; 0x04881d05;
    0xd9d4d039; 0xe6db99e5; 0x1fa27cf8; 0xc4ac5665;
    0xf4292244; 0x432aff97; 0xab9423a7; 0xfc93a039;
    0x655b59c3; 0x8f0ccc92; 0xffeff47d; 0x85845dd1;
    0x6fa87e4f; 0xfe2ce6e0; 0xa3014314; 0x4e0811a1;
    0xf7537e82; 0xbd3af235; 0x2ad7d2bb; 0xeb86d391 ].

(** Per-round shift amounts. *)
Definition shifts : list N :=
  [ 7; 12; 17; 22; 7; 12; 17; 22; 7; 12; 17; 22; 7; 12; 17; 22;
    5;  9; 14; 20; 5;  9; 14; 20; 5;  9; 14; 20; 5;  9; 14; 20;
    4; 11; 16; 23; 4; 11; 16; 23; 4; 11; 16; 23; 4; 11; 16; 23;
    6; 10; 15; 21; 6; 10; 15; 21; 6; 10; 15; 21; 6; 10; 15; 21 ].

Record state := State { sa : N; sb : N; sc : N; sd : N }.

Definition init : state :=
  State 0x67452301 0xefcdab89 0x98badcfe 0x10325476.

(** One of the 64 operations on the words [m] of a block. *)
Definition step (m : list N) (st : state) (i : nat) : state :=
  let '(State a b c d) := st in
  let n := N.of_nat i in
  let '(f, g) :=
    if n <? 16 then (F b c d, n)
    else if n <? 32 then (G b c d, (5 * n + 1) mod 16)
    else if n <? 48 then (H b c d, (3 * n + 5) mod 16)
    else (I b c d, (7 * n) mod 16) in
  let x := add32 (add32 (add32 a f) (nth i T 0)) (nth (N.to_nat g) m 0) in
  State d (add32 b (rotl32 x (nth i shifts 0))) b c.

Definition compress (st : state) (m : list N) : state :=
  let st' := fold_left (step m) (seq 0 64) st in
  State (add32 (sa st) (sa st')) (add32 (sb st) (sb st'))
        (add32 (sc st) (sc st')) (add32 (sd st) (sd st')).

(** Little-endian bytes of a word and back. *)
Fixpoint le_bytes (n : nat) (x : N) : list N :=
  match n with
  | O => []
  | S n => x mod 256 :: le_bytes n (x / 256)
  end.

Fixpoint le_word (bs : list N) : N :=
  match bs with
  | [] => 0
  | b :: bs => b + 256 * le_word bs
  end.

(** The 32-bit words of a byte sequence, four bytes at a time. *)
Fixpoint words (fuel : nat) (bs : list N) : list N :=
  match fuel, bs with
  | S fuel, _ :: _ => le_word (firstn 4 bs) :: words fuel (skipn 4 bs)
  | _, _ => []
  end.

(** The message followed by 0x80, zeros up to 56 mod 64, and the bit
    length on 64 bits. *)
Definition pad (msg : list N) : list N :=
  let len := N.of_nat (length msg) in
  let zeros := (55 + 64 - len mod 64) mod 64 in
  msg ++ [0x80] ++ repeat 0 (N.to_nat zeros)
      ++ le_bytes 8 ((8 * len) mod 2 ^ 64).

Fixpoint blocks (fuel : nat) (ws : list N) : list (list N) :=
  match fuel, ws with
  | S fuel, _ :: _ => firstn 16 ws :: blocks fuel (skipn 16 ws)
  | _, _ => []
  end.

(** The 16 bytes of the digest. *)
Definition digest (msg : list byte) : list N :=
  let p := pad (map Byte.to_N msg) in
  let ws := words (length p) p in
  let '(State a b c d) := fold_left compress (blocks (length ws) ws) init in
  le_bytes 4 a ++ le_bytes 4 b ++ le_bytes 4 c ++ le_bytes 4 d.

Definition hexdigit (n : N) : N :=
  if n <? 10 then 0x30 + n else 0x61 + (n - 10).

(** [.digest('hex')]: two lowercase hexadecimal digits per byte. *)
Definition hex (bs : list N) : jsstring :=
  flat_map (fun b => [hexdigit (b / 16); hexdigit (b mod 16)]) bs.

Definition md5_hex (msg : list byte) : jsstring := hex (digest msg).

End MD5.

(** Bytes of a literal, and bytes written in hexadecimal. *)
Definition bytes (s : string) : list byte := list_byte_of_string s.

Definition hexval (a : ascii) : N :=
  let n := N_of_ascii a in
  (if n <? 0x3A then n - 0x30 else n - 0x61 + 10)%N.

Fixpoint unhex (s : string) : list byte :=
  match s with
  | String a (String b s') =>
      Utf8.byte_of (16 * hexval a + hexval b) :: unhex s'
  | _ => []
  end.

Definition newline : string := String "010"%char EmptyString.

(* ================================================================== *)
(** * Node's [path.posix] *)

Module Path.

Definition slash : N := 0x2F%N.
Definition sep : jsstring := [slash].

(** [path.win32.sep], a backslash: what [path.sep] is on Windows. *)
Definition win32_sep : jsstring := [0x5C%N].
Definition dot : jsstring := str ".".
Definition dotdot : jsstring := str "..".

Definition isAbsolute (p : jsstring) : bool :=
  match p with
  | c :: _ => N.eqb c slash
  | [] => false
  end.

(** [normalizeString] on the segments of a path: empty and "." segments
    are dropped, ".." removes the segment before it, or is kept when there
    is none to remove and [allowAboveRoot] holds.  [acc] is the result so
    far, last segment first. *)
Fixpoint norm_segs (allowAboveRoot : bool) (acc segs : list jsstring)
  : list jsstring :=
  match segs with
  | [] => rev acc
  | s :: rest =>
      if Js.eqb s [] || Js.eqb s dot then norm_segs allowAboveRoot acc rest
      else if Js.eqb s dotdot then
        match acc with
        | last :: acc' =>
            if Js.eqb last dotdot
            then norm_segs allowAboveRoot
                   (if allowAboveRoot then dotdot :: acc else acc) rest
            else norm_segs allowAboveRoot acc' rest
        | [] =>
            norm_segs allowAboveRoot
              (if allowAboveRoot then [dotdot] else []) rest
        end
      else norm_segs allowAboveRoot (s :: acc) rest
  end.

Definition normalizeString (p : jsstring) (allowAboveRoot : bool) : jsstring :=
  Js.join sep (norm_segs allowAboveRoot [] (Js.split slash p)).

(** [path.normalize(p)] *)
Definition normalize (p : jsstring) : jsstring :=
  match p with
  | [] => dot
  | _ =>
      let abs := isAbsolute p in
      let trailing := Js.endsWith p sep in
      let q := normalizeString p (negb abs) in
      match q with
      | [] => if abs then sep else if trailing then str "./" else dot
      | _ =>
          let q' := if trailing then q ++ sep else q in
          if abs then sep ++ q' else q'
      end
  end.

(** [path.join(...args)] *)
Definition join (args : list jsstring) : jsstring :=
  match Js.join sep (filter (fun a => negb (Js.eqb a [])) args) with
  | [] => dot
  | joined => normalize joined
  end.

(** The segments of [path.resolve(p)] when the working directory is the
    absolute path [cwd]. *)
Definition resolve_segs (cwd p : jsstring) : list jsstring :=
  norm_segs false []
    (Js.split slash (if isAbsolute p then p else cwd ++ sep ++ p)).

(** [path.resolve(p)] *)
Definition resolve (cwd p : jsstring) : jsstring :=
  sep ++ Js.join sep (resolve_segs cwd p).

Fixpoint dropSlashes (s : jsstring) : jsstring :=
  match s with
  | c :: s' => if N.eqb c slash then dropSlashes s' else s
  | [] => []
  end.

Fixpoint dropName (s : jsstring) : jsstring :=
  match s with
  | c :: s' => if N.eqb c slash then s else dropName s'
  | [] => []
  end.

Fixpoint takeName (s : jsstring) : jsstring :=
  match s with
  | c :: s' => if N.eqb c slash then [] else c :: takeName s'
  | [] => []
  end.

(** [path.dirname(p)]: the scan of Node runs from the last code unit down
    to index 1, past trailing slashes, then past the last name, and cuts
    at the slash before it. *)
Definition dirname (p : jsstring) : jsstring :=
  match p with
  | [] => dot
  | c0 :: rest =>
      let hasRoot := N.eqb c0 slash in
      match dropName (dropSlashes (rev rest)) with
      | [] => if hasRoot then sep else dot
      | _ :: before =>
          match before with
          | [] => if hasRoot then str "//" else [c0]
          | _ => c0 :: rev before
          end
      end
  end.

(** [path.basename(p)] *)
Definition basename (p : jsstring) : jsstring :=
  rev (takeName (dropSlashes (rev p))).

(** The state of the scan of [path.basename(p, suffix)]; [None] is the
    index -1. *)
Record basename_scan := {
  scan_start : nat;
  scan_end : option nat;
  matchedSlash : bool;
  extIdx : option nat;
  firstNonSlashEnd : option nat
}.

(** The loop of [path.basename(p, suffix)], from index [i] down; [below]
    holds the code units at [i], [i - 1], ..., 0. *)
Fixpoint basename_loop (suffix : jsstring) (i : nat) (below : list N)
    (st : basename_scan) : basename_scan :=
  match below with
  | [] => st
  | code :: rest =>
      if N.eqb code slash then
        if negb (matchedSlash st)
        then {| scan_start := S i; scan_end := scan_end st;
                matchedSlash := matchedSlash st; extIdx := extIdx st;
                firstNonSlashEnd := firstNonSlashEnd st |}
        else basename_loop suffix (pred i) rest st
      else
        let st1 :=
          match firstNonSlashEnd st with
          | None =>
              {| scan_start := scan_start st; scan_end := scan_end st;
                 matchedSlash := false; extIdx := extIdx st;
                 firstNonSlashEnd := Some (S i) |}
          | Some _ => st
          end in
        let st2 :=
          match extIdx st1 with
          | Some e =>
              if N.eqb code (nth e suffix 0%N) then
                match e with
                | O =>
                    {| scan_start := scan_start st1; scan_end := Some i;
                       matchedSlash := matchedSlash st1; extIdx := None;
                       firstNonSlashEnd := firstNonSlashEnd st1 |}
                | S e' =>
                    {| scan_start := scan_start st1; scan_end := scan_end st1;
                       matchedSlash := matchedSlash st1; extIdx := Some e';
                       firstNonSlashEnd := firstNonSlashEnd st1 |}
                end
              else
                {| scan_start := scan_start st1;
                   scan_end := firstNonSlashEnd st1;
                   matchedSlash := matchedSlash st1; extIdx := None;
                   firstNonSlashEnd := firstNonSlashEnd st1 |}
          | None => st1
          end in
        basename_loop suffix (pred i) rest st2
  end.

(** [p.slice(from, to)] for indexes within [p]. *)
Definition slice (p : jsstring) (from to : nat) : jsstring :=
  firstn (to - from) (skipn from p).

(** [path.basename(p, suffix)]: the last name of [p], without [suffix]
    when the name ends with it and is more than it. *)
Definition basename_ext (p suffix : jsstring) : jsstring :=
  match suffix with
  | [] => basename p
  | _ =>
      if (length suffix <=? length p)%nat then
        if Js.eqb suffix p then []
        else
          let st :=
            basename_loop suffix (pred (length p)) (rev p)
              {| scan_start := 0; scan_end := None; matchedSlash := true;
                 extIdx := Some (pred (length suffix));
                 firstNonSlashEnd := None |} in
          let last :=
            match scan_end st with
            | Some e =>
                if (scan_start st =? e)%nat
                then match firstNonSlashEnd st with
                     | Some f => f
                     | None => 0
                     end
                else e
            | None => length p
            end in
          slice p (scan_start st) last
      else basename p
  end.

Fixpoint strip_common (a b : list jsstring)
  : list jsstring * list jsstring :=
  match a, b with
  | x :: a', y :: b' => if Js.eqb x y then strip_common a' b' else (a, b)
  | _, _ => (a, b)
  end.

(** [path.relative(from, to)]: both are resolved, their common leading
    segments dropped, and one ".." is written per remaining segment of
    [from]. *)
Definition relative (cwd from to : jsstring) : jsstring :=
  let '(f, t) := strip_common (resolve_segs cwd from) (resolve_segs cwd to) in
  Js.join sep (map (fun _ => dotdot) f ++ t).

End Path.

(* ================================================================== *)
(** * The file system, as the [fs] module shows it *)

(** What a call can throw, or a promise reject with: an error of the
    [fs] module, [Error(`Command exited with code ${code}`)] of
    [runCommand] ([code] is [null] when a signal ended the process), or
    the error of a process that could not be spawned. *)
Inductive error : Type :=
| FsError (code : jsstring)
| CommandExited (code : option Z)
| SpawnFailed.

Inductive result (A : Type) : Type :=
| Ok (a : A)
| Throw (e : error).

Arguments Ok {A} a.
Arguments Throw {A} e.

Definition rbind {A B : Type} (r : result A) (k : A -> result B) : result B :=
  match r with
  | Ok a => k a
  | Throw e => Throw e
  end.

Declare Scope result_scope.
Delimit Scope result_scope with result.
Notation "x <- r ;; k" := (rbind r (fun x => k))
  (at level 61, r at next level, right associativity) : result_scope.

Module Fs.

(** A directory lists its entries in the order [readdirSync] reports
    them; an entry is what [fs.Dirent] shows: a name and the node. *)
Inductive node : Type :=
| File (content : list byte)
| Dir (entries : list dirent)
with dirent : Type :=
| Dirent (name : jsstring) (target : node).

Definition name (e : dirent) : jsstring := let '(Dirent k _) := e in k.
Definition target (e : dirent) : node := let '(Dirent _ n) := e in n.

Definition entries_of (n : node) : list dirent :=
  match n with Dir es => es | File _ => [] end.

Definition isDirectory (n : node) : bool :=
  match n with Dir _ => true | File _ => false end.

Definition isFile (n : node) : bool :=
  match n with File _ => true | Dir _ => false end.

(** How deep a tree goes below a node. *)
Fixpoint height (n : node) : nat :=
  match n with
  | File _ => 0
  | Dir es => S (list_max (map (fun e => height (target e)) es))
  end.

(** [root] is the directory "/"; [cwd] is [process.cwd()], absolute. *)
Record filesystem := { root : node; cwd : jsstring }.

Fixpoint find_entry (k : jsstring) (es : list dirent) : option node :=
  match es with
  | [] => None
  | Dirent k' v :: es' => if Js.eqb k' k then Some v else find_entry k es'
  end.

Fixpoint walk (n : node) (segs : list jsstring) : option node :=
  match segs with
  | [] => Some n
  | s :: rest =>
      match n with
      | Dir es =>
          match find_entry s es with
          | Some child => walk child rest
          | None => None
          end
      | File _ => None
      end
  end.

(** The node at the path [p]: the segments [path.resolve] gives for it
    are walked from the root.  Where the kernel finds a node this is the
    node it finds, there being no links.  The kernel walks the path as it
    is written, though, and refuses a ".." or a trailing "/" behind a name
    that is missing or is a file, which resolves here; a path written by
    [path.join] or [path.resolve] has neither.  Properties that need more
    are stated on what the call on the path returns. *)
Definition lookup (fs : filesystem) (p : jsstring) : option node :=
  match p with
  | [] => None
  | _ => walk (root fs) (Path.resolve_segs (cwd fs) p)
  end.

Definition ENOENT : error := FsError (str "ENOENT").
Definition EISDIR : error := FsError (str "EISDIR").
Definition ENOTDIR : error := FsError (str "ENOTDIR").

(** [fs.existsSync(p)] *)
Definition existsSync (fs : filesystem) (p : jsstring) : bool :=
  match lookup fs p with Some _ => true | None => false end.

(** [fs.statSync(p)]; only the kind of the node is observed.  A path
    that leads nowhere throws ENOENT, also where a name on the way is a
    file and the kernel says ENOTDIR. *)
Definition statSync (fs : filesystem) (p : jsstring) : result node :=
  match lookup fs p with
  | Some n => Ok n
  | None => Throw ENOENT
  end.

(** [fs.readFileSync(p)] *)
Definition readFileSync (fs : filesystem) (p : jsstring) : result (list byte) :=
  match lookup fs p with
  | Some (File c) => Ok c
  | Some (Dir _) => Throw EISDIR
  | None => Throw ENOENT
  end.

(** [fs.readdirSync(p, { withFileTypes: true })] *)
Definition readdirSync (fs : filesystem) (p : jsstring)
  : result (list dirent) :=
  match lookup fs p with
  | Some (Dir es) => Ok es
  | Some (File _) => Throw ENOTDIR
  | None => Throw ENOENT
  end.

Fixpoint set_entry (k : jsstring) (n : node) (es : list dirent)
  : list dirent :=
  match es with
  | [] => [Dirent k n]
  | Dirent k' v :: es' =>
      if Js.eqb k' k then Dirent k' n :: es'
      else Dirent k' v :: set_entry k n es'
  end.

(** The tree with the regular file at [segs] created or overwritten. *)
Fixpoint write (n : node) (segs : list jsstring) (data : list byte)
  : result node :=
  match segs, n with
  | [], _ => Throw EISDIR
  | _ :: _, File _ => Throw ENOTDIR
  | [s], Dir es =>
      match find_entry s es with
      | Some (Dir _) => Throw EISDIR
      | _ => Ok (Dir (set_entry s (File data) es))
      end
  | s :: rest, Dir es =>
      match find_entry s es with
      | Some child =>
          match write child rest data with
          | Ok child' => Ok (Dir (set_entry s child' es))
          | Throw e => Throw e
          end
      | None => Throw ENOENT
      end
  end.

(** [fs.writeFileSync(p, data)] *)
Definition writeFileSync (fs : filesystem) (p : jsstring) (data : list byte)
  : result filesystem :=
  match p with
  | [] => Throw ENOENT
  | _ =>
      match write (root fs) (Path.resolve_segs (cwd fs) p) data with
      | Ok r => Ok {| root := r; cwd := cwd fs |}
      | Throw e => Throw e
      end
  end.

End Fs.

(* ================================================================== *)
(** * Settings ([src/config.ts]) *)

Module Config.

(** The values of the [pyToolkit] section the user has set; [None] where
    the setting is absent and [get] returns its fallback. *)
Record settings := {
  user_preferredManagers : option (list jsstring);
  user_excludePatterns : option (list jsstring)
}.

Definition get {T : Type} (v : option T) (fallback : T) : T :=
  match v with Some x => x | None => fallback end.

Definition preferredManagers (st : settings) : list jsstring :=
  get (user_preferredManagers st) [str "uv"; str "venv+pip"].

Definition excludePatterns (st : settings) : list jsstring :=
  get (user_excludePatterns st)
    [str "*.venv"; str "__pycache__"; str ".pytest_cache";
     str ".mypy_cache"; str ".ruff_cache"; str "node_modules"].

Definition defaults : settings :=
  {| user_preferredManagers := None; user_excludePatterns := None |}.

End Config.

(** [Array.prototype.sort(cmp)]: a stable sort; for a consistent
    comparator every stable sort gives this list. *)
Section Sort.
Context {A : Type} (cmp : A -> A -> Z).

Fixpoint insert_sorted (x : A) (l : list A) : list A :=
  match l with
  | [] => [x]
  | y :: l' =>
      if (cmp x y <=? 0)%Z then x :: l else y :: insert_sorted x l'
  end.

Definition sort_with (l : list A) : list A := fold_right insert_sorted [] l.
End Sort.

(* ================================================================== *)
(** * Hash store ([src/venv/hash.ts]) *)

Module Hash.
Local Open Scope result_scope.

Definition HASH_FILENAME : jsstring := str ".requirements-hash".

(** [hashFile(filePath)] *)
Definition hashFile (fs : Fs.filesystem) (filePath : jsstring)
  : result jsstring :=
  content <- Fs.readFileSync fs filePath ;;
  Ok (MD5.md5_hex content).

(** [readStoredHash(venvPath)]; [None] is [undefined]. *)
Definition readStoredHash (fs : Fs.filesystem) (venvPath : jsstring)
  : result (option jsstring) :=
  let hashFile := Path.join [venvPath; HASH_FILENAME] in
  if negb (Fs.existsSync fs hashFile) then Ok None
  else
    content <- Fs.readFileSync fs hashFile ;;
    Ok (Some (Js.trim (Utf8.decode content))).

(** [writeHash(venvPath, hash)] *)
Definition writeHash (fs : Fs.filesystem) (venvPath hash : jsstring)
  : result Fs.filesystem :=
  Fs.writeFileSync fs (Path.join [venvPath; HASH_FILENAME])
    (Utf8.encode (hash ++ str newline)).

(** [isVenvStale(venvPath, requirementsPath)] *)
Definition isVenvStale (fs : Fs.filesystem)
    (venvPath requirementsPath : jsstring) : result bool :=
  stored <- readStoredHash fs venvPath ;;
  match stored with
  | None => Ok true
  | Some stored =>
      current <- hashFile fs requirementsPath ;;
      Ok (negb (Js.eqb stored current))
  end.

Definition candidates : list jsstring :=
  [str "requirements.txt"; str "requirements-dev.txt";
   str "requirements-cpu.txt"].

(** [findRequirementsFile(projectPath)] *)
Definition findRequirementsFile (fs : Fs.filesystem) (projectPath : jsstring)
  : option jsstring :=
  find (Fs.existsSync fs)
       (map (fun name => Path.join [projectPath; name]) candidates).

(** A LineTerminator: what "." of a regular expression does not
    match. *)
Definition is_line_terminator (c : N) : bool :=
  existsb (N.eqb c) [0x0A; 0x0D; 0x2028; 0x2029]%N.

(** [/^requirements.*\.txt$/.test(f)]: "requirements", then code units of
    one line, then ".txt" at the end. *)
Definition is_requirements_name (f : jsstring) : bool :=
  Js.startsWith f (str "requirements")
  && (let rest := skipn 12 f in
      Js.endsWith rest (str ".txt")
      && forallb (fun c => negb (is_line_terminator c))
           (firstn (length rest - 4) rest)).

(** [findAllRequirementsFiles(projectPath)]; [readdirSync] gives the
    names of the entries, and an error it throws is caught. *)
Definition findAllRequirementsFiles (fs : Fs.filesystem)
    (projectPath : jsstring) : list jsstring :=
  match Fs.readdirSync fs projectPath with
  | Ok entries =>
      sort_with Js.compare
        (map (fun f => Path.join [projectPath; f])
           (filter is_requirements_name (map Fs.name entries)))
  | Throw _ => []
  end.

End Hash.

(* ================================================================== *)
(** * Package-manager detection ([src/venv/packageManager.ts]) *)

Module PackageManager.
Local Open Scope result_scope.

Definition uv : jsstring := str "uv".
Definition venv_pip : jsstring := str "venv+pip".

(** Steps 2-3 of the detection: the markers in [pyproject.toml]. *)
Definition pyproject_says_uv (fs : Fs.filesystem) (projectPath : jsstring)
  : result bool :=
  let pyproject := Path.join [projectPath; str "pyproject.toml"] in
  if Fs.existsSync fs pyproject then
    bytes <- Fs.readFileSync fs pyproject ;;
    let content := Utf8.decode bytes in
    if Js.includes content (str "[tool.uv]") then Ok true
    else if Js.includes content (str "[project]")
            && Js.includes content (str "dependencies = [") then Ok true
    else Ok false
  else Ok false.

(** [detectPackageManager(projectPath)].  The result is typed
    ['uv' | 'venv+pip'] by a cast only: the fallback returns whatever the
    first preference is. *)
Definition detectPackageManager (st : Config.settings) (fs : Fs.filesystem)
    (projectPath : jsstring) : result jsstring :=
  if Fs.existsSync fs (Path.join [projectPath; str "uv.lock"]) then Ok uv
  else
    early <- pyproject_says_uv fs projectPath ;;
    if (early : bool) then Ok uv
    else if Fs.existsSync fs (Path.join [projectPath; str "requirements.txt"])
    then Ok venv_pip
    else
      match Config.preferredManagers st with
      | first :: _ => Ok first
      | [] => Ok venv_pip
      end.

End PackageManager.

(* ================================================================== *)
(** * Sub-project discovery ([src/discovery/projects.ts]) *)

Module Projects.

Inductive marker := RequirementsTxt | PyprojectToml | PyFiles.

Record SubProject := {
  name : jsstring;
  absolutePath : jsstring;
  markers : list marker
}.

Definition ALWAYS_SKIP : list jsstring :=
  [str "tools"; str "out"; str "__pycache__"; str "node_modules";
   str ".venv"; str "venv"; str ".git"; str ".github"; str ".vscode";
   str ".devcontainer"].

Definition star : N := 0x2A%N.

Definition shouldSkip (patterns : list jsstring) (name : jsstring) : bool :=
  Js.startsWith name (str ".")
  || existsb (Js.eqb name) ALWAYS_SKIP
  || existsb (fun p => Js.includes name (Js.remove_all star p)) patterns.

(** [isProjectDir(dirPath)]; an error of [readdirSync] is caught and
    adds no marker. *)
Definition isProjectDir (fs : Fs.filesystem) (dirPath : jsstring)
  : list marker :=
  let markers :=
    (if Fs.existsSync fs (Path.join [dirPath; str "requirements.txt"])
     then [RequirementsTxt] else [])
    ++ (if Fs.existsSync fs (Path.join [dirPath; str "pyproject.toml"])
        then [PyprojectToml] else []) in
  match markers with
  | [] =>
      match Fs.readdirSync fs dirPath with
      | Ok entries =>
          if existsb (fun e => Fs.isFile (Fs.target e)
                               && Js.endsWith (Fs.name e) (str ".py")) entries
          then [PyFiles] else []
      | Throw _ => []
      end
  | _ => markers
  end.

(** What a [for] loop pushes to [results]: what each turn pushes, in the
    order of the turns; [None] when a turn does not end. *)
Fixpoint collect {A B : Type} (turn : A -> option (list B)) (l : list A)
  : option (list B) :=
  match l with
  | [] => Some []
  | x :: rest =>
      match turn x, collect turn rest with
      | Some found, Some more => Some (found ++ more)
      | _, _ => None
      end
  end.

(** [scan(basePath, relativePath)]: the projects it pushes to [results],
    in order.  [fuel] bounds the depth of the recursion; [None] is for a
    recursion still running when it is spent. *)
Fixpoint scan (fuel : nat) (patterns : list jsstring) (fs : Fs.filesystem)
    (basePath relativePath : jsstring) : option (list SubProject) :=
  match fuel with
  | O => None
  | S fuel =>
      match Fs.readdirSync fs basePath with
      | Throw _ => Some []
      | Ok entries =>
          collect
            (fun entry =>
               if negb (Fs.isDirectory (Fs.target entry)) then Some []
               else if shouldSkip patterns (Fs.name entry) then Some []
               else
                 let fullPath := Path.join [basePath; Fs.name entry] in
                 let relPath :=
                   match relativePath with
                   | [] => Fs.name entry
                   | _ => relativePath ++ str "/" ++ Fs.name entry
                   end in
                 let markers := isProjectDir fs fullPath in
                 if (0 <? length markers)%nat
                 then Some [{| name := relPath; absolutePath := fullPath;
                               markers := markers |}]
                 else scan fuel patterns fs fullPath relPath)
            entries
      end
  end.

Section Discover.
(** [a.localeCompare(b)], the collation of the host. *)
Variable localeCompare : jsstring -> jsstring -> Z.

(** [discoverSubprojects(workspaceRoot)].  The recursion of [scan] goes
    down the tree, so the height of the tree bounds its depth; the result
    is [None] only if [scan] were still running then. *)
Definition discoverSubprojects (st : Config.settings) (fs : Fs.filesystem)
    (workspaceRoot : jsstring) : option (list SubProject) :=
  let patterns := Config.excludePatterns st in
  match scan (S (Fs.height (Fs.root fs))) patterns fs workspaceRoot [] with
  | Some results =>
      Some (sort_with (fun a b => localeCompare (name a) (name b)) results)
  | None => None
  end.
End Discover.

End Projects.

(* ================================================================== *)
(** * Venv locator ([src/discovery/venv.ts]) *)

Module Venv.
Local Open Scope result_scope.

(** The [while] loop of [findVenvForFile].  [None] is for a loop still
    running when [fuel] is spent. *)
Fixpoint walk_up (fuel : nat) (fs : Fs.filesystem) (root current : jsstring)
  : option (option jsstring) :=
  match fuel with
  | O => None
  | S fuel =>
      if Js.startsWith current root then
        let candidate := Path.join [current; str ".venv"] in
        match Fs.lookup fs candidate with
        | Some (Fs.Dir _) => Some (Some candidate)
        | _ =>
            if Js.eqb current root then Some None
            else walk_up fuel fs root (Path.dirname current)
        end
      else Some None
  end.

Definition unreachable : error := FsError (str "loop did not end").

(** [findVenvForFile(filePath, workspaceRoot)]; every turn of the loop
    shortens [current], so its length bounds the number of turns. *)
Definition findVenvForFile (fs : Fs.filesystem)
    (filePath workspaceRoot : jsstring) : result (option jsstring) :=
  st <- Fs.statSync fs filePath ;;
  let current :=
    if Fs.isDirectory st then filePath else Path.dirname filePath in
  let root := Path.resolve (Fs.cwd fs) workspaceRoot in
  match walk_up (S (length current)) fs root current with
  | Some r => Ok r
  | None => Throw unreachable
  end.

(** [getVenvPython(venvPath)], where [process.platform] is not 'win32' *)
Definition getVenvPython (venvPath : jsstring) : jsstring :=
  Path.join [venvPath; str "bin"; str "python"].

(** [getVenvPip(venvPath)], where [process.platform] is not 'win32' *)
Definition getVenvPip (venvPath : jsstring) : jsstring :=
  Path.join [venvPath; str "bin"; str "pip"].

(** [isVenvValid(venvPath)] *)
Definition isVenvValid (fs : Fs.filesystem) (venvPath : jsstring) : bool :=
  Fs.existsSync fs (getVenvPython venvPath).

Definition by_length_desc (a b : jsstring) : Z :=
  (Z.of_nat (length b) - Z.of_nat (length a))%Z.

(** The test of the loop of [getProjectForFile]; [sep] is the [path.sep]
    of the platform. *)
Definition matches (sep rel sp : jsstring) : bool :=
  Js.startsWith rel (sp ++ sep) || Js.startsWith rel (sp ++ str "/").

(** [getProjectForFile] from [rel] on: the names sorted longest first,
    and the first of them that passes the test.  The platform comes in
    through [path.sep] and through what [path.relative] gave for [rel],
    nowhere else. *)
Definition project_for (sep rel : jsstring)
    (subprojectNames : list jsstring) : option jsstring :=
  let sorted := sort_with by_length_desc subprojectNames in
  find (matches sep rel) sorted.

(** [getProjectForFile(filePath, workspaceRoot, subprojectNames)] on a
    POSIX host; [cwd] is [process.cwd()], which [path.relative] resolves
    against. *)
Definition getProjectForFile (cwd filePath workspaceRoot : jsstring)
    (subprojectNames : list jsstring) : option jsstring :=
  let rel := Path.relative cwd workspaceRoot filePath in
  project_for Path.sep rel subprojectNames.

End Venv.

(* ================================================================== *)
(** * Test discovery ([src/discovery/tests.ts]) *)

Module Tests.

(** [findTestsForFile(filePath, projectRoot)] *)
Definition findTestsForFile (fs : Fs.filesystem)
    (filePath projectRoot : jsstring) : list jsstring :=
  let testDir := Path.join [projectRoot; str "tests"] in
  if negb (Fs.existsSync fs testDir) then []
  else
    let rel := Path.relative (Fs.cwd fs) projectRoot filePath in
    let stem := Path.basename_ext filePath (str ".py") in
    let relDir := Path.dirname rel in
    let candidates :=
      [Path.join [testDir; str "test_" ++ stem ++ str ".py"];
       Path.join [testDir; stem ++ str "_test.py"];
       Path.join [testDir; relDir; str "test_" ++ stem ++ str ".py"];
       Path.join [testDir; relDir; stem ++ str "_test.py"]] in
    filter (Fs.existsSync fs) candidates.

(** [hasTestDir(projectRoot)] *)
Definition hasTestDir (fs : Fs.filesystem) (projectRoot : jsstring) : bool :=
  Fs.existsSync fs (Path.join [projectRoot; str "tests"]).

End Tests.

(* ================================================================== *)
(** * Executable files of a project ([src/tasks/provider.ts]) *)

Module Tasks.

(** A single or a double quote. *)
Definition is_quote (c : N) : bool := N.eqb c 0x27%N || N.eqb c 0x22%N.

(** [s] without the prefix [p], when it starts with it. *)
Fixpoint strip_prefix (p s : jsstring) : option jsstring :=
  match p, s with
  | [], _ => Some s
  | _ :: _, [] => None
  | c :: p', d :: s' => if N.eqb c d then strip_prefix p' s' else None
  end.

(** The regular expression of [hasMainBlock] at the start of [s]: "if",
    white space, "__name__", "==" with optional white space around it, a
    quote of either kind, "__main__" and a quote of either kind.  No
    word of it starts with white space, so a greedy match of the white
    space is the only one. *)
Definition main_block_here (s : jsstring) : bool :=
  match strip_prefix (str "if") s with
  | Some r1 =>
      let r2 := Js.trimStart r1 in
      (length r2 <? length r1)%nat
      && match strip_prefix (str "__name__") r2 with
         | Some r3 =>
             match strip_prefix (str "==") (Js.trimStart r3) with
             | Some r4 =>
                 match Js.trimStart r4 with
                 | q :: r5 =>
                     is_quote q
                     && match strip_prefix (str "__main__") r5 with
                        | Some (q' :: _) => is_quote q'
                        | _ => false
                        end
                 | [] => false
                 end
             | None => false
             end
         | None => false
         end
  | None => false
  end.

(** [regexp.test(s)]: a match somewhere in [s]. *)
Fixpoint has_main_block (s : jsstring) : bool :=
  main_block_here s
  || match s with
     | [] => false
     | _ :: s' => has_main_block s'
     end.

(** [hasMainBlock(filePath)]; a file that cannot be read has none. *)
Definition hasMainBlock (fs : Fs.filesystem) (filePath : jsstring) : bool :=
  match Fs.readFileSync fs filePath with
  | Ok content => has_main_block (Utf8.decode content)
  | Throw _ => false
  end.

(** The [scan(dir)] of [discoverExecutableFiles]: the files it pushes,
    in order; [None] for a recursion still running when [fuel] is
    spent. *)
Fixpoint scan (fuel : nat) (excludePatterns : list jsstring)
    (fs : Fs.filesystem) (dir : jsstring) : option (list jsstring) :=
  match fuel with
  | O => None
  | S fuel =>
      match Fs.readdirSync fs dir with
      | Throw _ => Some []
      | Ok entries =>
          Projects.collect
            (fun entry =>
               let full := Path.join [dir; Fs.name entry] in
               if Fs.isDirectory (Fs.target entry) then
                 if Js.startsWith (Fs.name entry) (str ".")
                    || Js.eqb (Fs.name entry) (str "__pycache__")
                    || Js.eqb (Fs.name entry) (str "node_modules")
                    || Js.eqb (Fs.name entry) (str ".venv")
                 then Some []
                 else if existsb
                           (fun p => Js.includes (Fs.name entry)
                                       (Js.remove_all Projects.star p))
                           excludePatterns
                 then Some []
                 else scan fuel excludePatterns fs full
               else if Js.endsWith (Fs.name entry) (str ".py")
                       && hasMainBlock fs full
               then Some [full]
               else Some [])
            entries
      end
  end.

(** [discoverExecutableFiles(projectPath, excludePatterns)]; the height
    of the tree bounds the depth of [scan]. *)
Definition discoverExecutableFiles (fs : Fs.filesystem)
    (projectPath : jsstring) (excludePatterns : list jsstring)
  : option (list jsstring) :=
  match scan (S (Fs.height (Fs.root fs))) excludePatterns fs projectPath with
  | Some results => Some (sort_with Js.compare results)
  | None => None
  end.

End Tasks.

(* ================================================================== *)
(** * Venv lifecycle ([src/venv/manager.ts]) *)

Module Manager.

(** How a child process ends: ['close'] with an exit code ([None] is the
    [null] of a process ended by a signal), or ['error'] when it could
    not be spawned. *)
Inductive exit : Type :=
| Closed (code : option Z)
| SpawnError.

(** What the extension does to the world around it. *)
Inductive event : Type :=
| Spawned (command : jsstring) (args : list jsstring)
          (cwd : option jsstring) (status : exit)
| Wrote (path : jsstring) (data : list byte)
| ChannelShown
| Appended (line : jsstring).

(** The host: the user's settings, and what running a command (with its
    arguments, in its working directory, [None] for the extension's own)
    does to the file system and how it ends. *)
Record host := {
  settings : Config.settings;
  run : jsstring -> list jsstring -> option jsstring -> Fs.filesystem
        -> exit * Fs.filesystem
}.

Record world := { files : Fs.filesystem; trace : list event }.

(** Computations that read and change the world and may throw. *)
Definition M (A : Type) : Type := world -> result A * world.

Definition ret {A : Type} (a : A) : M A := fun w => (Ok a, w).

Definition bind {A B : Type} (m : M A) (k : A -> M B) : M B :=
  fun w =>
    match m w with
    | (Ok a, w') => k a w'
    | (Throw e, w') => (Throw e, w')
    end.

Declare Scope manager_scope.
Delimit Scope manager_scope with manager.
Notation "x <- m ;; k" := (bind m (fun x => k))
  (at level 61, m at next level, right associativity) : manager_scope.
Notation "m ;;; k" := (bind m (fun _ => k))
  (at level 61, right associativity) : manager_scope.
Local Open Scope manager_scope.

Definition throw {A : Type} (e : error) : M A := fun w => (Throw e, w).

(** A call that only reads the file system. *)
Definition read {A : Type} (f : Fs.filesystem -> result A) : M A :=
  fun w => (f (files w), w).

Definition emit (e : event) : M unit :=
  fun w => (Ok tt, {| files := files w; trace := trace w ++ [e] |}).

(** Spawning a process: the host says how it ends and what it leaves. *)
Definition spawn (h : host) (command : jsstring) (args : list jsstring)
    (cwd : option jsstring) : M exit :=
  fun w =>
    let '(status, fs') := run h command args cwd (files w) in
    (Ok status,
     {| files := fs';
        trace := trace w ++ [Spawned command args cwd status] |}).

Definition appendLine (line : jsstring) : M unit := emit (Appended line).

Section Lifecycle.
Variable h : host.

(** [isUvAvailable()]: [execFileSync] throws unless the process exits
    with code 0. *)
Definition isUvAvailable : M bool :=
  status <- spawn h (str "uv") [str "--version"] None ;;
  match status with
  | Closed (Some 0%Z) => ret true
  | _ => ret false
  end.

(** [resolvePackageManager(projectPath)] *)
Definition resolvePackageManager (projectPath : jsstring) : M jsstring :=
  detected <-
    read (fun fs =>
            PackageManager.detectPackageManager (settings h) fs projectPath) ;;
  if Js.eqb detected PackageManager.uv then
    available <- isUvAvailable ;;
    if (available : bool) then ret detected else ret PackageManager.venv_pip
  else ret detected.

(** [runCommand(command, args, cwd, channel)]; the output the process
    streams to the channel is not recorded. *)
Definition runCommand (command : jsstring) (args : list jsstring)
    (cwd : jsstring) : M unit :=
  appendLine (str "> " ++ command ++ str " " ++ Js.join (str " ") args) ;;;
  status <- spawn h command args (Some cwd) ;;
  match status with
  | Closed (Some 0%Z) => ret tt
  | Closed code => throw (CommandExited code)
  | SpawnError => throw SpawnFailed
  end.

(** [writeHash], as a step of the lifecycle. *)
Definition writeHash (venvPath hash : jsstring) : M unit :=
  fun w =>
    match Hash.writeHash (files w) venvPath hash with
    | Ok fs' =>
        (Ok tt,
         {| files := fs';
            trace := trace w
                     ++ [Wrote (Path.join [venvPath; Hash.HASH_FILENAME])
                               (Utf8.encode (hash ++ str newline))] |})
    | Throw e => (Throw e, w)
    end.

Record options := {
  force : option bool;
  requirementsFile : option jsstring
}.

Record CreateVenvResult := {
  venvPath : jsstring;
  manager : jsstring;
  created : bool;
  updated : bool
}.

(** A string is truthy when it is not empty. *)
Definition truthy (s : option jsstring) : option jsstring :=
  match s with
  | Some [] => None
  | _ => s
  end.

(** [createOrUpdateVenv(projectPath, options)] *)
Definition createOrUpdateVenv (projectPath : jsstring)
    (opts : option options) : M CreateVenvResult :=
  manager <- resolvePackageManager projectPath ;;
  let venvPath := Path.join [projectPath; str ".venv"] in
  reqFile <-
    match opts with
    | Some {| requirementsFile := Some f |} => ret (Some f)
    | _ => read (fun fs => Ok (Hash.findRequirementsFile fs projectPath))
    end ;;
  let force :=
    match opts with
    | Some {| force := Some b |} => b
    | _ => false
    end in
  exists_ <- read (fun fs => Ok (Venv.isVenvValid fs venvPath)) ;;
  upToDate <-
    (if (exists_ : bool) && negb force then
       match truthy reqFile with
       | Some f =>
           stale <- read (fun fs => Hash.isVenvStale fs venvPath f) ;;
           ret (negb stale)
       | None => ret false
       end
     else ret false) ;;
  if (upToDate : bool) then
    ret {| venvPath := venvPath; manager := manager;
           created := false; updated := false |}
  else
    emit ChannelShown ;;;
    (if negb exists_ then
       appendLine (str "Creating venv at " ++ venvPath ++ str " using "
                   ++ manager ++ str "...") ;;;
       if Js.eqb manager PackageManager.uv
       then runCommand (str "uv") [str "venv"; venvPath] projectPath
       else runCommand (str "python3") [str "-m"; str "venv"; venvPath]
                       projectPath
     else ret tt) ;;;
    match truthy reqFile with
    | Some f =>
        appendLine (str "Installing dependencies from "
                    ++ Path.basename f ++ str "...") ;;;
        (if Js.eqb manager PackageManager.uv
         then runCommand (str "uv")
                [str "pip"; str "install"; str "-r"; f; str "--python";
                 Venv.getVenvPython venvPath] projectPath
         else runCommand (Path.join [venvPath; str "bin"; str "pip"])
                [str "install"; str "-r"; f] projectPath) ;;;
        hash <- read (fun fs => Hash.hashFile fs f) ;;
        writeHash venvPath hash ;;;
        appendLine (str "Saved requirements hash: " ++ hash)
    | None =>
        exists_pyproject <-
          read (fun fs =>
                  Ok (Fs.existsSync fs
                        (Path.join [projectPath; str "pyproject.toml"]))) ;;
        if Js.eqb manager PackageManager.uv && (exists_pyproject : bool)
        then appendLine (str "Running uv sync...") ;;;
             runCommand (str "uv") [str "sync"] projectPath
        else ret tt
    end ;;;
    appendLine (str "Done.") ;;;
    ret {| venvPath := venvPath; manager := manager;
           created := negb exists_; updated := exists_ |}.

End Lifecycle.

End Manager.

(* ================================================================== *)
(** * Requirements watcher ([src/watchers/requirementsWatcher.ts]) *)

Module Watcher.
Local Open Scope result_scope.

(** [handleChange(uri)] of [startRequirementsWatcher], for the file
    [filePath] of the event: the warning it shows, or [None] when it
    returns without one.  What the user answers to the warning is left
    out. *)
Definition handleChange (fs : Fs.filesystem)
    (workspaceRoot filePath : jsstring) : result (option jsstring) :=
  let projectDir := Path.dirname filePath in
  let venvPath := Path.join [projectDir; str ".venv"] in
  if negb (Venv.isVenvValid fs venvPath) then Ok None
  else
    match Manager.truthy (Hash.findRequirementsFile fs projectDir) with
    | None => Ok None
    | Some reqFile =>
        stale <- Hash.isVenvStale fs venvPath reqFile ;;
        if (stale : bool) then
          let rel := Path.relative (Fs.cwd fs) workspaceRoot projectDir in
          let projectName :=
            match rel with
            | [] => Path.basename projectDir
            | _ => rel
            end in
          Ok (Some (str "py-toolkit: Dependencies changed in " ++ projectName
                    ++ str ". Update venv?"))
        else Ok None
    end.

End Watcher.

(* ================================================================== *)
(** * Scenarios: the file systems and hosts the examples run on *)

Module Scenario.

Definition dir (k : string) (es : list Fs.dirent) : Fs.dirent :=
  Fs.Dirent (str k) (Fs.Dir es).

Definition file (k : string) (content : list byte) : Fs.dirent :=
  Fs.Dirent (str k) (Fs.File content).

Definition at_root (es : list Fs.dirent) : Fs.filesystem :=
  {| Fs.root := Fs.Dir es; Fs.cwd := str "/" |}.

(** Two 128-byte messages with one MD5 digest (Wang and Yu, 2005). *)
Definition collision1 : list byte :=
  unhex ("d131dd02c5e6eec4693d9a0698aff95c2fcab58712467eab4004583eb8fb7f89"
      ++ "55ad340609f4b30283e488832571415a085125e8f7cdc99fd91dbdf280373c5b"
      ++ "d8823e3156348f5bae6dacd436c919c6dd53e2b487da03fd02396306d248cda0"
      ++ "e99f33420f577ee8ce54b67080a80d1ec69821bcb6a8839396f9652b6ff72a70").

Definition collision2 : list byte :=
  unhex ("d131dd02c5e6eec4693d9a0698aff95c2fcab50712467eab4004583eb8fb7f89"
      ++ "55ad340609f4b30283e4888325f1415a085125e8f7cdc99fd91dbd7280373c5b"
      ++ "d8823e3156348f5bae6dacd436c919c6dd53e23487da03fd02396306d248cda0"
      ++ "e99f33420f577ee8ce54b67080280d1ec69821bcb6a8839396f965ab6ff72a70").

Definition flask : list byte := bytes ("flask" ++ newline).
Definition flask2 : list byte := bytes ("flask==2.0" ++ newline).
Definition flask3 : list byte := bytes ("flask==3.0" ++ newline).

Definition or_else {A : Type} (r : result A) (a : A) : A :=
  match r with Ok x => x | Throw _ => a end.

(** Two files of different content and one digest. *)
Definition twins : Fs.filesystem :=
  at_root [file "a.txt" collision1; file "b.txt" collision2].

(** The two files of the test of [hashFile]. *)
Definition pair : Fs.filesystem :=
  at_root [file "a.txt" flask2; file "b.txt" flask3].

(** A project with a manifest and a venv directory without a marker;
    then the marker written from the manifest; then the manifest
    rewritten. *)
Definition project (manifest : list byte) : Fs.filesystem :=
  at_root [dir "ws" [dir "proj" [file "requirements.txt" manifest;
                                 dir ".venv" []]]].

Definition proj_venv : jsstring := str "/ws/proj/.venv".
Definition proj_manifest : jsstring := str "/ws/proj/requirements.txt".

Definition hashed (fs : Fs.filesystem) : Fs.filesystem :=
  or_else (Hash.writeHash fs proj_venv
             (or_else (Hash.hashFile fs proj_manifest) [])) fs.

Definition rewritten (fs : Fs.filesystem) (manifest : list byte)
  : Fs.filesystem :=
  or_else (Fs.writeFileSync fs proj_manifest manifest) fs.

(** A project whose venv has an interpreter, with more files beside the
    manifest; with [hashed], its marker is up to date. *)
Definition installed (manifest : list Fs.dirent) (more : list Fs.dirent)
  : Fs.filesystem :=
  at_root [dir "ws" [dir "proj"
                       (manifest
                        ++ [dir ".venv" [dir "bin" [file "python" []]]]
                        ++ more)]].

Definition with_manifest : list Fs.dirent := [file "requirements.txt" flask].

Definition proj : jsstring := str "/ws/proj".

(** Hosts: every command succeeds and touches no file, or every command
    exits with code 1 and leaves a log; [legacy_host] prefers the legacy
    manager. *)
Definition calm : Manager.host :=
  {| Manager.settings := Config.defaults;
     Manager.run := fun _ _ _ fs => (Manager.Closed (Some 0%Z), fs) |}.

Definition pip_log : jsstring := str "/ws/proj/pip.log".

Definition failing : Manager.host :=
  {| Manager.settings := Config.defaults;
     Manager.run := fun _ _ _ fs =>
       (Manager.Closed (Some 1%Z),
        or_else (Fs.writeFileSync fs pip_log []) fs) |}.

Definition legacy_host : Manager.host :=
  {| Manager.settings :=
       {| Config.user_preferredManagers := Some [str "venv+pip"];
          Config.user_excludePatterns := None |};
     Manager.run := fun _ _ _ fs => (Manager.Closed (Some 0%Z), fs) |}.

Definition fresh (fs : Fs.filesystem) : Manager.world :=
  {| Manager.files := fs; Manager.trace := [] |}.

(** A workspace [/ws] and, beside it, a directory [/ws2] with a venv. *)
Definition neighbours : Fs.filesystem :=
  at_root [dir "ws" [dir "proj" [file "app.py" []]];
           dir "ws2" [dir ".venv" []; file "app.py" []]].

(** The workspace of the test 'discovers nested projects', with more
    around it. *)
Definition monorepo : Fs.filesystem :=
  at_root
    [dir "ws"
       [dir "mcp" [dir "weather" [file "requirements.txt" [];
                                  dir "deep" [file "x.py" []]];
                   file "notes.md" []];
        dir "scripts" [file "run.py" []];
        dir ".hidden" [file "requirements.txt" []];
        dir "dual" [file "requirements.txt" []; file "pyproject.toml" []];
        dir "empty" []]].

(** The project of the test 'pyproject.toml without uv markers +
    requirements.txt'. *)
Definition black : list byte :=
  bytes ("[tool.black]" ++ newline ++ "line-length = 100" ++ newline).

Definition legacy : Fs.filesystem :=
  at_root [dir "ws" [dir "proj" [file "pyproject.toml" black;
                                 file "requirements.txt" flask]]].

(** A project in which [pyproject.toml] is a directory. *)
Definition shadowed : Fs.filesystem :=
  at_root [dir "ws" [dir "proj" [dir "pyproject.toml" [];
                                 file "requirements.txt" flask]]].

Definition main_py : list byte :=
  bytes ("import app" ++ newline ++ "if __name__ == '__main__':" ++ newline
         ++ "    app.main()" ++ newline).

(** A workspace with one project: three requirements files and a text
    file beside them, a venv with an interpreter and no marker, sources
    with and without a main block, a hidden directory and tests. *)
Definition studio : Fs.filesystem :=
  at_root
    [dir "ws"
       [dir "proj"
          [file "requirements-dev.txt" flask2;
           file "requirements.txt" flask;
           file "requirements-cpu.txt" flask3;
           file "notes.txt" [];
           dir ".venv" [dir "bin" [file "python" []]];
           file "app.py" main_py;
           dir "src" [file "tool.py" main_py; file "lib.py" []];
           dir ".cache" [file "x.py" main_py];
           dir "tests" [file "test_app.py" []]]]].

Definition studio_project : Projects.SubProject :=
  {| Projects.name := str "proj";
     Projects.absolutePath := str "/ws/proj";
     Projects.markers := [Projects.RequirementsTxt] |}.

(** A project with a manifest whose venv has no interpreter. *)
Definition unbuilt : Fs.filesystem := project flask.

(** Settings with an exclude pattern of stars only. *)
Definition starred : Config.settings :=
  {| Config.user_preferredManagers := None;
     Config.user_excludePatterns := Some [str "__pycache__"; str "**"] |}.

End Scenario.

(* ================================================================== *)
(** * Properties *)

Unset Implicit Arguments.

(** ** Strings *)

Module JsFacts.

Lemma eqb_eq (a b : jsstring) : Js.eqb a b = true <-> a = b.
Proof.
  unfold Js.eqb. destruct (list_eq_dec N.eq_dec a b); split; congruence.
Qed.

Lemma eqb_refl (a : jsstring) : Js.eqb a a = true.
Proof. now apply eqb_eq. Qed.

Lemma eqb_neq (a b : jsstring) : Js.eqb a b = false <-> a <> b.
Proof.
  unfold Js.eqb. destruct (list_eq_dec N.eq_dec a b); split; congruence.
Qed.

Lemma startsWith_iff (s p : jsstring) :
  Js.startsWith s p = true <-> exists t, s = p ++ t.
Proof.
  revert s. induction p as [|c p IH]; intros s; simpl.
  - split; [exists s; reflexivity | destruct s; reflexivity].
  - destruct s as [|d s]; simpl.
    + split; [discriminate | intros [t Ht]; discriminate].
    + rewrite andb_true_iff, N.eqb_eq, IH. split.
      * intros [-> [t ->]]. now exists t.
      * intros [t Ht]. injection Ht as -> ->. split; [reflexivity | now exists t].
Qed.

Lemma startsWith_app (p t : jsstring) : Js.startsWith (p ++ t) p = true.
Proof. apply startsWith_iff. now exists t. Qed.

Lemma trimStart_nonspace (c : N) (s : jsstring) :
  Js.is_space c = false -> Js.trimStart (c :: s) = c :: s.
Proof. intros H. simpl. now rewrite H. Qed.

(** Trimming removes the newline written after a digest and nothing
    else, when the digest has no white space. *)
Lemma trim_line (s : jsstring) :
  Forall (fun c => Js.is_space c = false) s ->
  Js.trim (s ++ str newline) = s.
Proof.
  intros Hs. unfold Js.trim, Js.trimEnd.
  assert (Hstart : Js.trimStart (s ++ str newline) = s ++ str newline
                   \/ s = []).
  { destruct s as [|c s]; [now right | left].
    inversion Hs; subst. now apply trimStart_nonspace. }
  destruct Hstart as [-> | ->]; [|reflexivity].
  rewrite rev_app_distr. change (rev (str newline)) with [10%N].
  change (Js.trimStart ([10%N] ++ rev s)) with (Js.trimStart (rev s)).
  assert (Hrev : Js.trimStart (rev s) = rev s).
  { apply Forall_rev in Hs. destruct (rev s) as [|c r]; [reflexivity|].
    inversion Hs; subst. now apply trimStart_nonspace. }
  rewrite Hrev. apply rev_involutive.
Qed.

End JsFacts.

(** ** The digest and its hexadecimal form *)

Module MD5Facts.
Local Open Scope N_scope.

Definition nibbles : list N :=
  [0; 1; 2; 3; 4; 5; 6; 7; 8; 9; 10; 11; 12; 13; 14; 15].

Lemma lt16_cases (n : N) : n < 16 -> In n nibbles.
Proof. intros H. unfold nibbles. simpl. lia. Qed.

Definition plain (c : N) : bool := (c <? 0x80) && negb (Js.is_space c).

Lemma hexdigit_plain (n : N) : n < 16 -> plain (MD5.hexdigit n) = true.
Proof.
  intros H. apply lt16_cases in H.
  assert (All : forallb (fun k => plain (MD5.hexdigit k)) nibbles = true)
    by reflexivity.
  rewrite forallb_forall in All. now apply All.
Qed.

Lemma hexdigit_inj (n m : N) :
  n < 16 -> m < 16 -> MD5.hexdigit n = MD5.hexdigit m -> n = m.
Proof.
  intros Hn Hm. unfold MD5.hexdigit.
  destruct (n <? 10) eqn:En; destruct (m <? 10) eqn:Em;
    rewrite ?N.ltb_lt, ?N.ltb_ge in *; lia.
Qed.

Definition is_byte (b : N) : Prop := b < 256.

Lemma hex_cons (b : N) (bs : list N) :
  MD5.hex (b :: bs)
  = MD5.hexdigit (b / 16) :: MD5.hexdigit (b mod 16) :: MD5.hex bs.
Proof. reflexivity. Qed.

Lemma high_nibble (b : N) : is_byte b -> b / 16 < 16.
Proof. intros H. apply N.Div0.div_lt_upper_bound. exact H. Qed.

Lemma low_nibble (b : N) : b mod 16 < 16.
Proof. now apply N.mod_lt. Qed.

(** Two digits per byte lose nothing. *)
Lemma hex_inj (bs1 bs2 : list N) :
  Forall is_byte bs1 -> Forall is_byte bs2 ->
  MD5.hex bs1 = MD5.hex bs2 -> bs1 = bs2.
Proof.
  intros H1. revert bs2.
  induction H1 as [|b1 bs1 Hb1 _ IH]; intros bs2 H2 E.
  - destruct bs2; [reflexivity | discriminate].
  - destruct H2 as [|b2 bs2 Hb2 H2]; [discriminate|].
    rewrite !hex_cons in E. injection E as Eh El Et.
    apply hexdigit_inj in Eh; auto using high_nibble.
    apply hexdigit_inj in El; auto using low_nibble.
    f_equal; [|now apply IH].
    rewrite (N.div_mod b1 16), (N.div_mod b2 16) by discriminate.
    now rewrite Eh, El.
Qed.

Lemma hex_plain (bs : list N) :
  Forall is_byte bs -> Forall (fun c => plain c = true) (MD5.hex bs).
Proof.
  induction 1 as [|b bs Hb _ IH]; [constructor|].
  rewrite hex_cons.
  repeat constructor; auto using hexdigit_plain, high_nibble, low_nibble.
Qed.

Lemma hex_length (bs : list N) :
  length (MD5.hex bs) = (2 * length bs)%nat.
Proof. induction bs as [|b bs IH]; [reflexivity|]. rewrite hex_cons. simpl. lia. Qed.

Lemma le_bytes_bound (n : nat) (x : N) : Forall is_byte (MD5.le_bytes n x).
Proof.
  revert x. induction n as [|n IH]; intros x; simpl; constructor; auto.
  now apply N.mod_lt.
Qed.

Lemma le_bytes_length (n : nat) (x : N) : length (MD5.le_bytes n x) = n.
Proof. revert x. induction n as [|n IH]; intros x; simpl; auto. Qed.

Lemma digest_bound (msg : list byte) : Forall is_byte (MD5.digest msg).
Proof.
  unfold MD5.digest.
  destruct (fold_left MD5.compress _ MD5.init) as [a b c d].
  repeat (apply Forall_app; split); apply le_bytes_bound.
Qed.

Lemma digest_length (msg : list byte) : length (MD5.digest msg) = 16%nat.
Proof.
  unfold MD5.digest.
  destruct (fold_left MD5.compress _ MD5.init) as [a b c d].
  now rewrite !length_app, !le_bytes_length.
Qed.

(** The hexadecimal digest: 32 code units, none of them white space,
    all of them ASCII. *)
Lemma md5_hex_plain (msg : list byte) :
  Forall (fun c => plain c = true) (MD5.md5_hex msg).
Proof. apply hex_plain, digest_bound. Qed.

Lemma md5_hex_length (msg : list byte) : length (MD5.md5_hex msg) = 32%nat.
Proof. unfold MD5.md5_hex. now rewrite hex_length, digest_length. Qed.

Lemma md5_hex_eq_iff (a b : list byte) :
  MD5.md5_hex a = MD5.md5_hex b <-> MD5.digest a = MD5.digest b.
Proof.
  split; [|unfold MD5.md5_hex; congruence].
  apply hex_inj; apply digest_bound.
Qed.

End MD5Facts.

(** ** UTF-8 on ASCII text *)

Module Utf8Facts.
Local Open Scope N_scope.

Lemma to_N_byte_of (c : N) : c < 256 -> Byte.to_N (Utf8.byte_of c) = c.
Proof.
  intros H. unfold Utf8.byte_of. rewrite N.mod_small by exact H.
  destruct (Byte.of_N c) eqn:E.
  - now apply Byte.to_of_N.
  - apply Byte.of_N_None_iff in E. lia.
Qed.

Lemma encode_ascii (c : N) (s : jsstring) :
  c < 0x80 -> Utf8.encode (c :: s) = Utf8.byte_of c :: Utf8.encode s.
Proof.
  intros H. cbn [Utf8.encode].
  assert (Hh : Utf8.is_high c = false).
  { unfold Utf8.is_high, Utf8.in_range.
    apply andb_false_iff. left. apply N.leb_gt. lia. }
  assert (Hl : Utf8.is_low c = false).
  { unfold Utf8.is_low, Utf8.in_range.
    apply andb_false_iff. left. apply N.leb_gt. lia. }
  rewrite Hh, Hl. unfold Utf8.encode_cp.
  apply N.ltb_lt in H. now rewrite H.
Qed.

Lemma decode_aux_ascii (fuel : nat) (b : N) (r : list N) :
  b < 0x80 ->
  Utf8.decode_aux (S fuel) (b :: r) = b :: Utf8.decode_aux fuel r.
Proof. intros H. apply N.ltb_lt in H. cbn [Utf8.decode_aux]. now rewrite H. Qed.

(** ASCII text survives being written and read back. *)
Lemma decode_encode_ascii (s : jsstring) :
  Forall (fun c => c < 0x80) s -> Utf8.decode (Utf8.encode s) = s.
Proof.
  induction 1 as [|c s Hc _ IH]; [reflexivity|].
  rewrite encode_ascii by exact Hc. unfold Utf8.decode in *.
  cbn [length map]. rewrite to_N_byte_of by lia.
  rewrite decode_aux_ascii by exact Hc. now rewrite IH.
Qed.

End Utf8Facts.

(** ** Writing a file and reading it, or another one, back *)

Module FsFacts.
Import Fs.

Lemma find_set_same (k : jsstring) (v : node) (es : list dirent) :
  find_entry k (set_entry k v es) = Some v.
Proof.
  induction es as [|[k' v'] es IH]; simpl.
  - now rewrite JsFacts.eqb_refl.
  - destruct (Js.eqb k' k) eqn:E; simpl; now rewrite E.
Qed.

Lemma find_set_other (k k' : jsstring) (v : node) (es : list dirent) :
  k <> k' -> find_entry k' (set_entry k v es) = find_entry k' es.
Proof.
  intros Hk. induction es as [|[k2 v2] es IH]; simpl.
  - destruct (Js.eqb k k') eqn:E; [|reflexivity].
    apply JsFacts.eqb_eq in E. contradiction.
  - destruct (Js.eqb k2 k) eqn:E; simpl.
    + apply JsFacts.eqb_eq in E. subst k2.
      destruct (Js.eqb k k') eqn:E2; [|reflexivity].
      apply JsFacts.eqb_eq in E2. contradiction.
    + now destruct (Js.eqb k2 k').
Qed.

(** What [existsSync], [statSync] and [readFileSync] can tell of a node:
    its kind, and the content of a file. *)
Definition same_shape (a b : option node) : Prop :=
  match a, b with
  | None, None => True
  | Some (File c), Some (File c') => c = c'
  | Some (Dir _), Some (Dir _) => True
  | _, _ => False
  end.

Lemma same_shape_refl (a : option node) : same_shape a a.
Proof. destruct a as [[c|es]|]; simpl; auto. Qed.

Lemma walk_under_file (c : list byte) (segs : list jsstring) :
  segs <> [] -> walk (File c) segs = None.
Proof. destruct segs; [congruence | reflexivity]. Qed.

Lemma write_file (c : list byte) (segs : list jsstring) (data : list byte)
    (n' : node) :
  write (File c) segs data = Ok n' -> False.
Proof. destruct segs as [|s [|s' rest]]; discriminate. Qed.

Lemma write_last (s : jsstring) (es : list dirent) (data : list byte)
    (n' : node) :
  write (Dir es) [s] data = Ok n' ->
  n' = Dir (set_entry s (File data) es)
  /\ forall es', find_entry s es <> Some (Dir es').
Proof.
  simpl. destruct (find_entry s es) as [[c|es']|]; split; congruence.
Qed.

Lemma write_inner (s s' : jsstring) (rest : list jsstring)
    (es : list dirent) (data : list byte) (n' : node) :
  write (Dir es) (s :: s' :: rest) data = Ok n' ->
  exists child child',
    find_entry s es = Some child
    /\ write child (s' :: rest) data = Ok child'
    /\ n' = Dir (set_entry s child' es).
Proof.
  assert (E : write (Dir es) (s :: s' :: rest) data
              = match find_entry s es with
                | Some child =>
                    match write child (s' :: rest) data with
                    | Ok child' => Ok (Dir (set_entry s child' es))
                    | Throw e => Throw e
                    end
                | None => Throw ENOENT
                end) by reflexivity.
  rewrite E. clear E.
  destruct (find_entry s es) as [child|]; [|intros H; discriminate H].
  destruct (write child (s' :: rest) data) as [child'|e] eqn:Ew;
    [|intros H; discriminate H].
  intros [= <-]. now exists child, child'.
Qed.

Lemma write_same (segs : list jsstring) :
  forall (n n' : node) (data : list byte),
    write n segs data = Ok n' -> walk n' segs = Some (File data).
Proof.
  induction segs as [|s rest IH]; intros n n' data H; [discriminate H|].
  destruct n as [c|es]; [now apply write_file in H|].
  destruct rest as [|s' rest'].
  - apply write_last in H. destruct H as [-> _].
    simpl. now rewrite find_set_same.
  - apply write_inner in H. destruct H as (child & child' & Ef & Ew & ->).
    cbn [walk]. rewrite find_set_same. now apply (IH child).
Qed.

(** Writing one file leaves the shape of every other path as it was. *)
Lemma write_frame (segs : list jsstring) :
  forall (n n' : node) (data : list byte) (segs' : list jsstring),
    write n segs data = Ok n' -> segs' <> segs ->
    same_shape (walk n' segs') (walk n segs').
Proof.
  induction segs as [|s rest IH]; intros n n' data segs' H Hne;
    [discriminate H|].
  destruct n as [c|es]; [now apply write_file in H|].
  assert (E : exists v, n' = Dir (set_entry s v es)).
  { destruct rest as [|s' rest'].
    - apply write_last in H. destruct H as [-> _]. now eexists.
    - apply write_inner in H. destruct H as (child & child' & _ & _ & ->).
      now eexists. }
  destruct segs' as [|s2 rest2]; [destruct E as [v ->]; exact I|].
  destruct (list_eq_dec N.eq_dec s s2) as [<-|Hs].
  - clear E. destruct rest as [|s' rest'].
    + apply write_last in H. destruct H as [-> Hnd].
      cbn [walk]. rewrite find_set_same.
      assert (Hr : rest2 <> []) by congruence.
      rewrite walk_under_file by exact Hr.
      destruct (find_entry s es) as [[c|es']|]; simpl.
      * now rewrite walk_under_file.
      * now elim (Hnd es').
      * exact I.
    + apply write_inner in H. destruct H as (child & child' & Ef & Ew & ->).
      cbn [walk]. rewrite find_set_same, Ef.
      apply (IH child child' data); [exact Ew | congruence].
  - destruct E as [v ->]. cbn [walk].
    rewrite find_set_other by exact Hs. apply same_shape_refl.
Qed.

(** Two paths that denote one file. *)
Definition same_file (fs : filesystem) (p q : jsstring) : Prop :=
  Path.resolve_segs (cwd fs) p = Path.resolve_segs (cwd fs) q.

Lemma writeFileSync_cwd (fs fs' : filesystem) (p : jsstring)
    (data : list byte) :
  writeFileSync fs p data = Ok fs' -> cwd fs' = cwd fs.
Proof.
  unfold writeFileSync. destruct p; [discriminate|].
  destruct (write _ _ _); [|discriminate]. now intros [= <-].
Qed.

Lemma lookup_written (fs fs' : filesystem) (p : jsstring) (data : list byte) :
  writeFileSync fs p data = Ok fs' -> lookup fs' p = Some (File data).
Proof.
  intros H. unfold writeFileSync in H. unfold lookup.
  destruct p as [|c p]; [discriminate|].
  destruct (write _ _ _) as [r|e] eqn:Ew; [|discriminate].
  injection H as <-. simpl. now apply write_same in Ew.
Qed.

Lemma lookup_frame (fs fs' : filesystem) (p q : jsstring) (data : list byte) :
  writeFileSync fs p data = Ok fs' -> ~ same_file fs q p ->
  same_shape (lookup fs' q) (lookup fs q).
Proof.
  intros H Hne. unfold writeFileSync in H. unfold lookup.
  destruct p as [|c p]; [discriminate|].
  destruct (write _ _ _) as [r|e] eqn:Ew; [|discriminate].
  injection H as <-. destruct q as [|d q]; [exact I|]. simpl.
  eapply write_frame; [exact Ew | exact Hne].
Qed.

Lemma same_shape_read (fs fs' : filesystem) (q : jsstring) :
  same_shape (lookup fs' q) (lookup fs q) ->
  readFileSync fs' q = readFileSync fs q
  /\ existsSync fs' q = existsSync fs q.
Proof.
  unfold readFileSync, existsSync.
  destruct (lookup fs' q) as [[c|es]|], (lookup fs q) as [[c'|es']|];
    simpl; intros H; try contradiction; subst; auto.
Qed.

End FsFacts.

(** ** Hash store and staleness *)

Module HashFacts.
Import FsFacts.

(** The marker file of a venv. *)
Definition marker (venvPath : jsstring) : jsstring :=
  Path.join [venvPath; Hash.HASH_FILENAME].

Lemma plain_ascii (s : jsstring) :
  Forall (fun c => MD5Facts.plain c = true) s ->
  Forall (fun c => (c < 0x80)%N) (s ++ str newline).
Proof.
  intros H. apply Forall_app. split.
  - eapply Forall_impl; [|exact H]. intros c Hc.
    apply andb_true_iff in Hc. now apply N.ltb_lt.
  - repeat constructor.
Qed.

Lemma plain_nospace (s : jsstring) :
  Forall (fun c => MD5Facts.plain c = true) s ->
  Forall (fun c => Js.is_space c = false) s.
Proof.
  apply Forall_impl. intros c Hc.
  apply andb_true_iff in Hc. now apply negb_true_iff.
Qed.

(** What was written with [writeHash] is what [readStoredHash] returns. *)
Lemma readStoredHash_written (fs fs1 : Fs.filesystem) (venvPath h : jsstring) :
  Forall (fun c => MD5Facts.plain c = true) h ->
  Hash.writeHash fs venvPath h = Ok fs1 ->
  Hash.readStoredHash fs1 venvPath = Ok (Some h).
Proof.
  intros Hh Hw. unfold Hash.writeHash in Hw.
  apply lookup_written in Hw.
  unfold Hash.readStoredHash, Fs.existsSync, Fs.readFileSync.
  rewrite Hw. simpl.
  rewrite Utf8Facts.decode_encode_ascii by now apply plain_ascii.
  now rewrite JsFacts.trim_line by now apply plain_nospace.
Qed.

Lemma readStoredHash_shape (fs fs' : Fs.filesystem) (venvPath : jsstring) :
  same_shape (Fs.lookup fs' (marker venvPath)) (Fs.lookup fs (marker venvPath)) ->
  Hash.readStoredHash fs' venvPath = Hash.readStoredHash fs venvPath.
Proof.
  intros H. apply same_shape_read in H. destruct H as [Hr He].
  unfold Hash.readStoredHash. fold (marker venvPath). now rewrite Hr, He.
Qed.

Lemma hashFile_shape (fs fs' : Fs.filesystem) (p : jsstring) :
  same_shape (Fs.lookup fs' p) (Fs.lookup fs p) ->
  Hash.hashFile fs' p = Hash.hashFile fs p.
Proof.
  intros H. apply same_shape_read in H. destruct H as [Hr _].
  unfold Hash.hashFile. now rewrite Hr.
Qed.

Lemma isVenvStale_shape (fs fs' : Fs.filesystem) (venvPath p : jsstring) :
  same_shape (Fs.lookup fs' (marker venvPath)) (Fs.lookup fs (marker venvPath)) ->
  same_shape (Fs.lookup fs' p) (Fs.lookup fs p) ->
  Hash.isVenvStale fs' venvPath p = Hash.isVenvStale fs venvPath p.
Proof.
  intros Hm Hp. unfold Hash.isVenvStale.
  now rewrite (readStoredHash_shape _ _ _ Hm), (hashFile_shape _ _ _ Hp).
Qed.

Lemma hashFile_read (fs : Fs.filesystem) (p : jsstring) (content : list byte) :
  Fs.readFileSync fs p = Ok content ->
  Hash.hashFile fs p = Ok (MD5.md5_hex content).
Proof. intros H. unfold Hash.hashFile. now rewrite H. Qed.

Lemma isVenvStale_stored (fs : Fs.filesystem) (venvPath p stored : jsstring)
    (content : list byte) :
  Hash.readStoredHash fs venvPath = Ok (Some stored) ->
  Fs.readFileSync fs p = Ok content ->
  Hash.isVenvStale fs venvPath p
  = Ok (negb (Js.eqb stored (MD5.md5_hex content))).
Proof.
  intros Hs Hr. unfold Hash.isVenvStale.
  now rewrite Hs, (hashFile_read _ _ _ Hr).
Qed.

(** C6 (amended): [hashFile] is deterministic: files with the same bytes,
    wherever they are, have the same hexadecimal digest; and it tells
    contents apart exactly as far as MD5 does: two files have different
    hexadecimal digests if and only if the 16-byte MD5 digests of their
    contents differ, so that different digests are different contents. *)
Theorem hashFile_deterministic (fs1 fs2 : Fs.filesystem) (p q : jsstring)
    (a b : list byte) :
  Fs.readFileSync fs1 p = Ok a ->
  Fs.readFileSync fs2 q = Ok b ->
  (a = b -> Hash.hashFile fs1 p = Hash.hashFile fs2 q)
  /\ (Hash.hashFile fs1 p <> Hash.hashFile fs2 q
      <-> MD5.digest a <> MD5.digest b)
  /\ (Hash.hashFile fs1 p <> Hash.hashFile fs2 q -> a <> b).
Proof.
  intros Ha Hb.
  rewrite (hashFile_read _ _ _ Ha), (hashFile_read _ _ _ Hb).
  assert (E : Ok (MD5.md5_hex a) = Ok (MD5.md5_hex b)
              <-> MD5.digest a = MD5.digest b).
  { rewrite <- MD5Facts.md5_hex_eq_iff. split; congruence. }
  repeat split.
  - congruence.
  - intros H D. apply H. now apply E.
  - intros H D. apply H. now apply E.
  - congruence.
Qed.

(** C1 (amended): with no marker file under the venv [isVenvStale] is
    true; with a marker and a readable manifest it is true exactly when
    the stored digest differs from the digest of the manifest's bytes; once
    [writeHash] has stored the manifest's digest (the marker then holds the
    digest and a newline) it is false, provided the manifest is not the
    marker file itself; and after the manifest is rewritten it is true
    exactly when the new content has another MD5 digest. *)
Theorem isVenvStale_spec (fs : Fs.filesystem) (venvPath manifest : jsstring) :
  (Fs.existsSync fs (marker venvPath) = false ->
   Hash.isVenvStale fs venvPath manifest = Ok true)
  /\ (forall stored content,
        Hash.readStoredHash fs venvPath = Ok (Some stored) ->
        Fs.readFileSync fs manifest = Ok content ->
        Hash.isVenvStale fs venvPath manifest
        = Ok (negb (Js.eqb stored (MD5.md5_hex content))))
  /\ (forall content digest fs1,
        ~ same_file fs manifest (marker venvPath) ->
        Fs.readFileSync fs manifest = Ok content ->
        Hash.hashFile fs manifest = Ok digest ->
        Hash.writeHash fs venvPath digest = Ok fs1 ->
        Fs.readFileSync fs1 (marker venvPath)
        = Ok (Utf8.encode (digest ++ str newline))
        /\ Hash.isVenvStale fs1 venvPath manifest = Ok false
        /\ forall content' fs2,
             Fs.writeFileSync fs1 manifest content' = Ok fs2 ->
             Hash.isVenvStale fs2 venvPath manifest
             = Ok (negb (Js.eqb (MD5.md5_hex content)
                                (MD5.md5_hex content')))).
Proof.
  split; [|split].
  - intros He. unfold Hash.isVenvStale, Hash.readStoredHash.
    fold (marker venvPath). now rewrite He.
  - intros stored content. apply isVenvStale_stored.
  - intros content digest fs1 Hne Hr Hh Hw.
    rewrite (hashFile_read _ _ _ Hr) in Hh. injection Hh as <-.
    pose proof (readStoredHash_written _ _ _ _
                  (MD5Facts.md5_hex_plain content) Hw) as Hs.
    unfold Hash.writeHash in Hw. fold (marker venvPath) in Hw.
    pose proof (writeFileSync_cwd _ _ _ _ Hw) as Hc.
    pose proof (lookup_frame _ _ _ _ _ Hw Hne) as Hf.
    apply same_shape_read in Hf. destruct Hf as [Hf _].
    split; [|split].
    + unfold Fs.readFileSync. now rewrite (lookup_written _ _ _ _ Hw).
    + rewrite (isVenvStale_stored _ _ manifest _ content Hs)
        by now rewrite Hf.
      now rewrite JsFacts.eqb_refl.
    + intros content' fs2 Hw2.
      assert (Hne2 : ~ same_file fs1 (marker venvPath) manifest).
      { unfold same_file in *. rewrite Hc. congruence. }
      pose proof (lookup_frame _ _ _ _ _ Hw2 Hne2) as Hf2.
      apply isVenvStale_stored.
      * now rewrite (readStoredHash_shape _ _ _ Hf2).
      * unfold Fs.readFileSync. now rewrite (lookup_written _ _ _ _ Hw2).
Qed.

End HashFacts.

(** ** The claims on the hash store, at concrete inputs *)

Module HashExamples.
Import Scenario.

Lemma collision_differs : collision1 <> collision2.
Proof.
  intros H. apply (f_equal (fun l => nth 19 l x00)) in H.
  vm_compute in H. discriminate H.
Qed.

(** C6, as stated, fails: the two files differ in content and
    [hashFile] gives them the same digest. *)
Lemma hashFile_collision :
  Fs.readFileSync twins (str "/a.txt") = Ok collision1
  /\ Fs.readFileSync twins (str "/b.txt") = Ok collision2
  /\ collision1 <> collision2
  /\ Hash.hashFile twins (str "/a.txt") = Hash.hashFile twins (str "/b.txt").
Proof.
  split; [vm_compute; reflexivity|].
  split; [vm_compute; reflexivity|].
  split; [exact collision_differs | vm_compute; reflexivity].
Qed.

Lemma hashFile_deterministic_witness :
  Fs.readFileSync pair (str "/a.txt") = Ok flask2
  /\ Fs.readFileSync pair (str "/b.txt") = Ok flask3
  /\ (Hash.hashFile pair (str "/a.txt") <> Hash.hashFile pair (str "/b.txt")
      <-> MD5.digest flask2 <> MD5.digest flask3).
Proof.
  split; [reflexivity | split; [reflexivity|]].
  apply (HashFacts.hashFile_deterministic pair pair (str "/a.txt")
           (str "/b.txt") flask2 flask3); reflexivity.
Defined.

(** The two files of the test do get different digests. *)
Example hashFile_test_pair :
  Hash.hashFile pair (str "/a.txt")
  = Ok (str "06c4d10d4a1758bae771ad4a1a3484a8")
  /\ Hash.hashFile pair (str "/b.txt")
     = Ok (str "2ae0c773ecb1620c2832a97ae15e7048").
Proof. split; vm_compute; reflexivity. Qed.

(** C1, as stated, fails: the marker is written from the manifest, the
    manifest's content then changes, and [isVenvStale] still returns
    false. *)
Lemma isVenvStale_misses_collision :
  let fs1 := hashed (project collision1) in
  let fs2 := rewritten fs1 collision2 in
  Hash.isVenvStale fs1 proj_venv proj_manifest = Ok false
  /\ Fs.readFileSync fs1 proj_manifest = Ok collision1
  /\ Fs.readFileSync fs2 proj_manifest = Ok collision2
  /\ collision1 <> collision2
  /\ Hash.isVenvStale fs2 proj_venv proj_manifest = Ok false.
Proof.
  split; [vm_compute; reflexivity|].
  split; [vm_compute; reflexivity|].
  split; [vm_compute; reflexivity|].
  split; [exact collision_differs | vm_compute; reflexivity].
Qed.

Lemma isVenvStale_spec_witness :
  let fs := project flask in
  Fs.existsSync fs (HashFacts.marker proj_venv) = false
  /\ Hash.isVenvStale fs proj_venv proj_manifest = Ok true
  /\ Hash.isVenvStale (hashed fs) proj_venv proj_manifest = Ok false
  /\ Hash.isVenvStale (rewritten (hashed fs) flask2) proj_venv proj_manifest
     = Ok true.
Proof.
  intros fs.
  destruct (HashFacts.isVenvStale_spec fs proj_venv proj_manifest)
    as (Hnone & _ & Hwritten).
  assert (He : Fs.existsSync fs (HashFacts.marker proj_venv) = false)
    by reflexivity.
  destruct (Hwritten flask (MD5.md5_hex flask) (hashed fs))
    as (_ & Hfresh & Hagain).
  - vm_compute. intros H. discriminate H.
  - reflexivity.
  - reflexivity.
  - vm_compute. reflexivity.
  - split; [exact He | split; [exact (Hnone He) | split; [exact Hfresh|]]].
    rewrite (Hagain flask2 (rewritten (hashed fs) flask2)).
    + vm_compute. reflexivity.
    + vm_compute. reflexivity.
Defined.

End HashExamples.

(** ** Package-manager detection *)

Module PackageManagerFacts.
Import PackageManager.

(** [pyproject.toml] is there and its text contains [needle]. *)
Definition pyproject_contains (fs : Fs.filesystem) (projectPath : jsstring)
    (needle : string) : bool :=
  match Fs.readFileSync fs (Path.join [projectPath; str "pyproject.toml"]) with
  | Ok content => Js.includes (Utf8.decode content) (str needle)
  | Throw _ => false
  end.

(** The decision order as the specification words it: the first rule
    that applies gives the manager. *)
Definition first_match (st : Config.settings) (fs : Fs.filesystem)
    (projectPath : jsstring) : jsstring :=
  if Fs.existsSync fs (Path.join [projectPath; str "uv.lock"]) then uv
  else if pyproject_contains fs projectPath "[tool.uv]" then uv
  else if pyproject_contains fs projectPath "[project]"
          && pyproject_contains fs projectPath "dependencies = [" then uv
  else if Fs.existsSync fs (Path.join [projectPath; str "requirements.txt"])
  then venv_pip
  else hd venv_pip (Config.preferredManagers st).

(** [pyproject.toml], when there is one, is a regular file. *)
Definition pyproject_is_file (fs : Fs.filesystem) (projectPath : jsstring)
  : Prop :=
  forall es,
    Fs.lookup fs (Path.join [projectPath; str "pyproject.toml"])
    <> Some (Fs.Dir es).

(** Where there is a [uv.lock], or [pyproject.toml] is not a directory,
    [detectPackageManager] takes the first rule that applies: a
    [uv.lock]; else [[tool.uv]] in [pyproject.toml]; else both [[project]]
    and [dependencies = [] in it; else a [requirements.txt], for the
    legacy manager; otherwise the first preferred manager, or the legacy
    one when there is no preference.  So a [pyproject.toml] without these
    markers next to a [requirements.txt] (and no lockfile) gives the legacy
    manager. *)
Theorem detectPackageManager_first_match (st : Config.settings)
    (fs : Fs.filesystem) (projectPath : jsstring) :
  Fs.existsSync fs (Path.join [projectPath; str "uv.lock"]) = true
  \/ pyproject_is_file fs projectPath ->
  detectPackageManager st fs projectPath = Ok (first_match st fs projectPath)
  /\ (Fs.existsSync fs (Path.join [projectPath; str "uv.lock"]) = false ->
      pyproject_contains fs projectPath "[tool.uv]" = false ->
      pyproject_contains fs projectPath "[project]"
      && pyproject_contains fs projectPath "dependencies = [" = false ->
      Fs.existsSync fs (Path.join [projectPath; str "requirements.txt"]) = true ->
      detectPackageManager st fs projectPath = Ok venv_pip)
  /\ (Config.preferredManagers st = [] ->
      first_match st fs projectPath = uv
      \/ first_match st fs projectPath = venv_pip).
Proof.
  intros Hfile.
  assert (Hp : Fs.existsSync fs (Path.join [projectPath; str "uv.lock"])
               = false ->
               pyproject_says_uv fs projectPath
               = Ok (pyproject_contains fs projectPath "[tool.uv]"
                     || pyproject_contains fs projectPath "[project]"
                        && pyproject_contains fs projectPath
                             "dependencies = [")).
  { intros Hlock. destruct Hfile as [Hfile|Hfile]; [congruence|].
    unfold pyproject_says_uv, pyproject_contains, Fs.existsSync,
      Fs.readFileSync.
    destruct (Fs.lookup fs (Path.join [projectPath; str "pyproject.toml"]))
      as [[content|es]|] eqn:Ep; cbn [rbind].
    - destruct (Js.includes (Utf8.decode content) (str "[tool.uv]"));
        [reflexivity|].
      now destruct (Js.includes (Utf8.decode content) (str "[project]")
                    && Js.includes (Utf8.decode content)
                         (str "dependencies = [")).
    - elim (Hfile es Ep).
    - reflexivity. }
  assert (E : detectPackageManager st fs projectPath
              = Ok (first_match st fs projectPath)).
  { unfold detectPackageManager, first_match.
    destruct (Fs.existsSync fs (Path.join [projectPath; str "uv.lock"]));
      [reflexivity|].
    rewrite Hp by reflexivity. cbn [rbind].
    destruct (pyproject_contains fs projectPath "[tool.uv]");
      [reflexivity|].
    destruct (pyproject_contains fs projectPath "[project]"
              && pyproject_contains fs projectPath "dependencies = [");
      [reflexivity|]. cbn [orb].
    destruct (Fs.existsSync fs
                (Path.join [projectPath; str "requirements.txt"]));
      [reflexivity|].
    now destruct (Config.preferredManagers st). }
  split; [exact E | split].
  - intros H1 H2 H3 H4. rewrite E. unfold first_match.
    now rewrite H1, H2, H3, H4.
  - intros Hnone. unfold first_match. rewrite Hnone.
    destruct (Fs.existsSync fs _); [now left|].
    destruct (pyproject_contains fs projectPath "[tool.uv]"); [now left|].
    destruct (_ && _); [now left|].
    destruct (Fs.existsSync fs _); now right.
Qed.

Lemma detectPackageManager_first_match_witness :
  pyproject_is_file Scenario.legacy (str "/ws/proj")
  /\ detectPackageManager Config.defaults Scenario.legacy (str "/ws/proj")
     = Ok venv_pip.
Proof.
  assert (Hfile : pyproject_is_file Scenario.legacy (str "/ws/proj")).
  { intros es H. vm_compute in H. discriminate H. }
  split; [exact Hfile|].
  destruct (detectPackageManager_first_match Config.defaults Scenario.legacy
              (str "/ws/proj") (or_intror Hfile)) as (_ & Hlegacy & _).
  apply Hlegacy; vm_compute; reflexivity.
Defined.

(** C4: without a [uv.lock], a [pyproject.toml] that is a directory
    passes [existsSync], and [readFileSync] then throws EISDIR: the
    detection does not go on to [requirements.txt] or to the preferred
    managers. *)
Theorem detectPackageManager_directory_throws (st : Config.settings)
    (fs : Fs.filesystem) (projectPath : jsstring) (es : list Fs.dirent) :
  Fs.existsSync fs (Path.join [projectPath; str "uv.lock"]) = false ->
  Fs.lookup fs (Path.join [projectPath; str "pyproject.toml"])
  = Some (Fs.Dir es) ->
  detectPackageManager st fs projectPath = Throw Fs.EISDIR.
Proof.
  intros Hlock Hdir.
  unfold detectPackageManager, pyproject_says_uv, Fs.existsSync,
    Fs.readFileSync in *.
  destruct (Fs.lookup fs (Path.join [projectPath; str "uv.lock"]));
    [discriminate Hlock|].
  rewrite Hdir. reflexivity.
Qed.

Lemma detectPackageManager_directory_throws_witness :
  Fs.existsSync Scenario.shadowed (str "/ws/proj/requirements.txt") = true
  /\ detectPackageManager Config.defaults Scenario.shadowed (str "/ws/proj")
     = Throw Fs.EISDIR.
Proof.
  split; [reflexivity|].
  apply (detectPackageManager_directory_throws Config.defaults
           Scenario.shadowed (str "/ws/proj") []); reflexivity.
Defined.

(** The tests of the detection, on the same trees. *)
Example detect_examples :
  let detect es :=
    detectPackageManager Config.defaults (Scenario.at_root es) (str "/") in
  detect [Scenario.file "uv.lock" []] = Ok uv
  /\ detect [Scenario.file "uv.lock" [];
             Scenario.file "requirements.txt" Scenario.flask] = Ok uv
  /\ detect [Scenario.file "requirements.txt" Scenario.flask] = Ok venv_pip
  /\ detect [] = Ok uv
  /\ detect [Scenario.dir "pyproject.toml" [];
             Scenario.file "requirements.txt" Scenario.flask]
     = Throw Fs.EISDIR.
Proof. repeat split; vm_compute; reflexivity. Qed.

End PackageManagerFacts.

(** ** Sorting *)


Section SortFacts.
Context {A : Type} (cmp : A -> A -> Z).

Lemma insert_sorted_perm (x : A) (l : list A) :
  Permutation (insert_sorted cmp x l) (x :: l).
Proof.
  induction l as [|y l IH]; simpl; [reflexivity|].
  destruct (cmp x y <=? 0)%Z; [reflexivity|].
  rewrite IH. apply perm_swap.
Qed.

Lemma sort_perm (l : list A) : Permutation (sort_with cmp l) l.
Proof.
  induction l as [|x l IH]; simpl; [reflexivity|].
  rewrite insert_sorted_perm. now rewrite IH.
Qed.

Lemma sort_In (l : list A) (x : A) : In x (sort_with cmp l) <-> In x l.
Proof.
  split; apply Permutation_in; [|symmetry]; apply sort_perm.
Qed.

(** For a comparator that orders any two elements one way or the other,
    consistently, the result is in order. *)
Hypothesis cmp_total : forall x y, (0 < cmp x y)%Z -> (cmp y x <= 0)%Z.
Hypothesis cmp_trans :
  forall x y z, (cmp x y <= 0)%Z -> (cmp y z <= 0)%Z -> (cmp x z <= 0)%Z.

Definition in_order (x y : A) : Prop := (cmp x y <= 0)%Z.

Lemma insert_sorted_ordered (x : A) (l : list A) :
  StronglySorted in_order l -> StronglySorted in_order (insert_sorted cmp x l).
Proof.
  induction 1 as [|y l Hl IH Hy]; simpl.
  - constructor; constructor.
  - destruct (cmp x y <=? 0)%Z eqn:E.
    + apply Z.leb_le in E. constructor; [now constructor|].
      constructor; [exact E|].
      eapply Forall_impl; [|exact Hy]. intros z Hz.
      now apply (cmp_trans x y z).
    + apply Z.leb_gt in E. constructor; [exact IH|].
      eapply Permutation_Forall; [symmetry; apply insert_sorted_perm|].
      constructor; [now apply cmp_total | exact Hy].
Qed.

Lemma sort_ordered (l : list A) : StronglySorted in_order (sort_with cmp l).
Proof.
  induction l as [|x l IH]; simpl; [constructor|].
  now apply insert_sorted_ordered.
Qed.

End SortFacts.

Lemma find_first {A : Type} (f : A -> bool) (l : list A) (x : A) :
  find f l = Some x ->
  exists before after,
    l = before ++ x :: after /\ f x = true
    /\ forall y, In y before -> f y = false.
Proof.
  induction l as [|y l IH]; simpl; [discriminate|].
  destruct (f y) eqn:E.
  - intros [= ->]. exists [], l. repeat split; [exact E|]. intros z [].
  - intros H. destruct (IH H) as (before & after & -> & Hx & Hb).
    exists (y :: before), after. repeat split; [exact Hx|].
    intros z [<-|Hz]; [exact E | now apply Hb].
Qed.

Lemma sorted_after {A : Type} (R : A -> A -> Prop) (before after : list A)
    (x : A) :
  StronglySorted R (before ++ x :: after) -> Forall (R x) after.
Proof.
  induction before as [|y before IH]; simpl; intros H.
  - now inversion H.
  - inversion H; subst. now apply IH.
Qed.

(** ** File to project *)

Module ProjectForFileFacts.
Import Venv.

(** [sp] is a proper path-prefix of [rel]: [rel] is [sp], a separator
    and a rest. *)
Definition proper_prefix (sp rel : jsstring) : Prop :=
  exists rest, rel = sp ++ str "/" ++ rest.

Lemma matches_iff (rel sp : jsstring) :
  matches Path.sep rel sp = true <-> proper_prefix sp rel.
Proof.
  unfold matches, proper_prefix.
  change Path.sep with (str "/"). rewrite orb_diag.
  rewrite JsFacts.startsWith_iff. split; intros [t Ht]; exists t;
    now rewrite Ht, <- ?app_assoc.
Qed.

Lemma by_length_desc_le (a b : jsstring) :
  (by_length_desc a b <= 0)%Z <-> length b <= length a.
Proof. unfold by_length_desc. lia. Qed.

Lemma same_length_prefix (a b ta tb : jsstring) :
  a ++ ta = b ++ tb -> length a = length b -> a = b.
Proof.
  revert b. induction a as [|c a IH]; intros [|d b] H L; simpl in *;
    try discriminate; [reflexivity|].
  injection H as -> H. f_equal. apply IH; [exact H | lia].
Qed.

(** On a POSIX host [getProjectForFile] returns the longest of the names
    that are proper path-prefixes of the file's path relative to the
    workspace root (no other such name is as long), and nothing when no
    name is such a prefix. *)
Theorem getProjectForFile_longest_prefix
    (cwd filePath workspaceRoot : jsstring) (names : list jsstring) :
  let rel := Path.relative cwd workspaceRoot filePath in
  match getProjectForFile cwd filePath workspaceRoot names with
  | Some sp =>
      In sp names /\ proper_prefix sp rel
      /\ forall sp', In sp' names -> proper_prefix sp' rel ->
                     sp' = sp \/ length sp' < length sp
  | None => forall sp', In sp' names -> ~ proper_prefix sp' rel
  end.
Proof.
  intros rel. unfold getProjectForFile, project_for. fold rel.
  destruct (find (matches Path.sep rel) (sort_with by_length_desc names))
    as [sp|] eqn:E.
  - destruct (find_first _ _ _ E) as (before & after & Hl & Hm & Hb).
    assert (Hin : forall x, In x names <-> In x (before ++ sp :: after)).
    { intros x. rewrite <- Hl. symmetry. apply sort_In. }
    split; [|split].
    + apply Hin, in_elt.
    + now apply matches_iff.
    + intros sp' Hsp' Hp'.
      assert (Hs : StronglySorted (in_order by_length_desc)
                     (before ++ sp :: after)).
      { rewrite <- Hl. apply sort_ordered.
        - intros x y. unfold by_length_desc. lia.
        - intros x y z. unfold by_length_desc. lia. }
      apply sorted_after in Hs. rewrite Forall_forall in Hs.
      apply Hin, in_app_or in Hsp'. destruct Hsp' as [Hbefore|[->|Hafter]].
      * apply Hb in Hbefore. apply matches_iff in Hp'. congruence.
      * now left.
      * apply Hs, by_length_desc_le in Hafter.
        destruct (Nat.eq_dec (length sp') (length sp)) as [L|L];
          [left | right; lia].
        apply matches_iff in Hm. destruct Hm as [t Ht].
        destruct Hp' as [t' Ht'].
        apply (same_length_prefix sp' sp (str "/" ++ t') (str "/" ++ t));
          congruence.
  - intros sp' Hsp' Hp'. apply matches_iff in Hp'.
    rewrite (find_none _ _ E sp') in Hp'; [discriminate|].
    now apply sort_In.
Qed.

(** The example of the specification, and a file under no project. *)
Example getProjectForFile_examples :
  getProjectForFile (str "/") (str "/root/mcp/weather/main.py") (str "/root")
    [str "mcp"; str "mcp/weather"] = Some (str "mcp/weather")
  /\ getProjectForFile (str "/") (str "/root/standalone.py") (str "/root")
       [str "proj"] = None.
Proof. split; vm_compute; reflexivity. Qed.

(** *** Other separators *)

(** What the test of the loop asks of a name, on any platform: [rel] is
    the name, then [path.sep] or "/", then a rest. *)
Definition prefix_with (sep sp rel : jsstring) : Prop :=
  (exists rest, rel = sp ++ sep ++ rest)
  \/ (exists rest, rel = sp ++ str "/" ++ rest).

Lemma matches_sep_iff (sep rel sp : jsstring) :
  matches sep rel sp = true <-> prefix_with sep sp rel.
Proof.
  unfold matches, prefix_with.
  rewrite orb_true_iff, !JsFacts.startsWith_iff.
  split; (intros [[t Ht]|[t Ht]]; [left | right]); exists t;
    now rewrite Ht, <- ?app_assoc.
Qed.

Lemma prefix_with_length (sep a b rel : jsstring) :
  prefix_with sep a rel -> prefix_with sep b rel -> length a = length b ->
  a = b.
Proof.
  intros [[ta Ha]|[ta Ha]] [[tb Hb]|[tb Hb]] L;
    eapply same_length_prefix; try exact L; rewrite <- Ha; exact Hb.
Qed.

(** Whatever [path.sep] is and whatever [path.relative] gave, the name
    returned is the longest of the names that [rel] starts with, followed
    by [path.sep] or by "/"; nothing is returned exactly when there is no
    such name. *)
Lemma project_for_longest (sep rel : jsstring) (names : list jsstring) :
  match project_for sep rel names with
  | Some sp =>
      In sp names /\ prefix_with sep sp rel
      /\ forall sp', In sp' names -> prefix_with sep sp' rel ->
                     sp' = sp \/ length sp' < length sp
  | None => forall sp', In sp' names -> ~ prefix_with sep sp' rel
  end.
Proof.
  unfold project_for.
  destruct (find (matches sep rel) (sort_with by_length_desc names))
    as [sp|] eqn:E.
  - destruct (find_first _ _ _ E) as (before & after & Hl & Hm & Hb).
    assert (Hin : forall x, In x names <-> In x (before ++ sp :: after)).
    { intros x. rewrite <- Hl. symmetry. apply sort_In. }
    apply matches_sep_iff in Hm.
    split; [apply Hin, in_elt | split; [exact Hm|]].
    intros sp' Hsp' Hp'.
    assert (Hs : StronglySorted (in_order by_length_desc)
                   (before ++ sp :: after)).
    { rewrite <- Hl. apply sort_ordered.
      - intros x y. unfold by_length_desc. lia.
      - intros x y z. unfold by_length_desc. lia. }
    apply sorted_after in Hs. rewrite Forall_forall in Hs.
    apply Hin, in_app_or in Hsp'. destruct Hsp' as [Hbefore|[->|Hafter]].
    + apply Hb in Hbefore. apply matches_sep_iff in Hp'. congruence.
    + now left.
    + apply Hs, by_length_desc_le in Hafter.
      destruct (Nat.eq_dec (length sp') (length sp)) as [L|L];
        [left | right; lia].
      exact (prefix_with_length sep sp' sp rel Hp' Hm L).
  - intros sp' Hsp' Hp'. apply matches_sep_iff in Hp'.
    rewrite (find_none _ _ E sp') in Hp'; [discriminate|].
    now apply sort_In.
Qed.

(** A name that is returned starts [rel]; so where [path.relative] gives
    a path without "/", as [path.win32.relative] does, no name with a "/"
    in it is returned. *)
Lemma project_for_slash_free (sep rel sp : jsstring)
    (names : list jsstring) :
  ~ In Path.slash rel ->
  project_for sep rel names = Some sp ->
  ~ In Path.slash sp.
Proof.
  intros Hrel H Hsp.
  pose proof (project_for_longest sep rel names) as Hl. rewrite H in Hl.
  destruct Hl as (_ & [[t Ht]|[t Ht]] & _); apply Hrel; rewrite Ht;
    apply in_or_app; now left.
Qed.

(** C7: on Windows [path.sep] is a backslash and [path.relative] gives
    backslashes, while the names of discovery are joined with "/" on
    every platform.  For the file [C:\root\mcp\weather\main.py] under
    the root [C:\root], [rel] is [mcp\weather\main.py]: the name
    "mcp/weather" passes neither test, and the code returns the ancestor
    "mcp", or nothing when the nested project is the only one. *)
Theorem getProjectForFile_win32_nested :
  let rel :=
    Js.join Path.win32_sep [str "mcp"; str "weather"; str "main.py"] in
  project_for Path.win32_sep rel [str "mcp"; str "mcp/weather"]
  = Some (str "mcp")
  /\ project_for Path.win32_sep rel [str "mcp/weather"] = None.
Proof. split; vm_compute; reflexivity. Qed.

End ProjectForFileFacts.

(** ** Venv locator *)

Module VenvFacts.
Import Venv.

Lemma dropSlashes_length (s : jsstring) :
  length (Path.dropSlashes s) <= length s.
Proof.
  induction s as [|c s IH]; simpl; [lia|].
  destruct (N.eqb c Path.slash); simpl; lia.
Qed.

Lemma dropName_length (s : jsstring) : length (Path.dropName s) <= length s.
Proof.
  induction s as [|c s IH]; simpl; [lia|].
  destruct (N.eqb c Path.slash); simpl; lia.
Qed.

(** After the trailing slashes the scan is at a name, and passes at
    least one code unit of it. *)
Lemma dropName_dropSlashes_length (s : jsstring) :
  Path.dropName (Path.dropSlashes s) = []
  \/ length (Path.dropName (Path.dropSlashes s)) < length s.
Proof.
  induction s as [|c s IH]; simpl; [now left|].
  destruct (N.eqb c Path.slash) eqn:E.
  - destruct IH as [IH|IH]; [now left | right; lia].
  - right. simpl. rewrite E. pose proof (dropName_length s). lia.
Qed.

(** [dirname] shortens every absolute path but "/". *)
Lemma dirname_shorter (p : jsstring) :
  Path.isAbsolute p = true -> p <> Path.sep ->
  length (Path.dirname p) < length p.
Proof.
  destruct p as [|c rest]; [discriminate|]. simpl. intros Hc Hne.
  rewrite Hc.
  assert (Hrest : rest <> []).
  { intros ->. apply N.eqb_eq in Hc. subst c. now apply Hne. }
  destruct (dropName_dropSlashes_length (rev rest)) as [E|L].
  - rewrite E. simpl. destruct rest; [contradiction | simpl; lia].
  - rewrite length_rev in L.
    destruct (Path.dropName (Path.dropSlashes (rev rest))) as [|x before];
      [destruct rest; [contradiction | simpl; lia]|].
    simpl in L. destruct before as [|y before]; simpl in *.
    + lia.
    + rewrite length_app, length_rev. simpl. lia.
Qed.

(** The loop ends before its fuel does, for an absolute root. *)
Lemma walk_up_ends (fs : Fs.filesystem) (root : jsstring) :
  Path.isAbsolute root = true ->
  forall (fuel : nat) (current : jsstring), length current < fuel ->
    walk_up fuel fs root current <> None.
Proof.
  intros Hroot. induction fuel as [|fuel IH]; intros current Hlen; [lia|].
  cbn [walk_up]. cbv zeta.
  destruct (Js.startsWith current root) eqn:Es; cbv iota; [|discriminate].
  assert (Hstep : Js.eqb current root = false ->
                  walk_up fuel fs root (Path.dirname current) <> None).
  { intros Ee. apply IH.
    assert (Hs : length (Path.dirname current) < length current); [|lia].
    apply JsFacts.startsWith_iff in Es. destruct Es as [t ->].
    apply JsFacts.eqb_neq in Ee.
    destruct root as [|r0 root]; [discriminate|].
    apply dirname_shorter; [exact Hroot|].
    intros E. apply Ee. simpl in E. injection E as _ E.
    apply app_eq_nil in E. destruct E as [-> ->]. reflexivity. }
  destruct (Fs.lookup fs _) as [[c|es]|]; cbv iota; try discriminate;
    (destruct (Js.eqb current root) eqn:Ee; cbv iota;
     [discriminate | now apply Hstep]).
Qed.

Lemma resolve_absolute (cwd p : jsstring) :
  Path.isAbsolute (Path.resolve cwd p) = true.
Proof. reflexivity. Qed.

(** [findVenvForFile] returns or throws what [statSync] throws: the loop
    always ends. *)
Lemma findVenvForFile_ends (fs : Fs.filesystem)
    (filePath workspaceRoot : jsstring) :
  findVenvForFile fs filePath workspaceRoot <> Throw unreachable.
Proof.
  unfold findVenvForFile, Fs.statSync.
  destruct (Fs.lookup fs filePath) as [st|]; cbn [rbind]; [|discriminate].
  destruct (walk_up _ fs _ _) as [r|] eqn:E; cbv iota; [discriminate|].
  exfalso. revert E. apply walk_up_ends; [apply resolve_absolute | lia].
Qed.

(** C8, where the code departs from it: for the workspace root [/ws] and
    a file in the neighbouring directory [/ws2], which is outside the
    subtree of the root (the relative path starts with ".."), the walk
    does not return absent: it returns the venv of [/ws2]. *)
Theorem findVenvForFile_leaves_workspace :
  Path.relative (str "/") (str "/ws") (str "/ws2/app.py")
  = str "../ws2/app.py"
  /\ findVenvForFile Scenario.neighbours (str "/ws2/app.py") (str "/ws")
     = Ok (Some (str "/ws2/.venv")).
Proof. split; vm_compute; reflexivity. Qed.

(** Inside the workspace the walk finds nothing here, as it should. *)
Example findVenvForFile_inside :
  findVenvForFile Scenario.neighbours (str "/ws/proj/app.py") (str "/ws")
  = Ok None.
Proof. vm_compute. reflexivity. Qed.

(** C9, where the code departs from it: on a path that does not exist
    [findVenvForFile] throws, and so does [isVenvStale] on a manifest that
    does not exist when the venv has a stored hash; the other lookups of
    missing things return nothing. *)
Theorem missing_file_throws :
  let fs := Scenario.hashed (Scenario.project Scenario.flask) in
  Fs.existsSync fs (str "/ws/proj/missing.py") = false
  /\ findVenvForFile fs (str "/ws/proj/missing.py") (str "/ws")
     = Throw Fs.ENOENT
  /\ Fs.existsSync fs (str "/ws/proj/requirements-dev.txt") = false
  /\ Hash.isVenvStale fs Scenario.proj_venv
       (str "/ws/proj/requirements-dev.txt") = Throw Fs.ENOENT
  /\ Hash.readStoredHash fs (str "/ws/none/.venv") = Ok None
  /\ Hash.findRequirementsFile fs (str "/ws/none") = None
  /\ isVenvValid fs (str "/ws/none/.venv") = false.
Proof. repeat split; vm_compute; reflexivity. Qed.

End VenvFacts.

(** ** Joining segments with "/" *)

Module SegFacts.

Definition slash_free (k : jsstring) : Prop := ~ In Path.slash k.

(** A piece of a path: not empty, and no "/" inside. *)
Definition piece (k : jsstring) : Prop := k <> [] /\ slash_free k.

Definition pieces (l : list jsstring) : Prop := Forall piece l.

(** What a directory entry can be called: not the empty name, not "."
    nor "..", and no "/" inside. *)
Definition valid_name (k : jsstring) : bool :=
  negb (Js.eqb k []) && negb (existsb (N.eqb Path.slash) k)
  && negb (Js.eqb k Path.dot) && negb (Js.eqb k Path.dotdot).

Lemma slash_free_iff (k : jsstring) :
  existsb (N.eqb Path.slash) k = false <-> slash_free k.
Proof.
  unfold slash_free. split.
  - intros H Hin. assert (E : existsb (N.eqb Path.slash) k = true).
    { apply existsb_exists. exists Path.slash. split; [exact Hin|].
      apply N.eqb_refl. }
    congruence.
  - intros H. destruct (existsb _ k) eqn:E; [|reflexivity].
    apply existsb_exists in E. destruct E as (c & Hc & Ec).
    apply N.eqb_eq in Ec. subst c. contradiction.
Qed.

Lemma valid_name_spec (k : jsstring) : valid_name k = true -> piece k.
Proof.
  unfold valid_name, piece.
  rewrite !andb_true_iff, !negb_true_iff, JsFacts.eqb_neq, slash_free_iff.
  tauto.
Qed.

Definition valid (segs : list jsstring) : Prop :=
  Forall (fun k => valid_name k = true) segs.

Lemma valid_pieces (l : list jsstring) : valid l -> pieces l.
Proof. apply Forall_impl. exact valid_name_spec. Qed.

(** Two texts that agree cut at their first "/" in the same place. *)
Lemma cut_at_slash (x y u v : jsstring) :
  slash_free x -> slash_free y ->
  x ++ Path.slash :: u = y ++ Path.slash :: v -> x = y /\ u = v.
Proof.
  unfold slash_free. revert y.
  induction x as [|c x IH]; intros [|d y] Hx Hy E; simpl in *.
  - injection E as ->. auto.
  - injection E as <- _. elim Hy. now left.
  - injection E as -> _. elim Hx. now left.
  - injection E as -> E. destruct (IH y) as [-> ->]; auto.
Qed.

Lemma no_slash_inside (x y u : jsstring) :
  slash_free y -> x ++ Path.slash :: u = y -> False.
Proof.
  intros Hy E. apply Hy. rewrite <- E. apply in_elt.
Qed.

Lemma join_cons2 (x y : jsstring) (l : list jsstring) :
  Js.join Path.sep (x :: y :: l)
  = x ++ Path.slash :: Js.join Path.sep (y :: l).
Proof. reflexivity. Qed.

Lemma join_snoc (l : list jsstring) (k : jsstring) :
  l <> [] ->
  Js.join Path.sep (l ++ [k]) = Js.join Path.sep l ++ Path.slash :: k.
Proof.
  induction l as [|x l IH]; [congruence|]. intros _.
  destruct l as [|y l]; [reflexivity|].
  change ((x :: y :: l) ++ [k]) with (x :: y :: (l ++ [k])).
  rewrite !join_cons2. change (y :: l ++ [k]) with ((y :: l) ++ [k]).
  rewrite IH by discriminate. now rewrite <- app_assoc.
Qed.

Lemma join_nonempty (l : list jsstring) :
  pieces l -> l <> [] -> Js.join Path.sep l <> [].
Proof.
  intros Hv Hl. destruct l as [|x l]; [congruence|].
  inversion Hv as [|? ? [Hx _] _]; subst.
  destruct l; [exact Hx|]. rewrite join_cons2.
  destruct x; [congruence | discriminate].
Qed.

Lemma join_single (x : jsstring) : Js.join Path.sep [x] = x.
Proof. reflexivity. Qed.

Lemma app_slash_nonempty (u t : jsstring) : [] = u ++ Path.slash :: t -> False.
Proof. destruct u; discriminate. Qed.

(** A joined path followed by "/" starts another joined path only when
    its segments start the other's. *)
Lemma join_prefix (a : list jsstring) :
  forall (b : list jsstring) (t : jsstring),
    pieces a -> pieces b -> a <> [] ->
    Js.join Path.sep b = Js.join Path.sep a ++ Path.slash :: t ->
    exists rest, b = a ++ rest /\ rest <> [].
Proof.
  induction a as [|x a IH]; intros b t Ha Hb Hne E; [congruence|].
  inversion Ha as [|? ? [_ Hx] Ha']; subst.
  destruct b as [|y b]; [now apply app_slash_nonempty in E|].
  inversion Hb as [|? ? [_ Hy] Hb']; subst.
  destruct a as [|x' a].
  - rewrite (join_single x) in E. destruct b as [|y' b].
    + rewrite join_single in E. symmetry in E.
      now apply no_slash_inside in E.
    + rewrite join_cons2 in E.
      apply cut_at_slash in E; auto. destruct E as [-> _].
      exists (y' :: b). split; [reflexivity | discriminate].
  - rewrite (join_cons2 x) in E. rewrite <- app_assoc in E.
    rewrite <- app_comm_cons in E. destruct b as [|y' b].
    + rewrite join_single in E. symmetry in E.
      now apply no_slash_inside in E.
    + rewrite join_cons2 in E.
      apply cut_at_slash in E; auto. destruct E as [-> E].
      destruct (IH (y' :: b) t Ha' Hb') as (rest & Er & Hr);
        [discriminate | exact E |].
      exists rest. split; [now rewrite Er | exact Hr].
Qed.


(** A path joined from pieces is relative. *)
Lemma join_relative (l : list jsstring) :
  pieces l -> Path.isAbsolute (Js.join Path.sep l) = false.
Proof.
  intros Hl. destruct l as [|x l]; [reflexivity|].
  inversion Hl as [|? ? [Hne Hx] _]; subst.
  destruct x as [|c x]; [congruence|].
  assert (Ec : N.eqb c Path.slash = false).
  { destruct (N.eqb c Path.slash) eqn:E; [|reflexivity].
    apply N.eqb_eq in E. elim Hx. now left. }
  destruct l; exact Ec.
Qed.

End SegFacts.

(** ** Paths and the nodes they name *)

Module PathFacts.
Import SegFacts.

Lemma split_nonempty (s : jsstring) : Js.split Path.slash s <> [].
Proof.
  destruct s as [|d s]; cbn [Js.split]; [discriminate|].
  destruct (N.eqb Path.slash d); [discriminate|].
  destruct (Js.split Path.slash s); discriminate.
Qed.

(** Splitting at "/" goes through a "/". *)
Lemma split_app_slash (a b : jsstring) :
  Js.split Path.slash (a ++ Path.slash :: b)
  = Js.split Path.slash a ++ Js.split Path.slash b.
Proof.
  induction a as [|c a IH]; [reflexivity|].
  cbn [app Js.split]. rewrite IH.
  destruct (N.eqb Path.slash c); [reflexivity|].
  pose proof (split_nonempty a) as Hne.
  destruct (Js.split Path.slash a); [congruence | reflexivity].
Qed.

Lemma split_slash_free (k : jsstring) :
  slash_free k -> Js.split Path.slash k = [k].
Proof.
  unfold slash_free. induction k as [|c k IH]; intros H; [reflexivity|].
  cbn [Js.split]. destruct (N.eqb Path.slash c) eqn:E.
  - apply N.eqb_eq in E. elim H. now left.
  - rewrite IH; [reflexivity|]. intros Hin. apply H. now right.
Qed.

Lemma split_slash_free_pieces (s : jsstring) :
  Forall slash_free (Js.split Path.slash s).
Proof.
  induction s as [|d s IH]; cbn [Js.split].
  - repeat constructor. intros [].
  - destruct (N.eqb Path.slash d) eqn:E.
    + constructor; [intros []|exact IH].
    + destruct (Js.split Path.slash s) as [|p ps]; inversion IH; subst.
      * repeat constructor. intros [Hd|[]].
        now rewrite Hd, N.eqb_refl in E.
      * constructor; [|assumption].
        intros [Hd|Hin]; [now rewrite Hd, N.eqb_refl in E | contradiction].
Qed.

Lemma split_join (l : list jsstring) :
  pieces l -> l <> [] -> Js.split Path.slash (Js.join Path.sep l) = l.
Proof.
  induction l as [|x l IH]; intros Hl Hne; [congruence|].
  inversion Hl as [|? ? [_ Hx] Hl']; subst.
  destruct l as [|y l]; [now apply split_slash_free|].
  rewrite join_cons2, split_app_slash, split_slash_free by exact Hx.
  rewrite IH; [reflexivity | exact Hl' | discriminate].
Qed.

(** *** [norm_segs], one segment at a time *)

(** A segment that [norm_segs] does not drop. *)
Definition kept (k : jsstring) : Prop :=
  Js.eqb k [] || Js.eqb k Path.dot = false.

Lemma norm_drop (allow : bool) (x : jsstring) (acc r : list jsstring) :
  Js.eqb x [] || Js.eqb x Path.dot = true ->
  Path.norm_segs allow acc (x :: r) = Path.norm_segs allow acc r.
Proof. intros H. cbn [Path.norm_segs]. now rewrite H. Qed.

Lemma norm_push (allow : bool) (x : jsstring) (acc r : list jsstring) :
  kept x -> Js.eqb x Path.dotdot = false ->
  Path.norm_segs allow acc (x :: r) = Path.norm_segs allow (x :: acc) r.
Proof. intros H1 H2. cbn [Path.norm_segs]. now rewrite H1, H2. Qed.

Lemma norm_up (allow : bool) (last : jsstring) (acc r : list jsstring) :
  Js.eqb last Path.dotdot = false ->
  Path.norm_segs allow (last :: acc) (Path.dotdot :: r)
  = Path.norm_segs allow acc r.
Proof.
  intros H.
  change (Path.norm_segs allow (last :: acc) (Path.dotdot :: r))
    with (if Js.eqb last Path.dotdot
          then Path.norm_segs allow
                 (if allow then Path.dotdot :: last :: acc else last :: acc) r
          else Path.norm_segs allow acc r).
  now rewrite H.
Qed.

Lemma valid_name_kept (k : jsstring) :
  valid_name k = true -> kept k /\ Js.eqb k Path.dotdot = false.
Proof.
  unfold valid_name, kept. rewrite !andb_true_iff, !negb_true_iff.
  intros [[[-> _] ->] ->]. auto.
Qed.

Lemma kept_dotdot : kept Path.dotdot.
Proof. reflexivity. Qed.

Lemma slash_free_dotdot : slash_free Path.dotdot.
Proof. intros [H|[H|[]]]; discriminate H. Qed.

(** Names go through [norm_segs] as they are. *)
Lemma norm_segs_names (allow : bool) (ks : list jsstring) :
  valid ks -> forall acc, Path.norm_segs allow acc ks = rev acc ++ ks.
Proof.
  induction 1 as [|k ks Hk _ IH]; intros acc.
  - cbn [Path.norm_segs]. now rewrite app_nil_r.
  - destruct (valid_name_kept k Hk) as [H1 H2].
    rewrite norm_push, IH by assumption. cbn [rev].
    now rewrite <- app_assoc.
Qed.

Lemma norm_segs_app (allow : bool) (xs ks : list jsstring) :
  valid ks ->
  forall acc, Path.norm_segs allow acc (xs ++ ks)
              = Path.norm_segs allow acc xs ++ ks.
Proof.
  intros Hks. induction xs as [|x xs IH]; intros acc.
  - cbn [app Path.norm_segs]. now apply norm_segs_names.
  - cbn [app Path.norm_segs].
    destruct (Js.eqb x [] || Js.eqb x Path.dot); [apply IH|].
    destruct (Js.eqb x Path.dotdot); [|apply IH].
    destruct acc as [|last acc]; [apply IH|].
    destruct (Js.eqb last Path.dotdot); apply IH.
Qed.

(** Normalising a path in two parts. *)
Lemma norm_segs_app_l (allow : bool) (xs ys : list jsstring) :
  forall acc, Path.norm_segs allow acc (xs ++ ys)
              = Path.norm_segs allow (rev (Path.norm_segs allow acc xs)) ys.
Proof.
  induction xs as [|x xs IH]; intros acc.
  - cbn [app Path.norm_segs]. now rewrite rev_involutive.
  - cbn [app Path.norm_segs].
    destruct (Js.eqb x [] || Js.eqb x Path.dot); [apply IH|].
    destruct (Js.eqb x Path.dotdot); [|apply IH].
    destruct acc as [|last acc]; [apply IH|].
    destruct (Js.eqb last Path.dotdot); apply IH.
Qed.

Lemma norm_segs_kept (allow : bool) (xs : list jsstring) :
  forall acc, Forall kept acc -> Forall kept (Path.norm_segs allow acc xs).
Proof.
  induction xs as [|x xs IH]; intros acc Hacc; cbn [Path.norm_segs].
  - now apply Forall_rev.
  - destruct (Js.eqb x [] || Js.eqb x Path.dot) eqn:E1; [now apply IH|].
    destruct (Js.eqb x Path.dotdot) eqn:E2; [|apply IH; now constructor].
    destruct acc as [|last acc].
    + apply IH. destruct allow; repeat constructor.
    + inversion Hacc; subst. destruct (Js.eqb last Path.dotdot);
        [|now apply IH].
      apply IH. destruct allow; [constructor|]; auto using kept_dotdot.
Qed.

Lemma kept_piece (k : jsstring) : kept k -> slash_free k -> piece k.
Proof.
  unfold kept. intros Hk Hs. apply orb_false_iff in Hk. destruct Hk as [Hk _].
  split; [now apply JsFacts.eqb_neq | exact Hs].
Qed.

Lemma norm_segs_pieces (allow : bool) (xs : list jsstring) :
  Forall slash_free xs ->
  forall acc, pieces acc -> pieces (Path.norm_segs allow acc xs).
Proof.
  induction 1 as [|x xs Hx _ IH]; intros acc Hacc; cbn [Path.norm_segs].
  - now apply Forall_rev.
  - destruct (Js.eqb x [] || Js.eqb x Path.dot) eqn:E1; [now apply IH|].
    assert (Hp : piece x) by now apply kept_piece.
    assert (Hdd : piece Path.dotdot)
      by (split; [discriminate | apply slash_free_dotdot]).
    destruct (Js.eqb x Path.dotdot) eqn:E2; [|apply IH; now constructor].
    destruct acc as [|last acc].
    + apply IH. destruct allow; repeat constructor; apply Hdd.
    + inversion Hacc; subst. destruct (Js.eqb last Path.dotdot);
        [|now apply IH].
      apply IH. destruct allow; [constructor|]; auto.
Qed.

(** What [norm_segs] leaves when it may not go above the root are
    names. *)
Lemma norm_segs_valid (xs : list jsstring) :
  Forall slash_free xs ->
  forall acc, valid acc -> valid (Path.norm_segs false acc xs).
Proof.
  induction 1 as [|x xs Hx _ IH]; intros acc Hacc; cbn [Path.norm_segs].
  - now apply Forall_rev.
  - destruct (Js.eqb x [] || Js.eqb x Path.dot) eqn:E1; [now apply IH|].
    destruct (Js.eqb x Path.dotdot) eqn:E2.
    + destruct acc as [|last acc]; [now apply IH|].
      inversion Hacc; subst.
      destruct (Js.eqb last Path.dotdot); now apply IH.
    + apply IH. constructor; [|exact Hacc].
      apply orb_false_iff in E1. destruct E1 as [E0 E1].
      unfold valid_name. rewrite E0, E1, E2.
      apply slash_free_iff in Hx. now rewrite Hx.
Qed.

(** Normalising the end of a path first, going above its start where
    needed, does not change what the whole path normalises to. *)
Lemma norm_segs_twice (allow : bool) (xs : list jsstring) :
  forall acc2 acc, Forall kept acc2 ->
    Path.norm_segs allow acc (Path.norm_segs true acc2 xs)
    = Path.norm_segs allow acc (rev acc2 ++ xs).
Proof.
  induction xs as [|x xs IH]; intros acc2 acc Hk.
  - cbn [Path.norm_segs]. now rewrite app_nil_r.
  - destruct (Js.eqb x [] || Js.eqb x Path.dot) eqn:E1.
    { rewrite norm_drop, IH by assumption.
      rewrite !norm_segs_app_l. now rewrite norm_drop. }
    destruct (Js.eqb x Path.dotdot) eqn:E2.
    2:{ rewrite norm_push, IH by (assumption || now constructor).
        cbn [rev]. now rewrite <- app_assoc. }
    apply JsFacts.eqb_eq in E2. subst x.
    destruct acc2 as [|last acc2].
    { change (Path.norm_segs true [] (Path.dotdot :: xs))
        with (Path.norm_segs true [Path.dotdot] xs).
      rewrite IH by (repeat constructor). reflexivity. }
    inversion Hk as [|? ? Hlast Hk']; subst.
    destruct (Js.eqb last Path.dotdot) eqn:E3.
    + change (Path.norm_segs true (last :: acc2) (Path.dotdot :: xs))
        with (if Js.eqb last Path.dotdot
              then Path.norm_segs true (Path.dotdot :: last :: acc2) xs
              else Path.norm_segs true acc2 xs).
      rewrite E3, IH by (constructor; auto using kept_dotdot).
      cbn [rev]. now rewrite <- !app_assoc.
    + rewrite norm_up, IH by assumption. cbn [rev].
      rewrite <- app_assoc. cbn [app]. rewrite !norm_segs_app_l.
      now rewrite norm_push, norm_up by assumption.
Qed.

(** *** A path as its anchor and its segments *)

(** The segments of [path.normalize(p)]. *)
Definition segs_of (p : jsstring) : list jsstring :=
  Path.norm_segs (negb (Path.isAbsolute p)) [] (Js.split Path.slash p).

(** What [path.normalize(p)] starts with: "/" for an absolute path. *)
Definition anchor (p : jsstring) : jsstring :=
  if Path.isAbsolute p then Path.sep else [].

Lemma segs_of_pieces (p : jsstring) : pieces (segs_of p).
Proof.
  apply norm_segs_pieces; [apply split_slash_free_pieces | constructor].
Qed.

Lemma segs_of_fixed (p : jsstring) :
  Path.norm_segs (negb (Path.isAbsolute p)) [] (segs_of p) = segs_of p.
Proof.
  unfold segs_of. destruct (Path.isAbsolute p); cbn [negb].
  - apply (norm_segs_names false).
    apply norm_segs_valid; [apply split_slash_free_pieces | constructor].
  - now rewrite norm_segs_twice by constructor.
Qed.

Lemma normalize_eq (p : jsstring) :
  p <> [] ->
  Path.normalize p
  = let abs := Path.isAbsolute p in
    let trailing := Js.endsWith p Path.sep in
    let q := Path.normalizeString p (negb abs) in
    match q with
    | [] => if abs then Path.sep else if trailing then str "./" else Path.dot
    | _ =>
        let q' := if trailing then q ++ Path.sep else q in
        if abs then Path.sep ++ q' else q'
    end.
Proof. destruct p; [congruence | reflexivity]. Qed.

Lemma isAbsolute_app (p q : jsstring) :
  p <> [] -> Path.isAbsolute (p ++ q) = Path.isAbsolute p.
Proof. destruct p; [congruence | reflexivity]. Qed.

Lemma endsWith_sep_name (p k : jsstring) :
  valid_name k = true -> Js.endsWith (p ++ Path.slash :: k) Path.sep = false.
Proof.
  intros Hk. apply valid_name_spec in Hk. destruct Hk as [Hne Hfree].
  unfold Js.endsWith. rewrite rev_app_distr. cbn [rev].
  destruct (rev k) as [|c r] eqn:E.
  - apply (f_equal (@rev N)) in E. rewrite rev_involutive in E. now elim Hne.
  - assert (Hc : In c k) by (apply in_rev; rewrite E; now left).
    destruct (N.eqb Path.slash c) eqn:Ec.
    + apply N.eqb_eq in Ec. subst c. now elim Hfree.
    + unfold Path.sep. cbn [rev app Js.startsWith]. now rewrite Ec.
Qed.

(** [path.join(base, k)] for a name [k]: the segments of [base], then
    [k]. *)
Lemma join_child (base k : jsstring) :
  base <> [] -> valid_name k = true ->
  Path.join [base; k]
  = anchor base ++ Js.join Path.sep (segs_of base ++ [k]).
Proof.
  intros Hbase Hk.
  pose proof (valid_name_spec k Hk) as [Hne Hfree].
  assert (Ej : Path.join [base; k] = Path.normalize (base ++ Path.slash :: k)).
  { destruct base as [|c base]; [congruence|].
    destruct k as [|d k]; [congruence | reflexivity]. }
  rewrite Ej, normalize_eq by (now destruct base). cbv zeta.
  rewrite isAbsolute_app, endsWith_sep_name by assumption.
  unfold Path.normalizeString.
  rewrite split_app_slash, (split_slash_free k) by exact Hfree.
  rewrite norm_segs_app by (now constructor).
  fold (segs_of base). unfold anchor.
  destruct (Js.join Path.sep (segs_of base ++ [k])) eqn:E;
    [|now destruct (Path.isAbsolute base)].
  apply join_nonempty in E; [contradiction| |].
  - apply Forall_app. split; [apply segs_of_pieces|].
    constructor; [now split | constructor].
  - now destruct (segs_of base).
Qed.

Lemma child_pieces (base k : jsstring) :
  valid_name k = true -> pieces (segs_of base ++ [k]).
Proof.
  intros Hk. apply Forall_app. split; [apply segs_of_pieces|].
  constructor; [now apply valid_name_spec | constructor].
Qed.

Lemma join_child_absolute (base k : jsstring) :
  base <> [] -> valid_name k = true ->
  Path.isAbsolute (Path.join [base; k]) = Path.isAbsolute base.
Proof.
  intros Hbase Hk. rewrite join_child by assumption. unfold anchor.
  destruct (Path.isAbsolute base); [reflexivity|].
  apply join_relative. now apply child_pieces.
Qed.

Lemma join_child_nonempty (base k : jsstring) :
  base <> [] -> valid_name k = true -> Path.join [base; k] <> [].
Proof.
  intros Hbase Hk. rewrite join_child by assumption. unfold anchor.
  destruct (Path.isAbsolute base); [discriminate|].
  apply join_nonempty; [now apply child_pieces|].
  now destruct (segs_of base).
Qed.

Lemma join_child_anchor (base k : jsstring) :
  base <> [] -> valid_name k = true ->
  anchor (Path.join [base; k]) = anchor base.
Proof.
  intros Hbase Hk. unfold anchor. now rewrite join_child_absolute.
Qed.

Lemma join_child_segs (base k : jsstring) :
  base <> [] -> valid_name k = true ->
  segs_of (Path.join [base; k]) = segs_of base ++ [k].
Proof.
  intros Hbase Hk. unfold segs_of at 1.
  rewrite join_child_absolute, join_child by assumption.
  pose proof (child_pieces base k Hk) as Hp.
  assert (Hne : segs_of base ++ [k] <> []) by now destruct (segs_of base).
  assert (Es : Path.norm_segs (negb (Path.isAbsolute base)) []
                 (Js.split Path.slash
                    (anchor base ++ Js.join Path.sep (segs_of base ++ [k])))
               = Path.norm_segs (negb (Path.isAbsolute base)) []
                   (segs_of base ++ [k])).
  { unfold anchor. destruct (Path.isAbsolute base).
    - change (Path.sep ++ Js.join Path.sep (segs_of base ++ [k]))
        with ([] ++ Path.slash :: Js.join Path.sep (segs_of base ++ [k])).
      rewrite split_app_slash, split_join by assumption. reflexivity.
    - cbn [app]. now rewrite split_join. }
  rewrite Es, norm_segs_app by (now constructor).
  now rewrite segs_of_fixed.
Qed.

(** The segments [path.resolve] gives: those of the working directory
    for a relative path, then those of the path. *)
Lemma resolve_segs_eq (cwd p : jsstring) :
  Path.resolve_segs cwd p
  = Path.norm_segs false []
      ((if Path.isAbsolute p then [] else Js.split Path.slash cwd)
       ++ segs_of p).
Proof.
  unfold Path.resolve_segs. pose proof (segs_of_fixed p) as Hfix.
  unfold segs_of in *. destruct (Path.isAbsolute p); cbn [negb] in *.
  - cbn [app]. now rewrite Hfix.
  - change (cwd ++ Path.sep ++ p) with (cwd ++ Path.slash :: p).
    rewrite split_app_slash, !norm_segs_app_l.
    now rewrite norm_segs_twice by constructor.
Qed.

Lemma resolve_segs_child (cwd base k : jsstring) :
  base <> [] -> valid_name k = true ->
  Path.resolve_segs cwd (Path.join [base; k])
  = Path.resolve_segs cwd base ++ [k].
Proof.
  intros Hbase Hk. rewrite !resolve_segs_eq.
  rewrite join_child_absolute, join_child_segs by assumption.
  rewrite app_assoc. apply norm_segs_app. now constructor.
Qed.

Lemma walk_app (l1 l2 : list jsstring) :
  forall n, Fs.walk n (l1 ++ l2)
            = match Fs.walk n l1 with
              | Some m => Fs.walk m l2
              | None => None
              end.
Proof.
  induction l1 as [|s l1 IH]; intros n; [reflexivity|].
  cbn [app Fs.walk]. destruct n as [c|es]; [reflexivity|].
  destruct (Fs.find_entry s es); [apply IH | reflexivity].
Qed.

Lemma lookup_eq (fs : Fs.filesystem) (p : jsstring) :
  p <> [] ->
  Fs.lookup fs p = Fs.walk (Fs.root fs) (Path.resolve_segs (Fs.cwd fs) p).
Proof. destruct p; [congruence | reflexivity]. Qed.

(** The node at [path.join(base, k)] is the entry [k] of the directory at
    [base]. *)
Lemma lookup_child (fs : Fs.filesystem) (base k : jsstring) :
  base <> [] -> valid_name k = true ->
  Fs.lookup fs (Path.join [base; k])
  = match Fs.lookup fs base with
    | Some (Fs.Dir es) => Fs.find_entry k es
    | _ => None
    end.
Proof.
  intros Hbase Hk.
  rewrite !lookup_eq by auto using join_child_nonempty.
  rewrite resolve_segs_child, walk_app by assumption.
  destruct (Fs.walk (Fs.root fs) (Path.resolve_segs (Fs.cwd fs) base))
    as [[c0|es]|]; [reflexivity| |reflexivity].
  cbn [Fs.walk]. now destruct (Fs.find_entry k es).
Qed.

End PathFacts.

(** ** Discovery *)

Module ProjectsFacts.
Import Fs Projects SegFacts PathFacts.

(** Induction on a tree, with the property for every entry of a
    directory. *)
Lemma node_induction (P : node -> Prop) :
  (forall c, P (File c)) ->
  (forall es, Forall (fun e => P (target e)) es -> P (Dir es)) ->
  forall n, P n.
Proof.
  intros Hf Hd. fix IH 1. intros [c|es]; [apply Hf | apply Hd].
  induction es as [|[k n] es IHes]; constructor; [apply IH | exact IHes].
Qed.

Fixpoint distinct (l : list jsstring) : bool :=
  match l with
  | [] => true
  | x :: r => negb (existsb (Js.eqb x) r) && distinct r
  end.

Lemma distinct_NoDup (l : list jsstring) : distinct l = true -> NoDup l.
Proof.
  induction l as [|x l IH]; simpl; [constructor|].
  rewrite andb_true_iff, negb_true_iff. intros [Hx Hl].
  constructor; [|now apply IH].
  intros Hin. assert (E : existsb (Js.eqb x) l = true); [|congruence].
  apply existsb_exists. exists x. split; [exact Hin | apply JsFacts.eqb_refl].
Qed.

(** The trees a file system can hold: in every directory the entries
    have different names, and each is a name an entry can have. *)
Fixpoint well_formed (n : node) : bool :=
  match n with
  | File _ => true
  | Dir es =>
      distinct (map Fs.name es)
      && forallb (fun e => valid_name (Fs.name e)) es
      && forallb (fun e => well_formed (target e)) es
  end.

Lemma well_formed_Dir (es : list dirent) :
  well_formed (Dir es) = true ->
  NoDup (map Fs.name es)
  /\ Forall (fun e => valid_name (Fs.name e) = true) es
  /\ Forall (fun e => well_formed (target e) = true) es.
Proof.
  cbn [well_formed]. rewrite !andb_true_iff, !forallb_forall, !Forall_forall.
  intros [[Hd Hv] Hw]. auto using distinct_NoDup.
Qed.

Lemma find_entry_In (k : jsstring) (es : list dirent) (n : node) :
  find_entry k es = Some n -> exists e, In e es /\ target e = n.
Proof.
  induction es as [|[k' v] es IH]; simpl; [discriminate|].
  destruct (Js.eqb k' k).
  - intros [= <-]. exists (Dirent k' v). auto.
  - intros H. destruct (IH H) as (e & He & <-). exists e. auto.
Qed.

(** Where names are different, an entry is found by its name. *)
Lemma find_entry_own (es : list dirent) (e : dirent) :
  NoDup (map Fs.name es) -> In e es ->
  find_entry (Fs.name e) es = Some (target e).
Proof.
  induction es as [|[k v] es IH]; intros Hd Hin; [destruct Hin|].
  cbn [map Fs.name] in Hd. apply NoDup_cons_iff in Hd. destruct Hd as [Hk Hd].
  cbn [find_entry]. destruct Hin as [<-|Hin].
  - cbn [Fs.name target]. now rewrite JsFacts.eqb_refl.
  - destruct (Js.eqb k (Fs.name e)) eqn:E; [|now apply IH].
    apply JsFacts.eqb_eq in E. elim Hk. rewrite E. now apply in_map.
Qed.

(** Every directory of a well-formed tree is well formed. *)
Lemma walk_well_formed (segs : list jsstring) :
  forall n m, well_formed n = true -> walk n segs = Some m ->
              well_formed m = true.
Proof.
  induction segs as [|s segs IH]; intros n m Hwf; simpl.
  - now intros [= <-].
  - destruct n as [c|es]; [discriminate|].
    destruct (find_entry s es) as [child|] eqn:E; [|discriminate].
    apply find_entry_In in E. destruct E as (e & He & <-).
    apply well_formed_Dir in Hwf. destruct Hwf as (_ & _ & Hw).
    rewrite Forall_forall in Hw. apply IH. now apply Hw.
Qed.

Lemma height_entry (es : list dirent) (e : dirent) :
  In e es -> height (target e) < height (Dir es).
Proof.
  intros Hin. cbn [height]. apply Nat.lt_succ_r.
  assert (H : Forall (fun k => k <= list_max
                                      (map (fun e => height (target e)) es))
                (map (fun e => height (target e)) es))
    by now apply list_max_le.
  rewrite Forall_forall in H. apply H.
  now apply (in_map (fun e => height (target e))).
Qed.

Lemma walk_height (segs : list jsstring) :
  forall n m, walk n segs = Some m -> height m <= height n.
Proof.
  induction segs as [|s segs IH]; intros n m; simpl.
  - now intros [= <-].
  - destruct n as [c|es]; [discriminate|].
    destruct (find_entry s es) as [child|] eqn:E; [|discriminate].
    apply find_entry_In in E. destruct E as (e & He & <-).
    intros Hw. apply IH in Hw. apply height_entry in He. lia.
Qed.

(** *** [scan], on the tree *)

Definition has_entry (k : jsstring) (es : list dirent) : bool :=
  match find_entry k es with Some _ => true | None => false end.

(** The markers of a directory with the entries [es]. *)
Definition tree_markers (es : list dirent) : list marker :=
  let markers :=
    (if has_entry (str "requirements.txt") es then [RequirementsTxt] else [])
    ++ (if has_entry (str "pyproject.toml") es then [PyprojectToml] else []) in
  match markers with
  | [] =>
      if existsb (fun e => isFile (target e)
                           && Js.endsWith (Fs.name e) (str ".py")) es
      then [PyFiles] else []
  | _ => markers
  end.

Definition child_rel (relativePath entry_name : jsstring) : jsstring :=
  match relativePath with
  | [] => entry_name
  | _ => relativePath ++ str "/" ++ entry_name
  end.

(** What [scan] pushes when [basePath] names the node [dir]. *)
Fixpoint tree_scan (patterns : list jsstring) (dir : node)
    (basePath relativePath : jsstring) {struct dir} : list SubProject :=
  match dir with
  | File _ => []
  | Dir entries =>
      flat_map
        (fun e =>
           if negb (isDirectory (target e)) then []
           else if shouldSkip patterns (Fs.name e) then []
           else if (0 <? length (tree_markers (entries_of (target e))))%nat
           then [{| Projects.name := child_rel relativePath (Fs.name e);
                    absolutePath := Path.join [basePath; Fs.name e];
                    markers := tree_markers (entries_of (target e)) |}]
           else tree_scan patterns (target e)
                  (Path.join [basePath; Fs.name e])
                  (child_rel relativePath (Fs.name e)))
        entries
  end.

Lemma isProjectDir_tree (fs : filesystem) (p : jsstring)
    (es : list dirent) :
  p <> [] -> lookup fs p = Some (Dir es) ->
  isProjectDir fs p = tree_markers es.
Proof.
  intros Hp E. unfold isProjectDir, existsSync, readdirSync.
  rewrite !lookup_child by (exact Hp || reflexivity).
  rewrite E. reflexivity.
Qed.

Lemma collect_flat_map {A B : Type} (turn : A -> option (list B))
    (g : A -> list B) (l : list A) :
  (forall x, In x l -> turn x = Some (g x)) ->
  collect turn l = Some (flat_map g l).
Proof.
  induction l as [|x l IH]; intros H; [reflexivity|].
  cbn [collect flat_map]. rewrite (H x) by now left.
  rewrite IH; [reflexivity|]. intros y Hy. apply H. now right.
Qed.

(** With fuel above the height of the node at [basePath], [scan] ends,
    and pushes what the tree says. *)
Lemma scan_tree_scan (patterns : list jsstring) (fs : filesystem) :
  forall (fuel : nat) (n : node) (basePath relativePath : jsstring),
    basePath <> [] -> well_formed n = true ->
    lookup fs basePath = Some n -> height n < fuel ->
    scan fuel patterns fs basePath relativePath
    = Some (tree_scan patterns n basePath relativePath).
Proof.
  induction fuel as [|fuel IH]; intros n basePath relativePath Hb Hwf E Hh;
    [lia|].
  cbn [scan]. unfold readdirSync. rewrite E.
  destruct n as [c|es]; [reflexivity|]. cbn [tree_scan].
  apply well_formed_Dir in Hwf. destruct Hwf as (Hd & Hv & Hw).
  rewrite Forall_forall in Hv, Hw.
  apply collect_flat_map. intros e He. cbv zeta.
  destruct (negb (isDirectory (target e))) eqn:Edir; [reflexivity|].
  destruct (shouldSkip patterns (Fs.name e)); [reflexivity|].
  assert (Ee : lookup fs (Path.join [basePath; Fs.name e]) = Some (target e)).
  { rewrite lookup_child, E by auto. now apply find_entry_own. }
  assert (Hne : Path.join [basePath; Fs.name e] <> [])
    by auto using join_child_nonempty.
  destruct (target e) as [c|es'] eqn:Et; [discriminate|].
  rewrite (isProjectDir_tree fs _ es' Hne Ee). cbn [entries_of].
  fold (child_rel relativePath (Fs.name e)).
  destruct (0 <? length (tree_markers es'))%nat; [reflexivity|].
  apply IH; auto.
  - rewrite <- Et. now apply Hw.
  - apply height_entry in He. rewrite Et in He. lia.
Qed.

(** *** The projects as paths in the tree *)

(** The projects of [scan] as paths of entry names from the scanned
    directory. *)
Fixpoint scan_paths (patterns : list jsstring) (dir : node)
  : list (list jsstring) :=
  match dir with
  | File _ => []
  | Dir es =>
      flat_map
        (fun e =>
           if negb (isDirectory (target e)) then []
           else if shouldSkip patterns (Fs.name e) then []
           else if (0 <? length (tree_markers (entries_of (target e))))%nat
           then [[Fs.name e]]
           else map (cons (Fs.name e)) (scan_paths patterns (target e)))
        es
  end.

Lemma child_rel_join (rs : list jsstring) (k : jsstring) :
  valid rs ->
  child_rel (Js.join Path.sep rs) k = Js.join Path.sep (rs ++ [k]).
Proof.
  intros Hv. destruct rs as [|x rs]; [reflexivity|].
  rewrite join_snoc by discriminate.
  pose proof (join_nonempty (x :: rs) (valid_pieces _ Hv)) as Hne.
  unfold child_rel. destruct (Js.join Path.sep (x :: rs)); [|reflexivity].
  now elim Hne.
Qed.

(** A project seen from outside: its name and its path. *)
Definition view (p : SubProject) : jsstring * jsstring :=
  (Projects.name p, absolutePath p).

(** The name of the project at the path [s] below [relativePath], and
    its path below [basePath]. *)
Definition view_at (basePath : jsstring) (rs s : list jsstring)
  : jsstring * jsstring :=
  (Js.join Path.sep (rs ++ s),
   anchor basePath ++ Js.join Path.sep (segs_of basePath ++ s)).

Lemma tree_scan_view (patterns : list jsstring) (n : node) :
  forall (basePath : jsstring) (rs : list jsstring),
    basePath <> [] -> well_formed n = true -> valid rs ->
    map view (tree_scan patterns n basePath (Js.join Path.sep rs))
    = map (view_at basePath rs) (scan_paths patterns n).
Proof.
  induction n as [c|es IH] using node_induction;
    intros basePath rs Hb Hwf Hrs; [reflexivity|].
  cbn [tree_scan scan_paths].
  apply well_formed_Dir in Hwf. destruct Hwf as (_ & Hv & Hw).
  induction es as [|e es IHes]; [reflexivity|].
  inversion IH as [|? ? IHe IH']; subst.
  inversion Hv as [|? ? Hve Hv']; subst.
  inversion Hw as [|? ? Hwe Hw']; subst.
  cbn [flat_map]. rewrite !map_app, (IHes IH' Hv' Hw'). f_equal.
  destruct (negb (isDirectory (target e))); [reflexivity|].
  destruct (shouldSkip patterns (Fs.name e)); [reflexivity|].
  rewrite child_rel_join by exact Hrs.
  destruct (0 <? length (tree_markers (entries_of (target e))))%nat.
  - cbn [map]. unfold view, view_at. cbn [Projects.name absolutePath].
    now rewrite join_child by assumption.
  - rewrite IHe; [|now apply join_child_nonempty|exact Hwe|].
    + rewrite map_map. apply map_ext. intros s. unfold view_at.
      rewrite join_child_anchor, join_child_segs by assumption.
      now rewrite <- !app_assoc.
    + apply Forall_app. split; [exact Hrs | now constructor].
Qed.

(** The paths of one entry. *)
Definition entry_paths (patterns : list jsstring) (e : dirent)
  : list (list jsstring) :=
  if negb (isDirectory (target e)) then []
  else if shouldSkip patterns (Fs.name e) then []
  else if (0 <? length (tree_markers (entries_of (target e))))%nat
  then [[Fs.name e]]
  else map (cons (Fs.name e)) (scan_paths patterns (target e)).

Lemma scan_paths_Dir (patterns : list jsstring) (es : list dirent) :
  scan_paths patterns (Dir es) = flat_map (entry_paths patterns) es.
Proof. reflexivity. Qed.

Lemma entry_paths_head (patterns : list jsstring) (e : dirent)
    (a : list jsstring) :
  In a (entry_paths patterns e) -> exists t, a = Fs.name e :: t.
Proof.
  unfold entry_paths.
  destruct (negb (isDirectory (target e))); [intros []|].
  destruct (shouldSkip patterns (Fs.name e)); [intros []|].
  destruct (0 <? length (tree_markers (entries_of (target e))))%nat.
  - intros [<-|[]]. now exists [].
  - rewrite in_map_iff. intros (t & <- & _). now exists t.
Qed.

Lemma flat_entry_paths_head (patterns : list jsstring) (es : list dirent)
    (a : list jsstring) :
  In a (flat_map (entry_paths patterns) es) ->
  exists k t, a = k :: t /\ In k (map Fs.name es).
Proof.
  rewrite in_flat_map. intros (e & He & Ha).
  apply entry_paths_head in Ha. destruct Ha as [t ->].
  exists (Fs.name e), t. split; [reflexivity | now apply in_map].
Qed.

Lemma scan_paths_valid (patterns : list jsstring) (n : node) :
  well_formed n = true -> Forall valid (scan_paths patterns n).
Proof.
  induction n as [c|es IH] using node_induction; intros Hwf; [constructor|].
  rewrite scan_paths_Dir. apply well_formed_Dir in Hwf.
  destruct Hwf as (_ & Hv & Hw). apply Forall_flat_map.
  rewrite Forall_forall in *. intros e He. unfold entry_paths.
  destruct (negb (isDirectory (target e))); [constructor|].
  destruct (shouldSkip patterns (Fs.name e)); [constructor|].
  destruct (0 <? length (tree_markers (entries_of (target e))))%nat.
  - repeat constructor. now apply Hv.
  - apply Forall_map. specialize (IH e He (Hw e He)).
    rewrite Forall_forall in *. intros s Hs.
    constructor; [now apply Hv | now apply IH].
Qed.

(** No path of the list starts another one. *)
Definition prefix_free (l : list (list jsstring)) : Prop :=
  forall a b, In a l -> In b l -> (exists t, b = a ++ t) -> a = b.

Lemma entry_paths_antichain (patterns : list jsstring) (e : dirent) :
  NoDup (scan_paths patterns (target e)) ->
  prefix_free (scan_paths patterns (target e)) ->
  NoDup (entry_paths patterns e) /\ prefix_free (entry_paths patterns e).
Proof.
  intros Hn Hp. unfold entry_paths.
  destruct (negb (isDirectory (target e)));
    [split; [constructor | intros a b []]|].
  destruct (shouldSkip patterns (Fs.name e));
    [split; [constructor | intros a b []]|].
  destruct (0 <? length (tree_markers (entries_of (target e))))%nat.
  - split; [repeat constructor; intros []|].
    intros a b [<-|[]] [<-|[]] _. reflexivity.
  - split.
    + apply NoDup_map_NoDup_ForallPairs; [|exact Hn].
      intros x y _ _ E. now injection E.
    + intros a b Ha Hb [t Ht].
      apply in_map_iff in Ha. destruct Ha as (a' & <- & Ha).
      apply in_map_iff in Hb. destruct Hb as (b' & <- & Hb).
      injection Ht as Ht. f_equal. apply Hp; auto. now exists t.
Qed.

(** The paths of the projects found are all different, and none starts
    another. *)
Lemma scan_paths_antichain (patterns : list jsstring) (n : node) :
  well_formed n = true ->
  NoDup (scan_paths patterns n) /\ prefix_free (scan_paths patterns n).
Proof.
  induction n as [c|es IH] using node_induction; intros Hwf.
  { split; [constructor | intros a b []]. }
  rewrite scan_paths_Dir. apply well_formed_Dir in Hwf.
  destruct Hwf as (Hd & _ & Hw).
  induction es as [|e es IHes]; [split; [constructor | intros a b []]|].
  inversion IH as [|? ? IHe IH']; subst.
  inversion Hw as [|? ? Hwe Hw']; subst.
  cbn [map] in Hd. apply NoDup_cons_iff in Hd. destruct Hd as [Hk Hd].
  destruct (IHes IH' Hd Hw') as [Hn Hp].
  destruct (IHe Hwe) as [Hne Hpe].
  destruct (entry_paths_antichain patterns e Hne Hpe) as [Hn1 Hp1].
  assert (Hclash : forall a b,
             In a (entry_paths patterns e) ->
             In b (flat_map (entry_paths patterns) es) ->
             hd_error a = hd_error b -> False).
  { intros a b Ha Hb E. apply entry_paths_head in Ha. destruct Ha as [t ->].
    apply flat_entry_paths_head in Hb. destruct Hb as (k & t' & -> & Hin).
    simpl in E. injection E as E. apply Hk. now rewrite E. }
  cbn [flat_map]. split.
  - apply NoDup_app; auto. intros a Ha Hb. now apply (Hclash a a).
  - intros a b Ha Hb [t Ht]. apply in_app_or in Ha, Hb.
    assert (Hhd : hd_error a = hd_error b).
    { destruct Ha as [Ha|Ha];
        [apply entry_paths_head in Ha; destruct Ha as [ta ->]
        |apply flat_entry_paths_head in Ha;
         destruct Ha as (k & ta & -> & _)]; now rewrite Ht. }
    destruct Ha as [Ha|Ha], Hb as [Hb|Hb].
    + apply Hp1; auto. now exists t.
    + now elim (Hclash a b).
    + now elim (Hclash b a).
    + apply Hp; auto. now exists t.
Qed.

Lemma scan_paths_nonempty (patterns : list jsstring) (n : node)
    (s : list jsstring) :
  In s (scan_paths patterns n) -> s <> [].
Proof.
  destruct n as [c|es]; [intros []|]. rewrite scan_paths_Dir. intros H.
  apply flat_entry_paths_head in H. destruct H as (k & t & -> & _).
  discriminate.
Qed.







(** What discovery finds in a workspace with a nested project, a
    directory with two markers, skipped directories and a project below a
    project. *)
Lemma discoverSubprojects_examples :
  option_map (map (fun p => (Projects.name p, absolutePath p, markers p)))
    (discoverSubprojects (fun _ _ => 0%Z) Config.defaults Scenario.monorepo
       (str "/ws"))
  = Some [(str "mcp/weather", str "/ws/mcp/weather", [RequirementsTxt]);
          (str "scripts", str "/ws/scripts", [PyFiles]);
          (str "dual", str "/ws/dual", [RequirementsTxt; PyprojectToml])]
  /\ option_map (map view)
       (discoverSubprojects (fun _ _ => 0%Z) Config.defaults
          Scenario.monorepo (str "ws/../ws/"))
     = Some [(str "mcp/weather", str "ws/mcp/weather");
             (str "scripts", str "ws/scripts"); (str "dual", str "ws/dual")]
  /\ discoverSubprojects (fun _ _ => 0%Z) Config.defaults Scenario.monorepo
       (str "/nowhere") = Some [].
Proof. repeat split; vm_compute; reflexivity. Qed.

End ProjectsFacts.

(** ** The venv lifecycle *)

Module ManagerFacts.
Import Manager.

(** A command went well: it closed with exit code 0. *)
Definition succeeded (st : exit) : bool :=
  match st with
  | Closed (Some 0%Z) => true
  | _ => false
  end.

(** What [runCommand] rejects with otherwise. *)
Definition error_of (st : exit) : error :=
  match st with
  | Closed code => CommandExited code
  | SpawnError => SpawnFailed
  end.

(** The line [runCommand] writes before it spawns. *)
Definition shown (command : jsstring) (args : list jsstring) : event :=
  Appended (str "> " ++ command ++ str " " ++ Js.join (str " ") args).

Lemma runCommand_eq (h : host) (c : jsstring) (a : list jsstring)
    (cwd : jsstring) (w : world) :
  runCommand h c a cwd w
  = let out := run h c a (Some cwd) (files w) in
    (if succeeded (fst out) then Ok tt else Throw (error_of (fst out)),
     {| files := snd out;
        trace := trace w ++ [shown c a; Spawned c a (Some cwd) (fst out)] |}).
Proof.
  unfold runCommand, bind, appendLine, emit, spawn, shown. cbn [files trace].
  destruct (run h c a (Some cwd) (files w)) as [st fs'].
  cbn [fst snd]. rewrite <- app_assoc.
  destruct st as [[[|q|q]|]|]; reflexivity.
Qed.

(** The availability probe of [resolvePackageManager]. *)
Definition probe (st : exit) : event :=
  Spawned (str "uv") [str "--version"] None st.

Lemma resolvePackageManager_eq (h : host) (p : jsstring) (w : world) :
  resolvePackageManager h p w
  = match PackageManager.detectPackageManager (settings h) (files w) p with
    | Throw e => (Throw e, w)
    | Ok m =>
        if Js.eqb m PackageManager.uv then
          let out := run h (str "uv") [str "--version"] None (files w) in
          (Ok (if succeeded (fst out) then m else PackageManager.venv_pip),
           {| files := snd out; trace := trace w ++ [probe (fst out)] |})
        else (Ok m, w)
    end.
Proof.
  unfold resolvePackageManager, isUvAvailable, bind, read, spawn, ret, probe.
  destruct (PackageManager.detectPackageManager _ _ _) as [m|e];
    [|reflexivity].
  destruct (Js.eqb m PackageManager.uv); [|reflexivity].
  destruct (run h _ _ None (files w)) as [st fs']. cbn [fst snd].
  destruct st as [[[|q|q]|]|]; reflexivity.
Qed.

Section Phases.
Variable h : host.
Variable projectPath : jsstring.

Definition venv : jsstring := Path.join [projectPath; str ".venv"].

(** The manifest the run works with: the override, else the primary
    manifest found, when it is a non-empty path. *)
Definition resolved_manifest (fs : Fs.filesystem) (opts : option options)
  : option jsstring :=
  truthy match opts with
         | Some {| requirementsFile := Some f |} => Some f
         | _ => Hash.findRequirementsFile fs projectPath
         end.

Definition forced (opts : option options) : bool :=
  match opts with
  | Some {| force := Some b |} => b
  | _ => false
  end.

(** The test of the fast path. *)
Definition up_to_date (fs : Fs.filesystem) (opts : option options)
  : result bool :=
  if Venv.isVenvValid fs venv && negb (forced opts) then
    match resolved_manifest fs opts with
    | Some f =>
        match Hash.isVenvStale fs venv f with
        | Ok stale => Ok (negb stale)
        | Throw e => Throw e
        end
    | None => Ok false
    end
  else Ok false.

Definition create_command (m : jsstring) : jsstring * list jsstring :=
  if Js.eqb m PackageManager.uv then (str "uv", [str "venv"; venv])
  else (str "python3", [str "-m"; str "venv"; venv]).

Definition install_command (m f : jsstring) : jsstring * list jsstring :=
  if Js.eqb m PackageManager.uv
  then (str "uv", [str "pip"; str "install"; str "-r"; f; str "--python";
                   Venv.getVenvPython venv])
  else (Path.join [venv; str "bin"; str "pip"],
        [str "install"; str "-r"; f]).

Definition creating (m : jsstring) : event :=
  Appended (str "Creating venv at " ++ venv ++ str " using " ++ m
            ++ str "...").

Definition installing (f : jsstring) : event :=
  Appended (str "Installing dependencies from " ++ Path.basename f
            ++ str "...").

Definition wrote (hash : jsstring) : event :=
  Wrote (Path.join [venv; Hash.HASH_FILENAME])
        (Utf8.encode (hash ++ str newline)).

Definition saved (hash : jsstring) : event :=
  Appended (str "Saved requirements hash: " ++ hash).

Definition done : event := Appended (str "Done.").

Definition wants_sync (m : jsstring) (fs : Fs.filesystem) : bool :=
  Js.eqb m PackageManager.uv
  && Fs.existsSync fs (Path.join [projectPath; str "pyproject.toml"]).

Definition report (m : jsstring) (exists_ : bool) : CreateVenvResult :=
  {| venvPath := venv; manager := m;
     created := negb exists_; updated := exists_ |}.

(** The run after the fast path is not taken, as what it returns, the
    files it leaves and the events it adds: first the venv is created
    when it was not valid, then the manifest is installed and its digest
    stored, or the project synchronised. *)
Definition install_outcome (m : jsstring) (exists_ : bool)
    (manifest : option jsstring) (fs : Fs.filesystem) (before : list event)
  : result CreateVenvResult * Fs.filesystem * list event :=
  match manifest with
  | Some f =>
      let '(c, a) := install_command m f in
      let out := run h c a (Some projectPath) fs in
      let evs := before ++ [installing f; shown c a;
                            Spawned c a (Some projectPath) (fst out)] in
      if succeeded (fst out) then
        match Hash.hashFile (snd out) f with
        | Ok hash =>
            match Hash.writeHash (snd out) venv hash with
            | Ok fs' =>
                (Ok (report m exists_), fs',
                 evs ++ [wrote hash; saved hash; done])
            | Throw e => (Throw e, snd out, evs)
            end
        | Throw e => (Throw e, snd out, evs)
        end
      else (Throw (error_of (fst out)), snd out, evs)
  | None =>
      if wants_sync m fs then
        let out := run h (str "uv") [str "sync"] (Some projectPath) fs in
        let evs := before ++ [Appended (str "Running uv sync...");
                              shown (str "uv") [str "sync"];
                              Spawned (str "uv") [str "sync"]
                                      (Some projectPath) (fst out)] in
        if succeeded (fst out)
        then (Ok (report m exists_), snd out, evs ++ [done])
        else (Throw (error_of (fst out)), snd out, evs)
      else (Ok (report m exists_), fs, before ++ [done])
  end.

Definition act_outcome (m : jsstring) (exists_ : bool)
    (manifest : option jsstring) (fs : Fs.filesystem)
  : result CreateVenvResult * Fs.filesystem * list event :=
  if exists_ then install_outcome m exists_ manifest fs [ChannelShown]
  else
    let '(c, a) := create_command m in
    let out := run h c a (Some projectPath) fs in
    let evs := [ChannelShown; creating m; shown c a;
                Spawned c a (Some projectPath) (fst out)] in
    if succeeded (fst out)
    then install_outcome m exists_ manifest (snd out) evs
    else (Throw (error_of (fst out)), snd out, evs).

(** The whole run, from the files [fs]: what is returned, the files
    left and the events added. *)
Definition outcome (fs : Fs.filesystem) (opts : option options)
  : result CreateVenvResult * Fs.filesystem * list event :=
  match PackageManager.detectPackageManager (settings h) fs projectPath with
  | Throw e => (Throw e, fs, [])
  | Ok detected =>
      let probing := Js.eqb detected PackageManager.uv in
      let out := run h (str "uv") [str "--version"] None fs in
      let fs1 := if probing then snd out else fs in
      let probed := if probing then [probe (fst out)] else [] in
      let m := if probing && negb (succeeded (fst out))
               then PackageManager.venv_pip else detected in
      match up_to_date fs1 opts with
      | Throw e => (Throw e, fs1, probed)
      | Ok true =>
          (Ok {| venvPath := venv; manager := m;
                 created := false; updated := false |}, fs1, probed)
      | Ok false =>
          let '(r, fs2, evs) :=
            act_outcome m (Venv.isVenvValid fs1 venv)
              (resolved_manifest fs1 opts) fs1 in
          (r, fs2, probed ++ evs)
      end
  end.

End Phases.

Local Open Scope manager_scope.

(** What [createOrUpdateVenv] does once the fast path is not taken, with
    the manifest it resolved. *)
Definition act (h : host) (projectPath m : jsstring) (exists_ : bool)
    (manifest : option jsstring) : M CreateVenvResult :=
  emit ChannelShown ;;;
  (if negb exists_ then
     appendLine (str "Creating venv at " ++ venv projectPath ++ str " using "
                 ++ m ++ str "...") ;;;
     if Js.eqb m PackageManager.uv
     then runCommand h (str "uv") [str "venv"; venv projectPath] projectPath
     else runCommand h (str "python3")
            [str "-m"; str "venv"; venv projectPath] projectPath
   else ret tt) ;;;
  match manifest with
  | Some f =>
      appendLine (str "Installing dependencies from "
                  ++ Path.basename f ++ str "...") ;;;
      (if Js.eqb m PackageManager.uv
       then runCommand h (str "uv")
              [str "pip"; str "install"; str "-r"; f; str "--python";
               Venv.getVenvPython (venv projectPath)] projectPath
       else runCommand h (Path.join [venv projectPath; str "bin"; str "pip"])
              [str "install"; str "-r"; f] projectPath) ;;;
      hash <- read (fun fs => Hash.hashFile fs f) ;;
      writeHash (venv projectPath) hash ;;;
      appendLine (str "Saved requirements hash: " ++ hash)
  | None =>
      exists_pyproject <-
        read (fun fs =>
                Ok (Fs.existsSync fs
                      (Path.join [projectPath; str "pyproject.toml"]))) ;;
      if Js.eqb m PackageManager.uv && (exists_pyproject : bool)
      then appendLine (str "Running uv sync...") ;;;
           runCommand h (str "uv") [str "sync"] projectPath
      else ret tt
  end ;;;
  appendLine (str "Done.") ;;;
  ret (report projectPath m exists_).

(** [createOrUpdateVenv] is: resolve the manager, test the fast path,
    act. *)
Lemma createOrUpdateVenv_act (h : host) (p : jsstring)
    (opts : option options) (w : world) :
  createOrUpdateVenv h p opts w
  = match resolvePackageManager h p w with
    | (Ok m, w1) =>
        match up_to_date p (files w1) opts with
        | Ok true =>
            (Ok {| venvPath := venv p; manager := m;
                   created := false; updated := false |}, w1)
        | Ok false =>
            act h p m (Venv.isVenvValid (files w1) (venv p))
              (resolved_manifest p (files w1) opts) w1
        | Throw e => (Throw e, w1)
        end
    | (Throw e, w1) => (Throw e, w1)
    end.
Proof.
  unfold createOrUpdateVenv. unfold bind at 1.
  destruct (resolvePackageManager h p w) as [[m|e] w1]; [|reflexivity].
  unfold up_to_date, resolved_manifest, forced, act. fold (venv p).
  destruct opts as [[[b|] [f|]]|]; unfold bind, read, ret;
    destruct (Venv.isVenvValid (files w1) (venv p)); cbn [andb negb].
  all: try destruct b; cbn [andb negb].
  all: try (destruct (truthy _) as [f'|]); try reflexivity.
  all: destruct (Hash.isVenvStale (files w1) (venv p) f') as [[|]|];
    reflexivity.
Qed.

Ltac norm :=
  cbv beta iota zeta in *; cbn [files trace fst snd negb andb] in *.

Lemma act_eq (h : host) (p m : jsstring) (exists_ : bool)
    (manifest : option jsstring) (w : world) :
  act h p m exists_ manifest w
  = let '(r, fs2, evs) := act_outcome h p m exists_ manifest (files w) in
    (r, {| files := fs2; trace := trace w ++ evs |}).
Proof.
  destruct w as [fs tr].
  unfold act, act_outcome, install_outcome, create_command, install_command,
    wants_sync, creating, installing, wrote, saved, done.
  unfold bind, appendLine, emit, read, ret, Manager.writeHash. norm.
  destruct exists_; norm;
    destruct (Js.eqb m PackageManager.uv); norm;
    destruct manifest as [f|]; norm;
    repeat first
      [ rewrite runCommand_eq; norm
      | match goal with
        | |- context [succeeded ?x] => destruct (succeeded x) eqn:?; norm
        | |- context [Hash.hashFile ?a ?b] =>
            destruct (Hash.hashFile a b) eqn:?; norm
        | |- context [Hash.writeHash ?a ?b ?c] =>
            destruct (Hash.writeHash a b c) eqn:?; norm
        | |- context [Fs.existsSync ?a ?b] =>
            destruct (Fs.existsSync a b) eqn:?; norm
        end ];
    rewrite <- ?app_assoc; try reflexivity; congruence.
Qed.

(** The run of [createOrUpdateVenv] is the one [outcome] describes. *)
Lemma createOrUpdateVenv_outcome (h : host) (p : jsstring)
    (opts : option options) (w : world) :
  createOrUpdateVenv h p opts w
  = let '(r, fs', evs) := outcome h p (files w) opts in
    (r, {| files := fs'; trace := trace w ++ evs |}).
Proof.
  rewrite createOrUpdateVenv_act, resolvePackageManager_eq. unfold outcome.
  destruct w as [fs tr]. norm.
  destruct (PackageManager.detectPackageManager _ _ _) as [m|e]; norm;
    [|now rewrite app_nil_r].
  destruct (Js.eqb m PackageManager.uv); norm.
  - destruct (succeeded _); norm;
      (destruct (up_to_date p _ opts) as [[|]|e]; norm; try reflexivity;
       rewrite act_eq; norm;
       destruct (act_outcome _ _ _ _ _ _) as [[r fs2] evs];
       now rewrite <- app_assoc).
  - destruct (up_to_date p _ opts) as [[|]|e]; norm;
      try (now rewrite app_nil_r).
    rewrite act_eq; norm.
    now destruct (act_outcome _ _ _ _ _ _) as [[r fs2] evs].
Qed.

(** *** The fast path and the update path *)

(** C2 (amended): when the venv is valid, [force] is off, a manifest is
    resolved and the venv is not stale, [createOrUpdateVenv] returns
    [{created:false, updated:false}] and leaves the world as
    [resolvePackageManager] left it: no output channel, no venv, install
    or sync command, no file written; the one process that can have been
    spawned is the [uv --version] probe of [resolvePackageManager]. *)
Theorem fast_path (h : host) (p : jsstring) (opts : option options)
    (w w1 : world) (m f : jsstring) :
  resolvePackageManager h p w = (Ok m, w1) ->
  Venv.isVenvValid (files w1) (venv p) = true ->
  forced opts = false ->
  resolved_manifest p (files w1) opts = Some f ->
  Hash.isVenvStale (files w1) (venv p) f = Ok false ->
  createOrUpdateVenv h p opts w
  = (Ok {| venvPath := venv p; manager := m;
           created := false; updated := false |}, w1)
  /\ (w1 = w
      \/ exists st,
           w1 = {| files := snd (run h (str "uv") [str "--version"] None
                                     (files w));
                   trace := trace w ++ [probe st] |}).
Proof.
  intros Hr Hv Hf Hm Hs. split.
  - rewrite createOrUpdateVenv_act, Hr. unfold up_to_date.
    now rewrite Hv, Hf, Hm, Hs.
  - rewrite resolvePackageManager_eq in Hr.
    destruct (PackageManager.detectPackageManager _ _ _) as [d|e];
      [|discriminate].
    destruct (Js.eqb d PackageManager.uv).
    + right. injection Hr as _ <-. now eexists.
    + left. now injection Hr.
Qed.

(** C10: when the venv was valid and the fast path is not taken, what
    [createOrUpdateVenv] returns is [{created:false, updated:true}]; it
    throws only right after a command it spawned (the error of that
    command when it failed); and with no manifest and nothing to
    synchronise it returns that result having run no command at all. *)
Theorem update_path (h : host) (p : jsstring) (opts : option options)
    (w w1 : world) (m : jsstring) :
  resolvePackageManager h p w = (Ok m, w1) ->
  Venv.isVenvValid (files w1) (venv p) = true ->
  (forced opts = true
   \/ resolved_manifest p (files w1) opts = None
   \/ exists f, resolved_manifest p (files w1) opts = Some f
                /\ Hash.isVenvStale (files w1) (venv p) f = Ok true) ->
  let '(r, w2) := createOrUpdateVenv h p opts w in
  (forall res, r = Ok res ->
     res = {| venvPath := venv p; manager := m;
              created := false; updated := true |})
  /\ (forall e, r = Throw e ->
        exists c a st pre,
          trace w2 = pre ++ [Spawned c a (Some p) st]
          /\ (succeeded st = false -> e = error_of st))
  /\ (resolved_manifest p (files w1) opts = None ->
      wants_sync p m (files w1) = false ->
      r = Ok {| venvPath := venv p; manager := m;
                created := false; updated := true |}
      /\ w2 = {| files := files w1;
                 trace := trace w1 ++ [ChannelShown; done] |}).
Proof.
  intros Hr Hv Hslow.
  assert (Hu : up_to_date p (files w1) opts = Ok false).
  { unfold up_to_date. rewrite Hv.
    destruct Hslow as [Hf | [Hn | (f & Hm & Hs)]].
    - now rewrite Hf.
    - rewrite Hn. now destruct (forced opts).
    - rewrite Hm, Hs. now destruct (forced opts). }
  rewrite createOrUpdateVenv_act, Hr, Hu, Hv, act_eq.
  unfold act_outcome, install_outcome, report.
  destruct (resolved_manifest p (files w1) opts) as [f|].
  - destruct (install_command p m f) as [c a]. norm.
    assert (Hlast : forall (P : exit -> Prop),
               P (fst (run h c a (Some p) (files w1))) ->
               exists c' a' st pre,
                 trace w1 ++ [ChannelShown] ++
                   [installing f; shown c a;
                    Spawned c a (Some p)
                      (fst (run h c a (Some p) (files w1)))]
                 = pre ++ [Spawned c' a' (Some p) st] /\ P st).
    { intros P HP. exists c, a. eexists.
      exists (trace w1 ++ [ChannelShown; installing f; shown c a]).
      split; [now rewrite <- app_assoc | exact HP]. }
    destruct (succeeded _) eqn:Es.
    + destruct (Hash.hashFile _ f) as [hash|e].
      * destruct (Hash.writeHash _ _ hash) as [fs'|e]; norm.
        -- split; [now intros res [= <-] | split; discriminate].
        -- split; [discriminate | split; [|discriminate]].
           intros e' [= <-].
           destruct (Hlast (fun st => succeeded st = false
                                      -> e = error_of st))
             as (c' & a' & st & pre & E & HP); [congruence|].
           now exists c', a', st, pre.
      * norm. split; [discriminate | split; [|discriminate]].
        intros e' [= <-].
        destruct (Hlast (fun st => succeeded st = false -> e = error_of st))
          as (c' & a' & st & pre & E & HP); [congruence|].
        now exists c', a', st, pre.
    + norm. split; [discriminate | split; [|discriminate]].
      intros e' [= <-].
      destruct (Hlast (fun st => succeeded st = false
                                 -> error_of (fst (run h c a (Some p)
                                                     (files w1)))
                                    = error_of st))
        as (c' & a' & st & pre & E & HP); [reflexivity|].
      now exists c', a', st, pre.
  - destruct (wants_sync p m (files w1)); norm.
    + destruct (succeeded _) eqn:Es; norm.
      * split; [now intros res [= <-] | split; discriminate].
      * split; [discriminate | split; [|discriminate]].
        intros e' [= <-]. exists (str "uv"), [str "sync"]. eexists.
        exists (trace w1 ++ [ChannelShown; Appended (str "Running uv sync...");
                             shown (str "uv") [str "sync"]]).
        split; [now rewrite <- app_assoc | reflexivity].
    + split; [now intros res [= <-] | split; [discriminate|]].
      intros _ _. split; reflexivity.
Qed.

(** *** When the hash is written *)

(** The commands of the host leave the path [q] as it is. *)
Definition quiet (h : host) (q : jsstring) : Prop :=
  forall c a cwd fs,
    FsFacts.same_shape (Fs.lookup (snd (run h c a cwd fs)) q) (Fs.lookup fs q).

Lemma same_shape_trans (a b c : option Fs.node) :
  FsFacts.same_shape a b -> FsFacts.same_shape b c -> FsFacts.same_shape a c.
Proof.
  destruct a as [[x|x]|], b as [[y|y]|], c as [[z|z]|]; simpl;
    try tauto; congruence.
Qed.

Definition no_write (evs : list event) : Prop :=
  forall path data, ~ In (Wrote path data) evs.

(** The last of the events [pre] is a command of the run, with "install"
    among its arguments, that went well. *)
Definition installed_before (p : jsstring) (pre : list event) : Prop :=
  match last pre ChannelShown with
  | Spawned c a (Some cwd) st =>
      cwd = p /\ succeeded st = true /\ In (str "install") a
  | _ => False
  end.

Lemma split_cons {A : Type} (x y : A) (l pre post : list A) :
  x :: l = pre ++ y :: post ->
  (pre = [] /\ x = y /\ l = post)
  \/ (exists pre', pre = x :: pre' /\ l = pre' ++ y :: post).
Proof.
  destruct pre as [|z pre]; simpl; intros [= -> ->]; [left | right]; eauto.
Qed.

Lemma install_command_install (p m f : jsstring) :
  In (str "install") (snd (install_command p m f)).
Proof.
  unfold install_command.
  destruct (Js.eqb m PackageManager.uv); cbn [snd In]; auto.
Qed.

Ltac unfold_events :=
  unfold shown, creating, installing, saved, done, probe, wrote in *.

Ltac no_write_tac :=
  let path := fresh "path" in
  let data := fresh "data" in
  let Hin := fresh "Hin" in
  intros path data Hin; cbn [In] in Hin;
  repeat (destruct Hin as [Hin|Hin]; [discriminate Hin|]);
  exact Hin.

(** Every way to cut a list of known events at a given one. *)
Ltac splits E :=
  repeat (apply split_cons in E;
          let pre' := fresh "pre" in
          let E' := fresh "E" in
          destruct E as [(-> & E' & <-) | (pre' & -> & E')];
          [first [discriminate E' | injection E' as <- <-]
          |rename E' into E]);
  try (exfalso; symmetry in E;
       apply app_eq_nil in E; destruct E as [_ E]; discriminate E).

Ltac head_of t :=
  lazymatch t with
  | match ?x with _ => _ end => head_of x
  | _ => constr:(t)
  end.

(** Case analysis on what the run tests first. *)
Ltac head_case :=
  lazymatch goal with
  | |- match ?x with _ => _ end =>
      let y := head_of x in destruct y eqn:?; norm
  end.

(** C3: in a run of [createOrUpdateVenv] the only file written is the
    marker of the venv, at most once, and right after the install command
    closed with exit code 0; a venv, install or sync command that does not
    close with code 0 (or cannot be spawned) is the last thing the run
    does: its failure is thrown to the caller and nothing is written, so
    that, the commands themselves leaving marker and manifest alone, the
    stored hash and the verdict of [isVenvStale] are what they were. *)
Theorem hash_written_after_install (h : host) (p : jsstring)
    (opts : option options) (w : world) :
  let '(r, w2) := createOrUpdateVenv h p opts w in
  exists evs,
    trace w2 = trace w ++ evs
    /\ (forall pre path data post,
          evs = pre ++ Wrote path data :: post ->
          path = HashFacts.marker (venv p)
          /\ installed_before p pre /\ no_write pre /\ no_write post)
    /\ (forall c a st,
          In (Spawned c a (Some p) st) evs -> succeeded st = false ->
          r = Throw (error_of st)
          /\ (exists pre, evs = pre ++ [Spawned c a (Some p) st])
          /\ no_write evs
          /\ (forall q, quiet h q ->
                FsFacts.same_shape (Fs.lookup (files w2) q)
                                   (Fs.lookup (files w) q))
          /\ (forall f, quiet h (HashFacts.marker (venv p)) -> quiet h f ->
                Hash.isVenvStale (files w2) (venv p) f
                = Hash.isVenvStale (files w) (venv p) f)).
Proof.
  rewrite createOrUpdateVenv_outcome. destruct w as [fs tr].
  unfold outcome, act_outcome, install_outcome. norm.
  destruct (PackageManager.detectPackageManager _ _ _) as [d|e]; norm.
  2:{ exists []. split; [now rewrite app_nil_r|]. split.
      - intros pre path data post E. destruct pre; discriminate E.
      - intros c a st []. }
  destruct (Js.eqb d PackageManager.uv); norm; repeat head_case;
    (eexists; split; [reflexivity|]); cbn [app]; unfold_events;
    (split;
     [ intros pre path data post E; splits E
     | intros cmd0 args0 status0 Hin Hfail; cbn [In] in Hin;
       repeat (destruct Hin as [Hin|Hin];
               [first [discriminate Hin
                      |injection Hin as <- <- <-; try congruence]|]);
       try contradiction ]).
  all: try (split; [reflexivity|]; split;
            [unfold installed_before; cbn [last];
             split; [reflexivity | split; [assumption|]];
             match goal with
             | H : install_command ?p0 ?m ?f = (?c, ?a) |- _ =>
                 let Hi := fresh "Hi" in
                 pose proof (install_command_install p0 m f) as Hi;
                 rewrite H in Hi; exact Hi
             end
            |split; no_write_tac]).
  all: (split; [reflexivity|]); split;
    [match goal with
     | |- exists pre, ?L = _ => exists (removelast L); reflexivity
     end|];
    (split; [no_write_tac|]);
    (split;
     [intros q Hq
     |intros f Hm Hf; apply HashFacts.isVenvStale_shape]);
    repeat (eapply same_shape_trans;
            [match goal with H : quiet _ _ |- _ => apply H end|]);
    apply FsFacts.same_shape_refl.
Qed.

End ManagerFacts.

(** ** The claims on the lifecycle, at concrete inputs *)

Module ManagerExamples.
Import Manager ManagerFacts Scenario.

(** A project with a lockfile of uv, a manifest, a valid venv and the
    marker up to date. *)
Definition locked : Fs.filesystem :=
  hashed (installed with_manifest [file "uv.lock" []]).

(** C2, as stated, fails: the venv is valid, [force] is off, the
    manifest is found and the venv is not stale; [createOrUpdateVenv]
    returns [{created:false, updated:false}], and has spawned
    [uv --version]. *)
Lemma fast_path_spawns_probe :
  Venv.isVenvValid locked (venv proj) = true
  /\ resolved_manifest proj locked None = Some proj_manifest
  /\ Hash.isVenvStale locked (venv proj) proj_manifest = Ok false
  /\ createOrUpdateVenv calm proj None (fresh locked)
     = (Ok {| venvPath := venv proj; manager := PackageManager.uv;
              created := false; updated := false |},
        {| files := locked;
           trace := [Spawned (str "uv") [str "--version"] None
                             (Closed (Some 0%Z))] |}).
Proof.
  split; [vm_compute; reflexivity|].
  split; [vm_compute; reflexivity|].
  split; vm_compute; reflexivity.
Qed.

(** The same project without the lockfile: nothing is spawned. *)
Definition unlocked : Fs.filesystem := hashed (installed with_manifest []).

Lemma fast_path_witness :
  createOrUpdateVenv calm proj None (fresh unlocked)
  = (Ok {| venvPath := venv proj; manager := PackageManager.venv_pip;
           created := false; updated := false |}, fresh unlocked).
Proof.
  apply (fast_path calm proj None (fresh unlocked) (fresh unlocked)
           PackageManager.venv_pip proj_manifest);
    vm_compute; reflexivity.
Defined.

(** A valid venv, no manifest, the legacy manager preferred: the run
    reports an update and has run no command. *)
Definition bare : Fs.filesystem := installed [] [].

Lemma update_path_witness :
  createOrUpdateVenv legacy_host proj None (fresh bare)
  = (Ok {| venvPath := venv proj; manager := PackageManager.venv_pip;
           created := false; updated := true |},
     {| files := bare; trace := [ChannelShown; done] |}).
Proof.
  pose proof (update_path legacy_host proj None (fresh bare) (fresh bare)
                PackageManager.venv_pip) as H.
  destruct (createOrUpdateVenv legacy_host proj None (fresh bare))
    as [r w2].
  destruct H as (_ & _ & H).
  - vm_compute. reflexivity.
  - vm_compute. reflexivity.
  - right. left. vm_compute. reflexivity.
  - destruct H as [-> ->]; [vm_compute; reflexivity ..|]. reflexivity.
Defined.

(** A stale venv (no marker yet) and a host on which every command
    fails and leaves a log: the install fails, the failure is thrown,
    nothing else is written and the venv is stale as before. *)
Definition stale : Fs.filesystem := installed with_manifest [].

Lemma quiet_failing (q : jsstring) :
  Path.isAbsolute q = true ->
  Path.resolve_segs [] q <> Path.resolve_segs [] pip_log ->
  quiet failing q.
Proof.
  intros Ha Hq c a cwd fs. cbn [failing run snd].
  destruct (Fs.writeFileSync fs pip_log []) as [fs'|e] eqn:E;
    [|apply FsFacts.same_shape_refl].
  cbn [or_else]. apply (FsFacts.lookup_frame _ _ _ _ _ E).
  unfold FsFacts.same_file, Path.resolve_segs in *.
  rewrite Ha in *. exact Hq.
Qed.

Lemma hash_written_after_install_witness :
  let '(r, w2) := createOrUpdateVenv failing proj None (fresh stale) in
  r = Throw (CommandExited (Some 1%Z))
  /\ Fs.existsSync (files w2) pip_log = true
  /\ Hash.isVenvStale (files w2) (venv proj) proj_manifest = Ok true.
Proof.
  pose proof (hash_written_after_install failing proj None (fresh stale))
    as H.
  destruct (createOrUpdateVenv failing proj None (fresh stale))
    as [r w2] eqn:E.
  vm_compute in E. injection E as <- <-.
  split; [reflexivity | split; [vm_compute; reflexivity|]].
  destruct H as (evs & Ht & _ & Hfail). cbn [trace fresh app] in Ht.
  subst evs.
  destruct (Hfail (str "/ws/proj/.venv/bin/pip")
                  [str "install"; str "-r"; proj_manifest]
                  (Closed (Some 1%Z)))
    as (_ & _ & _ & _ & Hstale).
  - right. right. right. left. vm_compute. reflexivity.
  - reflexivity.
  - rewrite (Hstale proj_manifest).
    + vm_compute. reflexivity.
    + apply quiet_failing; [reflexivity|].
      vm_compute. intros D. discriminate D.
    + apply quiet_failing; [reflexivity|].
      vm_compute. intros D. discriminate D.
Defined.

End ManagerExamples.

(** ** Paths below a path *)

Module BelowFacts.
Import SegFacts PathFacts.

Lemma normalize_nonempty (p : jsstring) : Path.normalize p <> [].
Proof.
  destruct p as [|c p]; [discriminate|].
  rewrite normalize_eq by discriminate. cbv zeta.
  destruct (Path.normalizeString _ _) as [|d q].
  - destruct (Path.isAbsolute _); [discriminate|].
    destruct (Js.endsWith _ _); discriminate.
  - destruct (Path.isAbsolute _); [discriminate|].
    destruct (Js.endsWith _ _); discriminate.
Qed.

(** [path.join] never returns the empty string. *)
Lemma join_never_empty (args : list jsstring) : Path.join args <> [].
Proof.
  unfold Path.join. destruct (Js.join _ _) as [|c j]; [discriminate|].
  apply normalize_nonempty.
Qed.

Lemma join_app (a b : list jsstring) :
  a <> [] -> b <> [] ->
  Js.join Path.sep (a ++ b)
  = Js.join Path.sep a ++ Path.slash :: Js.join Path.sep b.
Proof.
  intros Ha Hb. induction a as [|x a IH]; [congruence|].
  destruct a as [|y a].
  - destruct b as [|z b]; [congruence | reflexivity].
  - change ((x :: y :: a) ++ b) with (x :: (y :: a) ++ b).
    change ((y :: a) ++ b) with (y :: a ++ b) at 1.
    rewrite (join_cons2 x y (a ++ b)).
    change (y :: a ++ b) with ((y :: a) ++ b).
    rewrite IH by discriminate. rewrite join_cons2.
    now rewrite <- app_assoc.
Qed.

Lemma endsWith_sep_names (p : jsstring) (ks : list jsstring) :
  valid ks -> ks <> [] ->
  Js.endsWith (p ++ Path.slash :: Js.join Path.sep ks) Path.sep = false.
Proof.
  intros Hv Hne. destruct (exists_last Hne) as (l & k & ->).
  apply Forall_app in Hv. destruct Hv as [_ Hk]. inversion Hk; subst.
  destruct l as [|x l]; [now apply endsWith_sep_name|].
  rewrite join_snoc by discriminate.
  change (p ++ Path.slash :: Js.join Path.sep (x :: l) ++ Path.slash :: k)
    with (p ++ (Path.slash :: Js.join Path.sep (x :: l)) ++ Path.slash :: k).
  rewrite app_assoc. now apply endsWith_sep_name.
Qed.

(** Normalising [base], a "/" and names: the segments of [base], then
    the names. *)
Lemma normalize_below (base : jsstring) (ks : list jsstring) :
  base <> [] -> valid ks -> ks <> [] ->
  Path.normalize (base ++ Path.slash :: Js.join Path.sep ks)
  = anchor base ++ Js.join Path.sep (segs_of base ++ ks).
Proof.
  intros Hbase Hv Hne.
  rewrite normalize_eq by (now destruct base). cbv zeta.
  rewrite isAbsolute_app, endsWith_sep_names by assumption.
  unfold Path.normalizeString.
  rewrite split_app_slash, split_join by (auto using valid_pieces).
  rewrite norm_segs_app by assumption.
  fold (segs_of base). unfold anchor.
  destruct (Js.join Path.sep (segs_of base ++ ks)) eqn:E;
    [|now destruct (Path.isAbsolute base)].
  apply join_nonempty in E; [contradiction| |].
  - apply Forall_app. split; [apply segs_of_pieces | now apply valid_pieces].
  - destruct (segs_of base); [exact Hne | discriminate].
Qed.

Lemma valid_nonempty (ks : list jsstring) :
  valid ks -> filter (fun a => negb (Js.eqb a [])) ks = ks.
Proof.
  induction 1 as [|k ks Hk _ IH]; [reflexivity|]. cbn [filter].
  apply valid_name_spec in Hk. destruct Hk as [Hk _].
  apply JsFacts.eqb_neq in Hk. now rewrite Hk, IH.
Qed.

(** [path.join(base, k1, ..., kn)] for names [k1], ..., [kn]. *)
Lemma join_below (base : jsstring) (ks : list jsstring) :
  base <> [] -> valid ks -> ks <> [] ->
  Path.join (base :: ks)
  = anchor base ++ Js.join Path.sep (segs_of base ++ ks).
Proof.
  intros Hbase Hv Hne. rewrite <- normalize_below by assumption.
  unfold Path.join. cbn [filter].
  apply JsFacts.eqb_neq in Hbase. rewrite Hbase. cbn [negb].
  rewrite valid_nonempty by assumption.
  destruct ks as [|k ks]; [congruence|].
  change (Js.join Path.sep (base :: k :: ks))
    with (base ++ Path.slash :: Js.join Path.sep (k :: ks)).
  apply JsFacts.eqb_neq in Hbase.
  destruct base as [|c base]; [congruence | reflexivity].
Qed.

(** [path.join(base, name)] for a name of several segments. *)
Lemma join_name (base : jsstring) (ks : list jsstring) :
  base <> [] -> valid ks -> ks <> [] ->
  Path.join [base; Js.join Path.sep ks]
  = anchor base ++ Js.join Path.sep (segs_of base ++ ks).
Proof.
  intros Hbase Hv Hne. rewrite <- normalize_below by assumption.
  pose proof (join_nonempty ks (valid_pieces _ Hv) Hne) as Hj.
  unfold Path.join. cbn [filter].
  apply JsFacts.eqb_neq in Hbase, Hj. rewrite Hbase, Hj. cbn [negb].
  apply JsFacts.eqb_neq in Hbase, Hj.
  destruct base as [|c base]; [congruence|].
  destruct (Js.join Path.sep ks) as [|d j]; [congruence | reflexivity].
Qed.

Lemma rendered_absolute (base : jsstring) (m : list jsstring) :
  pieces m ->
  Path.isAbsolute (anchor base ++ Js.join Path.sep m) = Path.isAbsolute base.
Proof.
  intros Hm. unfold anchor. destruct (Path.isAbsolute base); [reflexivity|].
  now apply join_relative.
Qed.

Lemma rendered_segs (base : jsstring) (ks : list jsstring) :
  valid ks -> ks <> [] ->
  segs_of (anchor base ++ Js.join Path.sep (segs_of base ++ ks))
  = segs_of base ++ ks.
Proof.
  intros Hv Hne.
  assert (Hp : pieces (segs_of base ++ ks)).
  { apply Forall_app. split; [apply segs_of_pieces | now apply valid_pieces]. }
  assert (Hm : segs_of base ++ ks <> [])
    by (destruct (segs_of base); [exact Hne | discriminate]).
  unfold segs_of at 1. rewrite rendered_absolute by exact Hp.
  assert (Es : Js.split Path.slash
                 (anchor base ++ Js.join Path.sep (segs_of base ++ ks))
               = (if Path.isAbsolute base then [[]] else [])
                 ++ segs_of base ++ ks).
  { unfold anchor. destruct (Path.isAbsolute base).
    - change (Path.sep ++ Js.join Path.sep (segs_of base ++ ks))
        with ([] ++ Path.slash :: Js.join Path.sep (segs_of base ++ ks)).
      now rewrite split_app_slash, split_join by assumption.
    - cbn [app]. now rewrite split_join. }
  rewrite Es, app_assoc, norm_segs_app by assumption. f_equal.
  pose proof (segs_of_fixed base) as Hfix.
  destruct (Path.isAbsolute base); cbn [negb app] in *; [|exact Hfix].
  rewrite norm_drop by reflexivity. exact Hfix.
Qed.

(** The segments [path.resolve] gives for a path rendered from the
    segments of [base] and names. *)
Lemma resolve_segs_rendered (cwd base : jsstring) (ks : list jsstring) :
  valid ks -> ks <> [] ->
  Path.resolve_segs cwd
    (anchor base ++ Js.join Path.sep (segs_of base ++ ks))
  = Path.resolve_segs cwd base ++ ks.
Proof.
  intros Hv Hne. rewrite !resolve_segs_eq.
  rewrite rendered_segs by assumption.
  rewrite rendered_absolute.
  - rewrite app_assoc. now apply norm_segs_app.
  - apply Forall_app. split; [apply segs_of_pieces | now apply valid_pieces].
Qed.

Lemma resolve_segs_join (cwd base : jsstring) (ks : list jsstring) :
  base <> [] -> valid ks -> ks <> [] ->
  Path.resolve_segs cwd (Path.join (base :: ks))
  = Path.resolve_segs cwd base ++ ks.
Proof.
  intros Hb Hv Hne. rewrite join_below by assumption.
  now apply resolve_segs_rendered.
Qed.

(** The segments of [p], a "/" and names. *)
Lemma resolve_segs_below (cwd p : jsstring) (ks : list jsstring) :
  p <> [] -> valid ks -> ks <> [] ->
  Path.resolve_segs cwd (p ++ Path.slash :: Js.join Path.sep ks)
  = Path.resolve_segs cwd p ++ ks.
Proof.
  intros Hp Hv Hne. unfold Path.resolve_segs.
  rewrite isAbsolute_app by exact Hp.
  destruct (Path.isAbsolute p).
  - rewrite split_app_slash, split_join by (auto using valid_pieces).
    now apply norm_segs_app.
  - change (cwd ++ Path.sep ++ p ++ Path.slash :: Js.join Path.sep ks)
      with (cwd ++ (Path.sep ++ p) ++ Path.slash :: Js.join Path.sep ks).
    rewrite app_assoc.
    rewrite split_app_slash, split_join by (auto using valid_pieces).
    now apply norm_segs_app.
Qed.

(** The node at [path.join(base, k1, ..., kn)]: from the node at [base],
    down the names. *)
Lemma lookup_below (fs : Fs.filesystem) (base : jsstring)
    (ks : list jsstring) :
  base <> [] -> valid ks -> ks <> [] ->
  Fs.lookup fs (Path.join (base :: ks))
  = match Fs.lookup fs base with
    | Some n => Fs.walk n ks
    | None => None
    end.
Proof.
  intros Hb Hv Hne.
  rewrite !lookup_eq by (exact Hb || apply join_never_empty).
  now rewrite resolve_segs_join, walk_app by assumption.
Qed.

Lemma strip_common_prefix (a x : list jsstring) :
  Path.strip_common a (a ++ x) = ([], x).
Proof.
  induction a as [|k a IH]; [now destruct x|].
  cbn [app Path.strip_common]. now rewrite JsFacts.eqb_refl.
Qed.

(** [path.relative(base, p)] for a path [p] below [base]: the names
    that lead from [base] to [p]. *)
Lemma relative_below (cwd base : jsstring) (ks : list jsstring) :
  base <> [] -> valid ks -> ks <> [] ->
  Path.relative cwd base (base ++ Path.slash :: Js.join Path.sep ks)
  = Js.join Path.sep ks.
Proof.
  intros Hb Hv Hne. unfold Path.relative.
  rewrite resolve_segs_below by assumption.
  now rewrite strip_common_prefix.
Qed.

End BelowFacts.

(** ** Requirements files of a project *)

Module RequirementsFacts.
Import SegFacts PathFacts.


(** X1: for a project path that is not the empty string,
    [findRequirementsFile] looks at the entries of the directory there:
    it returns the path of the first of requirements.txt,
    requirements-dev.txt and requirements-cpu.txt, in this order, that the
    directory has an entry for (of any kind), and nothing when the
    directory has none of them or the path is not a directory. *)
Theorem findRequirementsFile_entries (fs : Fs.filesystem) (p : jsstring) :
  p <> [] ->
  Hash.findRequirementsFile fs p
  = match Fs.lookup fs p with
    | Some (Fs.Dir es) =>
        option_map (fun c => Path.join [p; c])
          (find (fun c => ProjectsFacts.has_entry c es) Hash.candidates)
    | _ => None
    end.
Proof.
  intros Hp. unfold Hash.findRequirementsFile, Hash.candidates.
  cbn [map find]. unfold Fs.existsSync.
  rewrite !lookup_child by (exact Hp || reflexivity).
  destruct (Fs.lookup fs p) as [[c|es]|]; [reflexivity| |reflexivity].
  unfold ProjectsFacts.has_entry.
  destruct (Fs.find_entry (str "requirements.txt") es); [reflexivity|].
  destruct (Fs.find_entry (str "requirements-dev.txt") es); [reflexivity|].
  destruct (Fs.find_entry (str "requirements-cpu.txt") es); reflexivity.
Qed.

(** *** The order of strings *)

Lemma compare_le (a : jsstring) :
  forall b, (Js.compare a b <= 0)%Z \/ (Js.compare a b = 1)%Z.
Proof.
  induction a as [|c a IH]; intros [|d b]; cbn [Js.compare]; try lia.
  destruct (N.ltb c d); [lia|]. destruct (N.ltb d c); [lia | apply IH].
Qed.

Lemma compare_total (a : jsstring) :
  forall b, (0 < Js.compare a b)%Z -> (Js.compare b a <= 0)%Z.
Proof.
  induction a as [|c a IH]; intros [|d b]; cbn [Js.compare]; try lia.
  destruct (N.ltb c d) eqn:E1; [lia|].
  destruct (N.ltb d c) eqn:E2; [lia | apply IH].
Qed.

Lemma compare_trans (a : jsstring) :
  forall b c, (Js.compare a b <= 0)%Z -> (Js.compare b c <= 0)%Z ->
              (Js.compare a c <= 0)%Z.
Proof.
  induction a as [|x a IH]; intros [|y b] [|z c]; cbn [Js.compare];
    try lia.
  destruct (N.ltb x y) eqn:Exy.
  - intros _. destruct (N.ltb y z) eqn:Eyz.
    + intros _. apply N.ltb_lt in Exy, Eyz.
      assert (H : N.ltb x z = true) by (apply N.ltb_lt; lia).
      rewrite H. lia.
    + destruct (N.ltb z y) eqn:Ezy; [lia|]. intros _.
      apply N.ltb_lt in Exy. apply N.ltb_ge in Eyz, Ezy.
      assert (H : N.ltb x z = true) by (apply N.ltb_lt; lia).
      rewrite H. lia.
  - destruct (N.ltb y x) eqn:Eyx; [lia|]. intros Hab.
    apply N.ltb_ge in Exy, Eyx. assert (x = y) by lia. subst y.
    destruct (N.ltb x z); [lia|]. destruct (N.ltb z x); [lia|].
    now apply IH.
Qed.

(** [a] comes before or is [b]. *)
Definition ascending (a b : jsstring) : Prop := (Js.compare a b <= 0)%Z.

(** *** Names of requirements files *)

(** The names [/^requirements.*\.txt$/] matches: "requirements", a
    middle on one line, ".txt". *)
Lemma is_requirements_name_iff (f : jsstring) :
  Hash.is_requirements_name f = true
  <-> exists middle,
        f = str "requirements" ++ middle ++ str ".txt"
        /\ Forall (fun c => Hash.is_line_terminator c = false) middle.
Proof.
  unfold Hash.is_requirements_name. split.
  - rewrite andb_true_iff, JsFacts.startsWith_iff.
    intros [[rest ->] H].
    assert (Es : skipn 12 (str "requirements" ++ rest) = rest) by reflexivity.
    rewrite Es in H. cbv zeta in H. apply andb_true_iff in H.
    destruct H as [He Hm]. unfold Js.endsWith in He.
    apply JsFacts.startsWith_iff in He. destruct He as [u Hu].
    apply (f_equal (@rev N)) in Hu.
    rewrite rev_involutive, rev_app_distr, rev_involutive in Hu. subst rest.
    exists (rev u). split; [reflexivity|].
    rewrite length_app in Hm.
    replace (length (rev u) + length (str ".txt") - 4) with (length (rev u))
      in Hm by (cbn [length str]; simpl; lia).
    rewrite firstn_app, firstn_all, Nat.sub_diag in Hm. cbn [firstn] in Hm.
    rewrite app_nil_r in Hm. rewrite forallb_forall in Hm.
    apply Forall_forall. intros c Hc. now apply negb_true_iff, Hm.
  - intros (middle & -> & Hm).
    rewrite JsFacts.startsWith_app. cbn [andb].
    assert (Es : skipn 12 (str "requirements" ++ middle ++ str ".txt")
                 = middle ++ str ".txt") by reflexivity.
    rewrite Es. cbv zeta. apply andb_true_iff. split.
    + unfold Js.endsWith. rewrite rev_app_distr.
      apply JsFacts.startsWith_app.
    + rewrite length_app.
      replace (length middle + length (str ".txt") - 4) with (length middle)
        by (cbn [length str]; simpl; lia).
      rewrite firstn_app, firstn_all, Nat.sub_diag. cbn [firstn].
      rewrite app_nil_r. apply forallb_forall. intros c Hc.
      rewrite Forall_forall in Hm. now apply negb_true_iff, Hm.
Qed.

(** X2: [findAllRequirementsFiles] returns its paths in ascending order
    of code units; the paths are those of [path.join(projectPath, f)] for
    the entries [f] of the directory that are "requirements", a middle on
    one line, and ".txt"; when the directory cannot be listed the result
    is empty. *)
Theorem findAllRequirementsFiles_spec (fs : Fs.filesystem) (p : jsstring) :
  let found := Hash.findAllRequirementsFiles fs p in
  StronglySorted ascending found
  /\ (forall f,
        In f found
        <-> exists es e middle,
              Fs.readdirSync fs p = Ok es /\ In e es
              /\ Fs.name e = str "requirements" ++ middle ++ str ".txt"
              /\ Forall (fun c => Hash.is_line_terminator c = false) middle
              /\ f = Path.join [p; Fs.name e])
  /\ (forall e, Fs.readdirSync fs p = Throw e -> found = []).
Proof.
  intros found. subst found. unfold Hash.findAllRequirementsFiles.
  destruct (Fs.readdirSync fs p) as [es|err]; split; try split.
  - apply (sort_ordered Js.compare compare_total compare_trans).
  - intros f. rewrite sort_In, in_map_iff. split.
    + intros (k & <- & Hk). apply filter_In in Hk. destruct Hk as [Hk Hr].
      apply in_map_iff in Hk. destruct Hk as (e & <- & He).
      apply is_requirements_name_iff in Hr. destruct Hr as (middle & Hn & Hm).
      now exists es, e, middle.
    + intros (es' & e & middle & [= <-] & He & Hn & Hm & ->).
      exists (Fs.name e). split; [reflexivity|]. apply filter_In. split.
      * now apply in_map.
      * apply is_requirements_name_iff. now exists middle.
  - discriminate.
  - constructor.
  - intros f. split; [intros [] | intros (es & e & m & H & _); discriminate H].
  - reflexivity.
Qed.


End RequirementsFacts.

(** ** The stored hash *)

Module StoreFacts.
Import Fs.

Lemma trimEnd_newline (s : jsstring) :
  Js.trimEnd (s ++ str newline) = Js.trimEnd s.
Proof.
  unfold Js.trimEnd. rewrite rev_app_distr. reflexivity.
Qed.

(** The newline [writeHash] adds is trimmed away with the rest. *)
Lemma trim_newline (s : jsstring) : Js.trim (s ++ str newline) = Js.trim s.
Proof.
  unfold Js.trim. induction s as [|c s IH]; [reflexivity|].
  cbn [app Js.trimStart]. destruct (Js.is_space c); [exact IH|].
  apply (trimEnd_newline (c :: s)).
Qed.

(** X4: a hash of ASCII characters written with [writeHash] is what
    [readStoredHash] then returns, trimmed: the newline added after it is
    not read back, and neither is white space around the hash. *)
Theorem stored_hash_round_trip (fs fs1 : filesystem) (venvPath h : jsstring) :
  Forall (fun c => (c < 0x80)%N) h ->
  Hash.writeHash fs venvPath h = Ok fs1 ->
  Hash.readStoredHash fs1 venvPath = Ok (Some (Js.trim h)).
Proof.
  intros Hh Hw. unfold Hash.writeHash in Hw.
  apply FsFacts.lookup_written in Hw.
  unfold Hash.readStoredHash, existsSync, readFileSync.
  rewrite Hw. cbn [negb rbind].
  rewrite Utf8Facts.decode_encode_ascii.
  - now rewrite trim_newline.
  - apply Forall_app. split; [exact Hh | repeat constructor].
Qed.

(** Below a path that is not a directory nothing can be written. *)
Lemma write_below_no_directory (data : list byte) (m : jsstring)
    (l : list jsstring) :
  forall n,
    (forall es, walk n l <> Some (Dir es)) ->
    write n (l ++ [m]) data = Throw ENOENT
    \/ write n (l ++ [m]) data = Throw ENOTDIR.
Proof.
  induction l as [|s rest IH]; intros n H.
  - destruct n as [c|es]; [right; reflexivity | now elim (H es)].
  - destruct n as [c|es];
      [right; cbn [app]; destruct (rest ++ [m]); reflexivity|].
    assert (E : write (Dir es) ((s :: rest) ++ [m]) data
                = match find_entry s es with
                  | Some child =>
                      match write child (rest ++ [m]) data with
                      | Ok child' => Ok (Dir (set_entry s child' es))
                      | Throw e => Throw e
                      end
                  | None => Throw ENOENT
                  end).
    { cbn [app]. destruct (rest ++ [m]) as [|s' rest'] eqn:Er;
        [now destruct rest | reflexivity]. }
    rewrite E. cbn [walk] in H.
    destruct (find_entry s es) as [child|]; [|now left].
    destruct (IH child H) as [-> | ->]; auto.
Qed.

(** X5: [writeHash] does not create the venv directory: for a venv path
    (not the empty string) at which there is no directory it throws
    ENOENT or ENOTDIR, and stores nothing. *)
Theorem writeHash_needs_directory (fs : filesystem) (venvPath h : jsstring) :
  venvPath <> [] ->
  (forall es, lookup fs venvPath <> Some (Dir es)) ->
  Hash.writeHash fs venvPath h = Throw ENOENT
  \/ Hash.writeHash fs venvPath h = Throw ENOTDIR.
Proof.
  intros Hv Hd. unfold Hash.writeHash, writeFileSync.
  pose proof (PathFacts.join_child_nonempty venvPath Hash.HASH_FILENAME Hv
                eq_refl) as Hj.
  destruct (Path.join [venvPath; Hash.HASH_FILENAME]) as [|c j] eqn:Ej;
    [congruence|].
  rewrite <- Ej, PathFacts.resolve_segs_child by (exact Hv || reflexivity).
  rewrite PathFacts.lookup_eq in Hd by exact Hv.
  destruct (write_below_no_directory
              (Utf8.encode (h ++ str newline)) Hash.HASH_FILENAME
              (Path.resolve_segs (cwd fs) venvPath) (root fs) Hd)
    as [-> | ->]; auto.
Qed.

End StoreFacts.

(** ** The walk of the venv locator *)

Module LocatorFacts.
Import Venv.

(** The directory [n] steps above [current]. *)
Definition above (n : nat) (current : jsstring) : jsstring :=
  Nat.iter n Path.dirname current.

Lemma above_succ (n : nat) (current : jsstring) :
  above (S n) current = above n (Path.dirname current).
Proof. unfold above. now rewrite Nat.iter_succ_r. Qed.

(** [d] holds a venv: [d/.venv] is a directory. *)
Definition holds_venv (fs : Fs.filesystem) (d : jsstring) : bool :=
  match Fs.lookup fs (Path.join [d; str ".venv"]) with
  | Some (Fs.Dir _) => true
  | _ => false
  end.

(** What the loop returns, when it ends: the venv of the first directory
    above [current] that holds one, all directories up to it starting
    with [root] and being other than [root]; or nothing, when the walk
    comes to [root] or to a directory that does not start with [root]
    before it finds one. *)
Lemma walk_up_spec (fs : Fs.filesystem) (root : jsstring) :
  forall (fuel : nat) (current : jsstring) (r : option jsstring),
    walk_up fuel fs root current = Some r ->
    exists n,
      (forall m, m < n ->
         Js.startsWith (above m current) root = true
         /\ holds_venv fs (above m current) = false
         /\ above m current <> root)
      /\ match r with
         | Some v =>
             v = Path.join [above n current; str ".venv"]
             /\ Js.startsWith (above n current) root = true
             /\ holds_venv fs (above n current) = true
         | None =>
             Js.startsWith (above n current) root = false
             \/ (above n current = root
                 /\ holds_venv fs (above n current) = false)
         end.
Proof.
  induction fuel as [|fuel IH]; intros current r; [discriminate|].
  cbn [walk_up]. cbv zeta.
  destruct (Js.startsWith current root) eqn:Es.
  2:{ intros [= <-]. exists 0. split; [intros m Hm; lia | now left]. }
  assert (Hh : holds_venv fs current
               = match Fs.lookup fs (Path.join [current; str ".venv"]) with
                 | Some (Fs.Dir _) => true
                 | _ => false
                 end) by reflexivity.
  destruct (holds_venv fs current) eqn:Ev.
  - destruct (Fs.lookup fs (Path.join [current; str ".venv"]))
      as [[c|es]|]; try discriminate Hh.
    intros [= <-]. exists 0. split; [intros m Hm; lia|]. cbn [above Nat.iter].
    unfold holds_venv in Ev. auto.
  - assert (Hstep : (if Js.eqb current root then Some None
                     else walk_up fuel fs root (Path.dirname current))
                    = Some r ->
                    exists n,
                      (forall m, m < n ->
                         Js.startsWith (above m current) root = true
                         /\ holds_venv fs (above m current) = false
                         /\ above m current <> root)
                      /\ match r with
                         | Some v =>
                             v = Path.join [above n current; str ".venv"]
                             /\ Js.startsWith (above n current) root = true
                             /\ holds_venv fs (above n current) = true
                         | None =>
                             Js.startsWith (above n current) root = false
                             \/ (above n current = root
                                 /\ holds_venv fs (above n current) = false)
                         end).
    { destruct (Js.eqb current root) eqn:Ee.
      - intros [= <-]. apply JsFacts.eqb_eq in Ee. exists 0.
        split; [intros m Hm; lia | right; auto].
      - intros H. apply IH in H. destruct H as (n & Hbefore & Hr).
        apply JsFacts.eqb_neq in Ee. exists (S n). split.
        + intros [|m] Hm; [cbn [above Nat.iter]; auto|].
          rewrite above_succ. apply Hbefore. lia.
        + rewrite above_succ. exact Hr. }
    destruct (Fs.lookup fs (Path.join [current; str ".venv"]))
      as [[c|es]|]; try discriminate Hh; exact Hstep.
Qed.

(** X6: [findVenvForFile] throws exactly when its first call,
    [statSync(filePath)], throws, and then what that call throws; when
    [statSync(filePath)] returns, the loop ends, nothing else throws and
    [findVenvForFile] returns. *)
Theorem findVenvForFile_returns (fs : Fs.filesystem)
    (filePath workspaceRoot : jsstring) :
  match Fs.statSync fs filePath with
  | Throw e => findVenvForFile fs filePath workspaceRoot = Throw e
  | Ok _ => exists r, findVenvForFile fs filePath workspaceRoot = Ok r
  end.
Proof.
  pose proof (VenvFacts.findVenvForFile_ends fs filePath workspaceRoot) as He.
  unfold findVenvForFile in *.
  destruct (Fs.statSync fs filePath) as [st|e]; cbn [rbind] in *;
    [|reflexivity].
  destruct (walk_up _ fs _ _) as [r|]; [now exists r | congruence].
Qed.

(** Where the walk starts: the path itself for a directory, else the
    directory [path.dirname] gives. *)
Definition start_of (fs : Fs.filesystem) (filePath : jsstring) : jsstring :=
  match Fs.lookup fs filePath with
  | Some (Fs.Dir _) => filePath
  | _ => Path.dirname filePath
  end.

(** X7: a venv [findVenvForFile] returns is [d/.venv] for a directory [d]
    some steps of [path.dirname] above the start, it is a directory, [d]
    starts with the resolved workspace root as a string, and no directory
    on the way to [d] holds a venv or is the root: the nearest venv wins.
    When it returns nothing, the walk has passed directories without a
    venv and come to the root, or to a path that does not start with the
    root. *)
Theorem findVenvForFile_nearest (fs : Fs.filesystem)
    (filePath workspaceRoot : jsstring) (r : option jsstring) :
  findVenvForFile fs filePath workspaceRoot = Ok r ->
  let root := Path.resolve (Fs.cwd fs) workspaceRoot in
  let start := start_of fs filePath in
  exists n,
    (forall m, m < n ->
       Js.startsWith (above m start) root = true
       /\ holds_venv fs (above m start) = false
       /\ above m start <> root)
    /\ match r with
       | Some v =>
           v = Path.join [above n start; str ".venv"]
           /\ Js.startsWith (above n start) root = true
           /\ (exists es, Fs.lookup fs v = Some (Fs.Dir es))
       | None =>
           Js.startsWith (above n start) root = false
           \/ (above n start = root /\ holds_venv fs (above n start) = false)
       end.
Proof.
  intros H root start. unfold findVenvForFile, Fs.statSync in H.
  subst start. unfold start_of.
  destruct (Fs.lookup fs filePath) as [st|]; cbn [rbind] in H;
    [|discriminate H].
  destruct (walk_up _ fs _ _) as [r'|] eqn:E; [|discriminate H].
  injection H as ->. apply walk_up_spec in E.
  assert (Es : (if Fs.isDirectory st then filePath else Path.dirname filePath)
               = match st with
                 | Fs.Dir _ => filePath
                 | _ => Path.dirname filePath
                 end) by now destruct st.
  rewrite Es in E. destruct E as (n & Hbefore & Hr).
  exists n. split; [exact Hbefore|].
  destruct r as [v|]; [|exact Hr].
  destruct Hr as (-> & Hs & Hv). split; [reflexivity | split; [exact Hs|]].
  unfold holds_venv in Hv.
  destruct (Fs.lookup fs (Path.join [_; str ".venv"])) as [[c|es]|];
    try discriminate Hv.
  now exists es.
Qed.

End LocatorFacts.

(** ** More on the venv lifecycle *)

Module LifecycleFacts.
Import Manager ManagerFacts SegFacts PathFacts BelowFacts.

(** X8: [resolvePackageManager] answers 'uv' only when, in this call, the
    [uv --version] probe was run and closed with exit code 0; the probe is
    the one event it can add, and it adds it exactly when detection says
    'uv', answering 'venv+pip' when the probe does not close with code 0;
    otherwise detection's answer, or what it throws, comes back and the
    world is as it was. *)
Theorem resolvePackageManager_probe (h : host) (p : jsstring) (w : world) :
  let '(r, w1) := resolvePackageManager h p w in
  (r = Ok PackageManager.uv ->
   exists st, trace w1 = trace w ++ [probe st] /\ succeeded st = true)
  /\ match PackageManager.detectPackageManager (settings h) (files w) p with
     | Throw e => r = Throw e /\ w1 = w
     | Ok m =>
         if Js.eqb m PackageManager.uv then
           exists st,
             trace w1 = trace w ++ [probe st]
             /\ r = Ok (if succeeded st then PackageManager.uv
                        else PackageManager.venv_pip)
         else r = Ok m /\ w1 = w
     end.
Proof.
  rewrite resolvePackageManager_eq.
  destruct (PackageManager.detectPackageManager _ _ _) as [m|e].
  2:{ split; [discriminate | auto]. }
  destruct (Js.eqb m PackageManager.uv) eqn:E.
  - apply JsFacts.eqb_eq in E. subst m. cbv zeta.
    destruct (run h _ _ None (files w)) as [st fs']. cbn [fst snd trace].
    split; [|now exists st].
    destruct (succeeded st) eqn:Es; [intros _; now exists st|].
    intros H. vm_compute in H. discriminate H.
  - split; [|auto]. intros [= ->]. now rewrite JsFacts.eqb_refl in E.
Qed.

(** The run once the manager is resolved. *)
Lemma createOrUpdateVenv_resolved (h : host) (p : jsstring)
    (opts : option options) (w w1 : world) (m : jsstring) :
  resolvePackageManager h p w = (Ok m, w1) ->
  createOrUpdateVenv h p opts w
  = match up_to_date p (files w1) opts with
    | Ok true =>
        (Ok {| venvPath := venv p; manager := m;
               created := false; updated := false |}, w1)
    | Ok false =>
        let '(r, fs2, evs) :=
          act_outcome h p m (Venv.isVenvValid (files w1) (venv p))
            (resolved_manifest p (files w1) opts) (files w1) in
        (r, {| files := fs2; trace := trace w1 ++ evs |})
    | Throw e => (Throw e, w1)
    end.
Proof.
  intros H. rewrite createOrUpdateVenv_act, H.
  destruct (up_to_date p (files w1) opts) as [[|]|e]; try reflexivity.
  apply act_eq.
Qed.

(** What the install phase adds comes after what was there, and what it
    returns is the report. *)
Lemma install_outcome_shape (h : host) (p m : jsstring) (exists_ : bool)
    (manifest : option jsstring) (fs : Fs.filesystem) (before : list event) :
  let '(r, fs2, evs) := install_outcome h p m exists_ manifest fs before in
  (exists more, evs = before ++ more)
  /\ forall res, r = Ok res -> res = report p m exists_.
Proof.
  unfold install_outcome. destruct manifest as [f|].
  - destruct (install_command p m f) as [c a]. norm.
    destruct (succeeded _); norm;
      [destruct (Hash.hashFile _ f) as [hash|e]; norm;
       [destruct (Hash.writeHash _ _ hash) as [fs'|e]; norm|]|];
      (split; [rewrite <- ?app_assoc; eexists; reflexivity|]);
      intros res [= <-]; reflexivity.
  - destruct (wants_sync p m fs); norm; [destruct (succeeded _); norm|];
      (split; [rewrite <- ?app_assoc; eexists; reflexivity|]);
      intros res [= <-]; reflexivity.
Qed.

(** X9: when the venv is not valid, [createOrUpdateVenv] opens the
    channel and first runs the creation command of the resolved manager,
    [uv venv <venv>] for 'uv' and [python3 -m venv <venv>] otherwise, in
    the project directory; when that command does not close with code 0
    the run throws its failure and does nothing more, and a result that is
    returned is [{created: true, updated: false}] for the venv
    [<projectPath>/.venv] and the resolved manager. *)
Theorem create_path (h : host) (p : jsstring) (opts : option options)
    (w w1 : world) (m : jsstring) :
  resolvePackageManager h p w = (Ok m, w1) ->
  Venv.isVenvValid (files w1) (venv p) = false ->
  let c := fst (create_command p m) in
  let a := snd (create_command p m) in
  let out := run h c a (Some p) (files w1) in
  let '(r, w2) := createOrUpdateVenv h p opts w in
  (exists more,
     trace w2
     = trace w1 ++ [ChannelShown; creating p m; shown c a;
                    Spawned c a (Some p) (fst out)] ++ more
     /\ (succeeded (fst out) = false ->
         more = [] /\ r = Throw (error_of (fst out))
         /\ files w2 = snd out))
  /\ forall res,
       r = Ok res ->
       succeeded (fst out) = true
       /\ res = {| venvPath := Path.join [p; str ".venv"]; manager := m;
                   created := true; updated := false |}.
Proof.
  intros Hr Hv c a out.
  rewrite (createOrUpdateVenv_resolved h p opts w w1 m Hr).
  assert (Hup : up_to_date p (files w1) opts = Ok false).
  { unfold up_to_date. now rewrite Hv. }
  rewrite Hup, Hv. unfold act_outcome. subst c a out.
  destruct (create_command p m) as [c a]. norm.
  destruct (succeeded (fst (run h c a (Some p) (files w1)))) eqn:Es; norm.
  - pose proof (install_outcome_shape h p m false
                  (resolved_manifest p (files w1) opts)
                  (snd (run h c a (Some p) (files w1)))
                  [ChannelShown; creating p m; shown c a;
                   Spawned c a (Some p)
                     (fst (run h c a (Some p) (files w1)))]) as Hs.
    destruct (install_outcome _ _ _ _ _ _ _) as [[r fs2] evs]. norm.
    destruct Hs as [[more ->] Hres]. split.
    + exists more. split; [reflexivity | discriminate].
    + intros res Hok. split; [reflexivity | now apply Hres].
  - split; [exists []; auto | discriminate].
Qed.

(** The digest of a manifest, once stored, makes the venv up to date. *)
Lemma stored_fresh (fs fs' : Fs.filesystem) (v f hash : jsstring) :
  Hash.hashFile fs f = Ok hash ->
  Hash.writeHash fs v hash = Ok fs' ->
  ~ FsFacts.same_file fs' f (HashFacts.marker v) ->
  Hash.isVenvStale fs' v f = Ok false.
Proof.
  intros Hh Hw Hne. unfold Hash.hashFile in Hh.
  destruct (Fs.readFileSync fs f) as [content|e] eqn:Er; [|discriminate Hh].
  cbn [rbind] in Hh. injection Hh as <-.
  pose proof (HashFacts.readStoredHash_written _ _ _ _
                (MD5Facts.md5_hex_plain content) Hw) as Hs.
  unfold Hash.writeHash in Hw. fold (HashFacts.marker v) in Hw.
  pose proof (FsFacts.writeFileSync_cwd _ _ _ _ Hw) as Hc.
  assert (Hne' : ~ FsFacts.same_file fs f (HashFacts.marker v)).
  { unfold FsFacts.same_file in *. now rewrite <- Hc. }
  pose proof (FsFacts.lookup_frame _ _ _ _ _ Hw Hne') as Hf.
  apply FsFacts.same_shape_read in Hf. destruct Hf as [Hf _].
  rewrite (HashFacts.isVenvStale_stored _ _ f _ content Hs)
    by now rewrite Hf.
  now rewrite JsFacts.eqb_refl.
Qed.

Lemma install_outcome_fresh (h : host) (p m f : jsstring) (exists_ : bool)
    (fs fs2 : Fs.filesystem) (before evs : list event)
    (res : CreateVenvResult) :
  install_outcome h p m exists_ (Some f) fs before = (Ok res, fs2, evs) ->
  ~ FsFacts.same_file fs2 f (HashFacts.marker (venv p)) ->
  Hash.isVenvStale fs2 (venv p) f = Ok false.
Proof.
  unfold install_outcome. destruct (install_command p m f) as [c a]. norm.
  destruct (succeeded _); norm; [|discriminate].
  destruct (Hash.hashFile _ f) as [hash|e] eqn:Eh; norm; [|discriminate].
  destruct (Hash.writeHash _ _ hash) as [fs'|e] eqn:Ew; norm; [|discriminate].
  intros [= _ <- _] Hne. now apply (stored_fresh _ _ _ _ hash Eh Ew).
Qed.

(** X10: whenever [createOrUpdateVenv] returns a result and a manifest was
    resolved, the venv is not stale for that manifest in the files it
    leaves (the manifest being another file than the marker): a call right
    after finds nothing to install. *)
Theorem returns_up_to_date (h : host) (p : jsstring) (opts : option options)
    (w w1 w2 : world) (m f : jsstring) (res : CreateVenvResult) :
  resolvePackageManager h p w = (Ok m, w1) ->
  resolved_manifest p (files w1) opts = Some f ->
  createOrUpdateVenv h p opts w = (Ok res, w2) ->
  ~ FsFacts.same_file (files w2) f (HashFacts.marker (venv p)) ->
  Hash.isVenvStale (files w2) (venv p) f = Ok false.
Proof.
  intros Hr Hf Hc Hne.
  rewrite (createOrUpdateVenv_resolved h p opts w w1 m Hr) in Hc.
  destruct (up_to_date p (files w1) opts) as [[|]|e] eqn:Eu;
    [| |discriminate Hc].
  - injection Hc as _ <-. unfold up_to_date in Eu. rewrite Hf in Eu.
    destruct (Venv.isVenvValid _ _ && negb (forced opts));
      [|discriminate Eu].
    destruct (Hash.isVenvStale (files w1) (venv p) f) as [[|]|e];
      (discriminate Eu || reflexivity).
  - rewrite Hf in Hc. unfold act_outcome in Hc.
    destruct (Venv.isVenvValid (files w1) (venv p)).
    + destruct (install_outcome _ _ _ _ _ _ _) as [[r fs2] evs] eqn:Ei.
      injection Hc as -> <-. cbn [files] in Hne.
      now apply (install_outcome_fresh _ _ _ _ _ _ _ _ _ _ Ei).
    + destruct (create_command p m) as [c a]. norm.
      destruct (succeeded _); norm; [|discriminate Hc].
      destruct (install_outcome _ _ _ _ _ _ _) as [[r fs2] evs] eqn:Ei.
      injection Hc as -> <-. cbn [files] in Hne.
      now apply (install_outcome_fresh _ _ _ _ _ _ _ _ _ _ Ei).
Qed.

(** The path of pip in a venv is not the command [uv]. *)
Lemma pip_not_uv (v : jsstring) :
  Js.eqb (Path.join [v; str "bin"; str "pip"]) (str "uv") = false.
Proof.
  apply JsFacts.eqb_neq. intros E.
  destruct (list_eq_dec N.eq_dec v []) as [->|Hv]; [discriminate E|].
  rewrite join_below in E by first [exact Hv | discriminate | repeat
    constructor].
  assert (Hin : In Path.slash (str "uv")).
  { rewrite <- E. apply in_or_app. right.
    change (segs_of v ++ [str "bin"; str "pip"])
      with (segs_of v ++ [str "bin"] ++ [str "pip"]).
    rewrite app_assoc, join_snoc by (now destruct (segs_of v)).
    apply in_elt. }
  destruct Hin as [H|[H|[]]]; discriminate H.
Qed.

(** The commands of the run after the manager is resolved. *)
Lemma act_outcome_commands (h : host) (p m : jsstring) (exists_ : bool)
    (manifest : option jsstring) (fs : Fs.filesystem) :
  let '(r, fs2, evs) := act_outcome h p m exists_ manifest fs in
  forall c a cwd st,
    In (Spawned c a cwd st) evs ->
    cwd = Some p /\ Js.eqb c (str "uv") = Js.eqb m PackageManager.uv.
Proof.
  unfold act_outcome, install_outcome, create_command, install_command,
    wants_sync.
  pose proof (pip_not_uv (venv p)) as Hpip.
  destruct (Js.eqb m PackageManager.uv) eqn:Em; norm;
    destruct exists_; norm;
    destruct manifest as [f|]; norm;
    repeat match goal with
      | |- context [succeeded ?x] => destruct (succeeded x) eqn:?; norm
      | |- context [Hash.hashFile ?a ?b] =>
          destruct (Hash.hashFile a b) eqn:?; norm
      | |- context [Hash.writeHash ?a ?b ?c] =>
          destruct (Hash.writeHash a b c) eqn:?; norm
      | |- context [Fs.existsSync ?a ?b] =>
          destruct (Fs.existsSync a b) eqn:?; norm
      end;
    unfold_events; intros cmd0 args0 cwd0 status0 Hin; cbn [In app] in Hin;
    repeat (destruct Hin as [Hin|Hin];
            [first [discriminate Hin
                   |injection Hin as <- <- <- <-; split;
                    [reflexivity | first [reflexivity | exact Hpip]]]|]);
    contradiction.
Qed.

(** X11: after the manager is resolved, every process of a run of
    [createOrUpdateVenv] is spawned in the project directory, and its
    command is [uv] exactly when the resolved manager is 'uv': once the
    probe has failed and the manager is 'venv+pip', [uv] is not run
    again. *)
Theorem commands_follow_manager (h : host) (p : jsstring)
    (opts : option options) (w w1 : world) (m : jsstring) :
  resolvePackageManager h p w = (Ok m, w1) ->
  let '(r, w2) := createOrUpdateVenv h p opts w in
  exists evs,
    trace w2 = trace w1 ++ evs
    /\ forall c a cwd st,
         In (Spawned c a cwd st) evs ->
         cwd = Some p /\ Js.eqb c (str "uv") = Js.eqb m PackageManager.uv.
Proof.
  intros Hr. rewrite (createOrUpdateVenv_resolved h p opts w w1 m Hr).
  destruct (up_to_date p (files w1) opts) as [[|]|e].
  - exists []. split; [now rewrite app_nil_r | intros c a cwd st []].
  - pose proof (act_outcome_commands h p m
                  (Venv.isVenvValid (files w1) (venv p))
                  (resolved_manifest p (files w1) opts) (files w1)) as Hc.
    destruct (act_outcome _ _ _ _ _ _) as [[r fs2] evs].
    exists evs. split; [reflexivity | exact Hc].
  - exists []. split; [now rewrite app_nil_r | intros c a cwd st []].
Qed.

End LifecycleFacts.

(** ** More on discovery *)

Module DiscoveryFacts.
Import Fs Projects SegFacts PathFacts BelowFacts ProjectsFacts.

(** What [discoverSubprojects] returns is, in another order, what [scan]
    pushes from the directory at the workspace root. *)
Lemma discovered
    (localeCompare : jsstring -> jsstring -> Z) (st : Config.settings)
    (fs : filesystem) (workspaceRoot : jsstring)
    (found : list SubProject) :
  well_formed (root fs) = true ->
  discoverSubprojects localeCompare st fs workspaceRoot = Some found ->
  exists results,
    Permutation found results
    /\ match lookup fs workspaceRoot with
       | Some n =>
           workspaceRoot <> [] /\ well_formed n = true
           /\ results = tree_scan (Config.excludePatterns st) n workspaceRoot []
       | None => results = []
       end.
Proof.
  intros Hwf H. unfold discoverSubprojects in H.
  destruct (scan _ (Config.excludePatterns st) fs workspaceRoot []) as
    [results|] eqn:E;
    [|discriminate H].
  injection H as <-. exists results. split; [apply sort_perm|].
  destruct (lookup fs workspaceRoot) as [n|] eqn:El.
  - assert (Hb : workspaceRoot <> []) by (intros ->; discriminate El).
    pose proof El as Ew. rewrite lookup_eq in Ew by exact Hb.
    pose proof (walk_well_formed _ _ _ Hwf Ew) as Hn.
    split; [exact Hb | split; [exact Hn|]].
    rewrite (scan_tree_scan (Config.excludePatterns st) fs _ n workspaceRoot
      [] Hb Hn El) in E.
    + now injection E.
    + apply walk_height in Ew. lia.
  - cbn [scan] in E. unfold readdirSync in E. rewrite El in E.
    now injection E.
Qed.

(** Each project returned is at a path of the tree below the
    workspace root. *)
Lemma found_at
    (localeCompare : jsstring -> jsstring -> Z) (st : Config.settings)
    (fs : filesystem) (workspaceRoot : jsstring)
    (found : list SubProject) (sp : SubProject) :
  well_formed (root fs) = true ->
  discoverSubprojects localeCompare st fs workspaceRoot = Some found ->
  In sp found ->
  exists n s,
    workspaceRoot <> [] /\ lookup fs workspaceRoot = Some n
    /\ well_formed n = true
    /\ In s (scan_paths (Config.excludePatterns st) n)
    /\ Projects.name sp = Js.join Path.sep s
    /\ absolutePath sp
       = anchor workspaceRoot
         ++ Js.join Path.sep (segs_of workspaceRoot ++ s)
    /\ forall q, In q found ->
         exists s', In s' (scan_paths (Config.excludePatterns st) n)
                    /\ Projects.name q = Js.join Path.sep s'.
Proof.
  intros Hwf H Hin. destruct (discovered localeCompare st fs workspaceRoot
    found Hwf H) as (results & Hp & Hr).
  destruct (lookup fs workspaceRoot) as [n|];
    [|subst results; apply (Permutation_in _ Hp) in Hin; destruct Hin].
  destruct Hr as (Hb & Hn & ->).
  pose proof (tree_scan_view (Config.excludePatterns st) n workspaceRoot [] Hb
    Hn
                (Forall_nil _)) as Hview.
  assert (Hv : forall q, In q found ->
             exists s', In s' (scan_paths (Config.excludePatterns st) n)
                        /\ view q = view_at workspaceRoot [] s').
  { intros q Hq. apply (Permutation_in _ Hp) in Hq.
    apply (in_map view) in Hq. change (Js.join Path.sep []) with (@nil N) in
      Hview.
    rewrite Hview in Hq. apply in_map_iff in Hq.
    destruct Hq as (s' & Es & Hs'). now exists s'. }
  destruct (Hv sp Hin) as (s & Hs & Es). unfold view, view_at in Es.
  injection Es as En Ea. exists n, s. repeat split; auto.
  intros q Hq. destruct (Hv q Hq) as (s' & Hs' & Es').
  unfold view, view_at in Es'. injection Es' as En' _. now exists s'.
Qed.

(** X12: for every sub-project [discoverSubprojects] returns, its
    [absolutePath] is [path.join(workspaceRoot, name)]: callers that join
    the root and a name come to the directory discovery found. *)
Theorem absolutePath_joins_name
    (localeCompare : jsstring -> jsstring -> Z) (st : Config.settings)
    (fs : filesystem) (workspaceRoot : jsstring)
    (found : list SubProject) (sp : SubProject) :
  well_formed (root fs) = true ->
  discoverSubprojects localeCompare st fs workspaceRoot = Some found ->
  In sp found ->
  Path.join [workspaceRoot; Projects.name sp] = absolutePath sp.
Proof.
  intros Hwf H Hin.
  destruct (found_at localeCompare st fs workspaceRoot found sp Hwf H Hin)
    as (n & s & Hb & _ & Hn & Hs & -> & -> & _).
  apply join_name; [exact Hb| |now apply (scan_paths_nonempty
    (Config.excludePatterns st) n)].
  pose proof (scan_paths_valid (Config.excludePatterns st) n Hn) as Hv.
  rewrite Forall_forall in Hv. now apply Hv.
Qed.

(** X13: on a POSIX host, where [path.sep] is "/" and [path.relative]
    gives "/"-separated paths, a file below the directory of a
    sub-project that [discoverSubprojects] returned is attributed by
    [getProjectForFile], given the names of the sub-projects returned, to
    that sub-project.  (On Windows the names keep "/" while the relative
    path has backslashes, and a nested name does not match.) *)
Theorem file_in_project
    (localeCompare : jsstring -> jsstring -> Z) (st : Config.settings)
    (fs : filesystem) (workspaceRoot : jsstring)
    (found : list SubProject) (sp : SubProject) (rest : list jsstring) :
  well_formed (root fs) = true ->
  discoverSubprojects localeCompare st fs workspaceRoot = Some found ->
  In sp found ->
  valid rest -> rest <> [] ->
  Venv.getProjectForFile (cwd fs)
    (absolutePath sp ++ str "/" ++ Js.join Path.sep rest)
    workspaceRoot (map Projects.name found)
  = Some (Projects.name sp).
Proof.
  intros Hwf H Hin Hrest Hne.
  destruct (found_at localeCompare st fs workspaceRoot found sp Hwf H Hin)
    as (n & s & Hb & _ & Hn & Hs & En & Ea & Hall).
  pose proof (scan_paths_valid (Config.excludePatterns st) n Hn) as Hv.
  rewrite Forall_forall in Hv.
  destruct (scan_paths_antichain (Config.excludePatterns st) n Hn) as [_ Hfree].
  pose proof (scan_paths_nonempty (Config.excludePatterns st) n s Hs) as Hsne.
  assert (Hps : pieces (segs_of workspaceRoot ++ s)).
  { apply Forall_app. split; [apply segs_of_pieces|].
    apply valid_pieces. now apply Hv. }
  assert (Habs : absolutePath sp <> []).
  { rewrite Ea. intros E. apply app_eq_nil in E. destruct E as [_ E].
    apply join_nonempty in E; [exact E | exact Hps|].
    destruct (segs_of workspaceRoot); [exact Hsne | discriminate]. }
  assert (Erel : Path.relative (cwd fs) workspaceRoot
                   (absolutePath sp ++ str "/" ++ Js.join Path.sep rest)
                 = Js.join Path.sep (s ++ rest)).
  { unfold Path.relative.
    change (absolutePath sp ++ str "/" ++ Js.join Path.sep rest)
      with (absolutePath sp ++ Path.slash :: Js.join Path.sep rest).
    rewrite resolve_segs_below by assumption.
    rewrite Ea, resolve_segs_rendered by auto.
    rewrite <- app_assoc, strip_common_prefix. reflexivity. }
  unfold Venv.getProjectForFile, Venv.project_for. rewrite Erel.
  assert (Hown : Venv.matches Path.sep (Js.join Path.sep (s ++ rest))
                   (Projects.name sp) = true).
  { apply ProjectForFileFacts.matches_iff.
    exists (Js.join Path.sep rest). rewrite En.
    now apply join_app. }
  destruct (find _ _) as [x|] eqn:Ef.
  - apply find_some in Ef. destruct Ef as [Hx Hm].
    apply sort_In, in_map_iff in Hx. destruct Hx as (q & <- & Hq).
    destruct (Hall q Hq) as (s' & Hs' & En'). f_equal.
    apply ProjectForFileFacts.matches_iff in Hm. destruct Hm as [t Ht].
    rewrite En' in Ht.
    change (Js.join Path.sep s' ++ str "/" ++ t)
      with (Js.join Path.sep s' ++ Path.slash :: t) in Ht.
    apply join_prefix in Ht.
    + destruct Ht as (rest' & E & _). apply app_eq_app in E.
      rewrite En, En'. f_equal.
      destruct E as [l [[E _]|[E _]]].
      * apply Hfree; auto. now exists l.
      * symmetry. apply Hfree; auto. now exists l.
    + apply valid_pieces. now apply Hv.
    + apply Forall_app. split; apply valid_pieces; auto.
    + now apply (scan_paths_nonempty (Config.excludePatterns st) n).
  - exfalso. rewrite (find_none _ _ Ef (Projects.name sp)) in Hown;
      [discriminate Hown|].
    apply sort_In. now apply in_map.
Qed.

(** The segments of the paths of [scan] are names it does not skip. *)
Lemma scan_paths_kept (patterns : list jsstring) (n : node) :
  Forall (Forall (fun k => shouldSkip patterns k = false))
    (scan_paths patterns n).
Proof.
  induction n as [c|es IH] using node_induction; [constructor|].
  rewrite scan_paths_Dir. apply Forall_flat_map.
  rewrite Forall_forall in *. intros e He. unfold entry_paths.
  destruct (negb (isDirectory (target e))); [constructor|].
  destruct (shouldSkip patterns (Fs.name e)) eqn:Ek; [constructor|].
  destruct (0 <? length (tree_markers (entries_of (target e))))%nat.
  - repeat constructor. exact Ek.
  - apply Forall_map. specialize (IH e He).
    rewrite Forall_forall in *. intros s Hs. constructor; auto.
Qed.

Lemma tree_scan_marked (patterns : list jsstring) (n : node) :
  forall basePath relativePath,
    Forall (fun p => markers p <> [])
      (tree_scan patterns n basePath relativePath).
Proof.
  induction n as [c|es IH] using node_induction;
    intros basePath relativePath; [constructor|].
  cbn [tree_scan]. apply Forall_flat_map.
  rewrite Forall_forall in *. intros e He.
  destruct (negb (isDirectory (target e))); [constructor|].
  destruct (shouldSkip patterns (Fs.name e)); [constructor|].
  destruct (0 <? length (tree_markers (entries_of (target e))))%nat eqn:Em.
  - repeat constructor. cbn [markers]. intros E. rewrite E in Em.
    discriminate Em.
  - apply IH. exact He.
Qed.

(** X14: every sub-project [discoverSubprojects] returns has at least one
    marker and a name that is not empty, and no segment of its name is a
    directory name that [shouldSkip] skips: none starts with ".", none is
    in [ALWAYS_SKIP], none contains an exclude pattern without its
    stars. *)
Theorem found_not_skipped
    (localeCompare : jsstring -> jsstring -> Z) (st : Config.settings)
    (fs : filesystem) (workspaceRoot : jsstring)
    (found : list SubProject) (sp : SubProject) :
  well_formed (root fs) = true ->
  discoverSubprojects localeCompare st fs workspaceRoot = Some found ->
  In sp found ->
  markers sp <> [] /\ Projects.name sp <> []
  /\ Forall (fun segment => shouldSkip (Config.excludePatterns st) segment
                            = false)
       (Js.split Path.slash (Projects.name sp)).
Proof.
  intros Hwf H Hin. split; [|split].
  - destruct (discovered localeCompare st fs workspaceRoot found Hwf H) as
    (results & Hp & Hr).
    apply (Permutation_in _ Hp) in Hin.
    destruct (lookup fs workspaceRoot) as [n|];
      [|subst results; destruct Hin].
    destruct Hr as (_ & _ & ->).
    pose proof (tree_scan_marked (Config.excludePatterns st) n workspaceRoot
      []) as Hm.
    rewrite Forall_forall in Hm. now apply Hm.
  - destruct (found_at localeCompare st fs workspaceRoot found sp Hwf H Hin)
      as (n & s & _ & _ & Hn & Hs & -> & _ & _).
    apply join_nonempty; [|now apply (scan_paths_nonempty
      (Config.excludePatterns st) n)].
    pose proof (scan_paths_valid (Config.excludePatterns st) n Hn) as Hv.
    rewrite Forall_forall in Hv. apply valid_pieces. now apply Hv.
  - destruct (found_at localeCompare st fs workspaceRoot found sp Hwf H Hin)
      as (n & s & _ & _ & Hn & Hs & -> & _ & _).
    pose proof (scan_paths_valid (Config.excludePatterns st) n Hn) as Hv.
    rewrite Forall_forall in Hv.
    rewrite split_join;
      [|apply valid_pieces; now apply Hv
       |now apply (scan_paths_nonempty (Config.excludePatterns st) n)].
    pose proof (scan_paths_kept (Config.excludePatterns st) n) as Hk. rewrite
      Forall_forall in Hk.
    now apply Hk.
Qed.

(** X15: a directory directly under the workspace root that is not
    skipped and for which [isProjectDir] finds a marker is returned by
    [discoverSubprojects], under the name of its entry, with the path
    [path.join(workspaceRoot, name)] and the markers found. *)
Theorem child_project_found
    (localeCompare : jsstring -> jsstring -> Z) (st : Config.settings)
    (fs : filesystem) (workspaceRoot : jsstring)
    (es : list dirent) (e : dirent) :
  well_formed (root fs) = true ->
  lookup fs workspaceRoot = Some (Dir es) ->
  In e es ->
  isDirectory (target e) = true ->
  shouldSkip (Config.excludePatterns st) (Fs.name e) = false ->
  isProjectDir fs (Path.join [workspaceRoot; Fs.name e]) <> [] ->
  exists found,
    discoverSubprojects localeCompare st fs workspaceRoot = Some found
    /\ In {| Projects.name := Fs.name e;
             absolutePath := Path.join [workspaceRoot; Fs.name e];
             markers := isProjectDir fs
                          (Path.join [workspaceRoot; Fs.name e]) |}
          found.
Proof.
  intros Hwf El He Hd Hk Hm.
  assert (Hb : workspaceRoot <> []) by (intros ->; discriminate El).
  pose proof El as Ew. rewrite lookup_eq in Ew by exact Hb.
  pose proof (walk_well_formed _ _ _ Hwf Ew) as Hn.
  assert (Es : scan (S (height (root fs))) (Config.excludePatterns st) fs
    workspaceRoot []
               = Some (tree_scan (Config.excludePatterns st) (Dir es)
                 workspaceRoot [])).
  { apply scan_tree_scan; auto. apply walk_height in Ew. lia. }
  unfold discoverSubprojects. rewrite Es.
  eexists. split; [reflexivity|]. apply sort_In.
  cbn [tree_scan]. apply in_flat_map. exists e. split; [exact He|].
  apply well_formed_Dir in Hn. destruct Hn as (Hnd & Hv & _).
  rewrite Forall_forall in Hv.
  assert (Ee : lookup fs (Path.join [workspaceRoot; Fs.name e])
               = Some (target e)).
  { rewrite lookup_child, El by auto. now apply find_entry_own. }
  rewrite Hd. rewrite Hk. cbn [negb].
  destruct (target e) as [c|es'] eqn:Et; [discriminate Hd|].
  cbn [entries_of].
  rewrite (isProjectDir_tree fs _ es' (join_child_nonempty _ _ Hb (Hv e He))
             Ee) in *.
  destruct (tree_markers es') as [|mk mks]; [congruence|].
  cbn [length Nat.ltb Nat.leb]. now left.
Qed.

(** X16: where the workspace root cannot be listed, because nothing is
    there or a file is, [discoverSubprojects] returns no sub-project;
    it does not throw. *)
Theorem unlistable_root_empty
    (localeCompare : jsstring -> jsstring -> Z) (st : Config.settings)
    (fs : filesystem) (workspaceRoot : jsstring) :
  (forall es, lookup fs workspaceRoot <> Some (Dir es)) ->
  discoverSubprojects localeCompare st fs workspaceRoot = Some [].
Proof.
  intros H. unfold discoverSubprojects. cbn [scan]. unfold readdirSync.
  destruct (lookup fs workspaceRoot) as [[c|es]|]; try reflexivity.
  now elim (H es).
Qed.

Lemma flat_map_nil {A B : Type} (l : list A) :
  flat_map (fun _ : A => @nil B) l = [].
Proof. induction l; auto. Qed.

Lemma includes_empty (s : jsstring) : Js.includes s [] = true.
Proof. destruct s; reflexivity. Qed.

(** X17: an exclude pattern made of stars only (or empty) is contained in
    every name once its stars are removed, so every directory is skipped
    and [discoverSubprojects] returns no sub-project, whatever the
    workspace holds. *)
Theorem star_pattern_excludes_all
    (localeCompare : jsstring -> jsstring -> Z) (st : Config.settings)
    (fs : filesystem) (workspaceRoot : jsstring)
    (pattern : jsstring) :
  In pattern (Config.excludePatterns st) ->
  Js.remove_all star pattern = [] ->
  (forall name, shouldSkip (Config.excludePatterns st) name = true)
  /\ discoverSubprojects localeCompare st fs workspaceRoot = Some [].
Proof.
  intros Hin Hp.
  assert (Hskip : forall name, shouldSkip (Config.excludePatterns st) name =
    true).
  { intros name. unfold shouldSkip. apply orb_true_iff. right.
    apply existsb_exists. exists pattern. split; [exact Hin|].
    rewrite Hp. apply includes_empty. }
  split; [exact Hskip|].
  unfold discoverSubprojects. cbn [scan].
  destruct (readdirSync fs workspaceRoot) as [es|e]; [|reflexivity].
  rewrite (collect_flat_map _ (fun _ => [])).
  - now rewrite flat_map_nil.
  - intros e He. destruct (negb (isDirectory (target e))); [reflexivity|].
    now rewrite Hskip.
Qed.

End DiscoveryFacts.

(** ** Tests of a source file *)

Module TestsFacts.
Import SegFacts PathFacts BelowFacts.

Lemma endsWith_sep_tail (p x : jsstring) :
  x <> [] -> Js.endsWith (p ++ x) Path.sep = Js.endsWith x Path.sep.
Proof.
  intros Hx. unfold Js.endsWith. rewrite rev_app_distr.
  destruct (rev x) as [|c r] eqn:E.
  - apply (f_equal (@rev N)) in E. rewrite rev_involutive in E.
    now elim Hx.
  - change (rev Path.sep) with [Path.slash]. cbn [app Js.startsWith].
    assert (Hn : forall s, Js.startsWith s [] = true)
      by (intros [|? ?]; reflexivity).
    now rewrite !Hn.
Qed.

(** A "." between two arguments of [path.join] changes nothing. *)
Lemma join_dot (t x : jsstring) :
  t <> [] -> x <> [] -> Path.join [t; Path.dot; x] = Path.join [t; x].
Proof.
  intros Ht Hx.
  assert (E1 : Path.join [t; Path.dot; x]
               = Path.normalize
                   (t ++ Path.slash :: Path.dot ++ Path.slash :: x)).
  { destruct t as [|c t]; [congruence|].
    destruct x as [|d x]; [congruence | reflexivity]. }
  assert (E2 : Path.join [t; x] = Path.normalize (t ++ Path.slash :: x)).
  { destruct t as [|c t]; [congruence|].
    destruct x as [|d x]; [congruence | reflexivity]. }
  rewrite E1, E2, !normalize_eq by (now destruct t). cbv zeta.
  rewrite !isAbsolute_app by exact Ht.
  assert (Ee : Js.endsWith (t ++ Path.slash :: Path.dot ++ Path.slash :: x)
                 Path.sep
               = Js.endsWith (t ++ Path.slash :: x) Path.sep).
  { change (t ++ Path.slash :: Path.dot ++ Path.slash :: x)
      with (t ++ (Path.slash :: Path.dot ++ [Path.slash]) ++ x).
    change (t ++ Path.slash :: x) with (t ++ [Path.slash] ++ x).
    rewrite !app_assoc. now rewrite !endsWith_sep_tail. }
  assert (En : forall allow,
             Path.normalizeString
               (t ++ Path.slash :: Path.dot ++ Path.slash :: x) allow
             = Path.normalizeString (t ++ Path.slash :: x) allow).
  { intros allow. unfold Path.normalizeString. f_equal.
    rewrite !split_app_slash.
    change (Js.split Path.slash Path.dot) with [Path.dot].
    rewrite !norm_segs_app_l. rewrite norm_drop by reflexivity.
    cbn [Path.norm_segs]. now rewrite !rev_involutive. }
  now rewrite Ee, En.
Qed.

Lemma dropName_slash_free (s : jsstring) :
  slash_free s -> Path.dropName (Path.dropSlashes s) = [].
Proof.
  unfold slash_free. intros H.
  assert (Hd : forall u, (forall c, In c u -> c <> Path.slash) ->
                         Path.dropName u = []).
  { induction u as [|c u IH]; intros Hu; [reflexivity|]. cbn [Path.dropName].
    destruct (N.eqb c Path.slash) eqn:E.
    - apply N.eqb_eq in E. now elim (Hu c (or_introl eq_refl)).
    - apply IH. intros d Hd. apply Hu. now right. }
  destruct s as [|c s]; [reflexivity|]. cbn [Path.dropSlashes].
  destruct (N.eqb c Path.slash) eqn:E.
  - apply N.eqb_eq in E. elim H. left. now symmetry.
  - apply Hd. intros d Hd' ->. now apply H.
Qed.

(** The directory of a bare name is ".". *)
Lemma dirname_name (k : jsstring) :
  valid_name k = true -> Path.dirname k = Path.dot.
Proof.
  intros Hk. apply valid_name_spec in Hk. destruct Hk as [Hne Hfree].
  destruct k as [|c rest]; [congruence|]. unfold Path.dirname.
  assert (Hr : slash_free (rev rest)).
  { intros Hin. apply Hfree. right. now apply in_rev. }
  rewrite (dropName_slash_free _ Hr).
  destruct (N.eqb c Path.slash) eqn:E; [|reflexivity].
  apply N.eqb_eq in E. elim Hfree. left. now symmetry.
Qed.

(** X18: for a source file directly in the project root,
    [findTestsForFile] lists every test file it finds twice: the
    candidates under [tests/<dirname of the relative path>] are, the
    directory being ".", the candidates under [tests/] again.  Without a
    [tests] entry in the project root it returns nothing. *)
Theorem findTestsForFile_twice (fs : Fs.filesystem)
    (projectRoot k : jsstring) :
  projectRoot <> [] -> valid_name k = true ->
  let filePath := projectRoot ++ str "/" ++ k in
  let stem := Path.basename_ext filePath (str ".py") in
  let testDir := Path.join [projectRoot; str "tests"] in
  let found :=
    filter (Fs.existsSync fs)
      [Path.join [testDir; str "test_" ++ stem ++ str ".py"];
       Path.join [testDir; stem ++ str "_test.py"]] in
  Tests.findTestsForFile fs filePath projectRoot
  = if Tests.hasTestDir fs projectRoot then found ++ found else [].
Proof.
  intros Hp Hk filePath stem testDir found.
  unfold Tests.findTestsForFile, Tests.hasTestDir. fold testDir.
  destruct (Fs.existsSync fs testDir); [|reflexivity]. cbn [negb].
  fold filePath. fold stem.
  assert (Er : Path.relative (Fs.cwd fs) projectRoot filePath = k).
  { subst filePath.
    change (projectRoot ++ str "/" ++ k)
      with (projectRoot ++ Path.slash :: Js.join Path.sep [k]).
    rewrite relative_below; [reflexivity | exact Hp | | discriminate].
    now constructor. }
  rewrite Er, (dirname_name k Hk).
  assert (Ht : testDir <> []) by apply join_never_empty.
  rewrite !join_dot; try exact Ht.
  - subst found. now rewrite <- filter_app.
  - intros E. apply app_eq_nil in E. destruct E as [_ E]. discriminate E.
  - discriminate.
Qed.

End TestsFacts.

(** ** Executable files *)

Module TasksFacts.
Import Fs SegFacts PathFacts BelowFacts ProjectsFacts.

(** A directory name [scan] does not go into. *)
Definition skips (excludePatterns : list jsstring) (name : jsstring) : bool :=
  Js.startsWith name (str ".")
  || Js.eqb name (str "__pycache__")
  || Js.eqb name (str "node_modules")
  || Js.eqb name (str ".venv")
  || existsb (fun p => Js.includes name (Js.remove_all Projects.star p))
       excludePatterns.

(** The file [f] is below [dir] through directories that are not
    skipped, is called something ".py", and can be read and has a main
    block. *)
Definition executable_below (excludePatterns : list jsstring)
    (fs : filesystem) (dir f : jsstring) : Prop :=
  exists dirs name content,
    valid dirs /\ valid_name name = true
    /\ f = anchor dir ++ Js.join Path.sep (segs_of dir ++ dirs ++ [name])
    /\ Forall (fun d => skips excludePatterns d = false) dirs
    /\ Js.endsWith name (str ".py") = true
    /\ readFileSync fs f = Ok content
    /\ Tasks.has_main_block (Utf8.decode content) = true.

Lemma collect_Forall {A B : Type} (turn : A -> option (list B))
    (P : B -> Prop) (l : list A) :
  (forall x, In x l -> exists r, turn x = Some r /\ Forall P r) ->
  exists r, Projects.collect turn l = Some r /\ Forall P r.
Proof.
  induction l as [|x l IH]; intros H; [now exists []|].
  destruct (H x (or_introl eq_refl)) as (r & Er & Hr).
  destruct IH as (rs & Ers & Hrs); [intros y Hy; apply H; now right|].
  exists (r ++ rs). cbn [Projects.collect]. rewrite Er, Ers.
  split; [reflexivity | now apply Forall_app].
Qed.

Lemma executable_deeper (excludePatterns : list jsstring) (fs : filesystem)
    (dir k f : jsstring) :
  dir <> [] -> valid_name k = true -> skips excludePatterns k = false ->
  executable_below excludePatterns fs (Path.join [dir; k]) f ->
  executable_below excludePatterns fs dir f.
Proof.
  intros Hd Hk Hs (dirs & name & content & Hv & Hn & -> & Hds & He & Hr & Hm).
  exists (k :: dirs), name, content.
  rewrite join_child_anchor, join_child_segs in * by assumption.
  rewrite <- app_assoc in *. cbn [app] in *.
  repeat split; auto; now constructor.
Qed.

(** With fuel above the height of the directory, [scan] ends, and what
    it pushes are executable files below the directory. *)
Lemma scan_sound (excludePatterns : list jsstring) (fs : filesystem) :
  forall (fuel : nat) (dir : jsstring) (n : node),
    dir <> [] -> lookup fs dir = Some n -> well_formed n = true ->
    height n < fuel ->
    exists files,
      Tasks.scan fuel excludePatterns fs dir = Some files
      /\ Forall (executable_below excludePatterns fs dir) files.
Proof.
  induction fuel as [|fuel IH]; intros dir n Hd El Hwf Hh; [lia|].
  cbn [Tasks.scan]. unfold readdirSync. rewrite El.
  destruct n as [c|es]; [now exists []|].
  apply well_formed_Dir in Hwf. destruct Hwf as (Hnd & Hv & Hw).
  rewrite Forall_forall in Hv, Hw.
  apply collect_Forall. intros e He. cbv zeta.
  assert (Ee : lookup fs (Path.join [dir; Fs.name e]) = Some (target e)).
  { rewrite lookup_child, El by auto. now apply find_entry_own. }
  destruct (isDirectory (target e)) eqn:Ed.
  - destruct (Js.startsWith (Fs.name e) (str ".")
              || Js.eqb (Fs.name e) (str "__pycache__")
              || Js.eqb (Fs.name e) (str "node_modules")
              || Js.eqb (Fs.name e) (str ".venv")) eqn:E1;
      [now exists []|].
    destruct (existsb _ excludePatterns) eqn:E2; [now exists []|].
    destruct (IH (Path.join [dir; Fs.name e]) (target e)) as (l & El' & Hl);
      auto using join_child_nonempty.
    { apply height_entry in He. lia. }
    exists l. split; [exact El'|].
    eapply Forall_impl; [|exact Hl]. intros f.
    apply executable_deeper; auto.
    unfold skips. now rewrite E1, E2.
  - destruct (Js.endsWith (Fs.name e) (str ".py")
              && Tasks.hasMainBlock fs (Path.join [dir; Fs.name e])) eqn:E;
      [|now exists []].
    eexists. split; [reflexivity|]. repeat constructor.
    apply andb_true_iff in E. destruct E as [Hpy Hm].
    unfold Tasks.hasMainBlock in Hm.
    destruct (readFileSync fs (Path.join [dir; Fs.name e]))
      as [content|err] eqn:Er; [|discriminate Hm].
    exists [], (Fs.name e), content. cbn [app].
    rewrite <- join_child by auto. repeat split; auto. constructor.
Qed.

(** X19: on a well-formed tree [discoverExecutableFiles] returns, in
    ascending order of code units, and every file it returns is
    [path.join(projectPath, d1, ..., dn, name)] for a name that ends with
    ".py" and directories of which none starts with ".", is
    [__pycache__] or [node_modules], or contains an exclude pattern
    without its stars; the file can be read and its text has a main
    block. *)
Theorem discoverExecutableFiles_sound (fs : filesystem)
    (projectPath : jsstring) (excludePatterns : list jsstring) :
  well_formed (root fs) = true ->
  exists files,
    Tasks.discoverExecutableFiles fs projectPath excludePatterns = Some files
    /\ StronglySorted RequirementsFacts.ascending files
    /\ forall f, In f files ->
         exists dirs name content,
           f = Path.join (projectPath :: dirs ++ [name])
           /\ Js.endsWith name (str ".py") = true
           /\ Forall (fun d => skips excludePatterns d = false) dirs
           /\ readFileSync fs f = Ok content
           /\ Tasks.has_main_block (Utf8.decode content) = true.
Proof.
  intros Hwf. unfold Tasks.discoverExecutableFiles.
  assert (Hs : exists files,
             Tasks.scan (S (height (root fs))) excludePatterns fs projectPath
             = Some files
             /\ (files = []
                 \/ projectPath <> []
                    /\ Forall (executable_below excludePatterns fs projectPath)
                         files)).
  { destruct (lookup fs projectPath) as [n|] eqn:El.
    - assert (Hb : projectPath <> []) by (intros ->; discriminate El).
      pose proof El as Ew. rewrite lookup_eq in Ew by exact Hb.
      destruct (scan_sound excludePatterns fs (S (height (root fs)))
                  projectPath n) as (files & E & Hf); auto.
      + now apply (walk_well_formed _ _ _ Hwf Ew).
      + apply walk_height in Ew. lia.
      + exists files. auto.
    - exists []. split; [|now left]. cbn [Tasks.scan]. unfold readdirSync.
      now rewrite El. }
  destruct Hs as (files & -> & Hf). eexists. split; [reflexivity|].
  split.
  - apply (sort_ordered Js.compare RequirementsFacts.compare_total
             RequirementsFacts.compare_trans).
  - intros f Hin. apply sort_In in Hin.
    destruct Hf as [->|[Hb Hf]]; [destruct Hin|].
    rewrite Forall_forall in Hf.
    destruct (Hf f Hin)
      as (dirs & name & content & Hv & Hn & -> & Hds & He & Hr & Hm).
    exists dirs, name, content. repeat split; auto.
    symmetry. apply join_below; [exact Hb| |now destruct dirs].
    apply Forall_app. split; [exact Hv | now constructor].
Qed.

End TasksFacts.

(** ** The watcher, the locator and the lifecycle together *)

Module TogetherFacts.
Import Fs Manager ManagerFacts SegFacts PathFacts BelowFacts ProjectsFacts.
Import LifecycleFacts DiscoveryFacts.

Lemma truthy_some (x : option jsstring) (f : jsstring) :
  truthy x = Some f -> x = Some f.
Proof. destruct x as [[|c s]|]; simpl; congruence. Qed.

(** The install phase starts by saying what it installs. *)
Lemma install_outcome_starts (h : host) (p m f : jsstring) (exists_ : bool)
    (fs : filesystem) (before : list event) :
  let '(r, fs2, evs) := install_outcome h p m exists_ (Some f) fs before in
  exists more, evs = before ++ installing f :: more.
Proof.
  unfold install_outcome. destruct (install_command p m f) as [c a]. norm.
  destruct (succeeded _); norm;
    [destruct (Hash.hashFile _ f) as [hash|e]; norm;
     [destruct (Hash.writeHash _ _ hash) as [fs'|e]; norm|]|];
    rewrite <- ?app_assoc; eexists; reflexivity.
Qed.

(** X20: a warning of the requirements watcher is followed by work: when
    [handleChange] warns for a file, a run of [createOrUpdateVenv] on the
    directory of that file, without options and on the same files, does
    not take the fast path; it opens the channel and goes on to install
    the manifest [findRequirementsFile] gives, and a result it returns is
    [{created: false, updated: true}]. *)
Theorem warning_means_work (h : host) (workspaceRoot filePath : jsstring)
    (w w1 : world) (m message : jsstring) :
  Watcher.handleChange (files w) workspaceRoot filePath = Ok (Some message) ->
  resolvePackageManager h (Path.dirname filePath) w = (Ok m, w1) ->
  files w1 = files w ->
  let p := Path.dirname filePath in
  exists manifest,
    Hash.findRequirementsFile (files w) p = Some manifest
    /\ let '(r, w2) := createOrUpdateVenv h p None w in
       (exists more,
          trace w2 = trace w1 ++ ChannelShown :: installing manifest :: more)
       /\ forall res,
            r = Ok res ->
            res = {| venvPath := Path.join [p; str ".venv"]; manager := m;
                     created := false; updated := true |}.
Proof.
  intros Hw Hr Hf p. unfold Watcher.handleChange in Hw. fold p in Hw.
  fold (venv p) in Hw.
  destruct (Venv.isVenvValid (files w) (venv p)) eqn:Ev;
    [|discriminate Hw]. cbn [negb] in Hw.
  destruct (truthy (Hash.findRequirementsFile (files w) p))
    as [manifest|] eqn:Et; [|discriminate Hw].
  destruct (Hash.isVenvStale (files w) (venv p) manifest) as [[|]|e] eqn:Es;
    try discriminate Hw.
  exists manifest. split; [now apply truthy_some|].
  rewrite (createOrUpdateVenv_resolved h p None w w1 m Hr), Hf.
  assert (Hup : up_to_date p (files w) None = Ok false).
  { unfold up_to_date, resolved_manifest, forced. now rewrite Ev, Et, Es. }
  rewrite Hup, Ev. unfold act_outcome, resolved_manifest. rewrite Et.
  pose proof (install_outcome_starts h p m manifest true (files w)
                [ChannelShown]) as Hs.
  pose proof (install_outcome_shape h p m true (Some manifest) (files w)
                [ChannelShown]) as Hshape.
  destruct (install_outcome _ _ _ _ _ _ _) as [[r fs2] evs]. norm.
  destruct Hs as [more ->]. split; [now exists more|].
  intros res Hres. now apply Hshape.
Qed.

Lemma dropName_app (u v : jsstring) :
  slash_free u ->
  Path.dropName (u ++ Path.slash :: v) = Path.slash :: v.
Proof.
  unfold slash_free. induction u as [|c u IH]; intros H.
  - cbn [app Path.dropName]. now rewrite N.eqb_refl.
  - cbn [app Path.dropName]. destruct (N.eqb c Path.slash) eqn:E.
    + apply N.eqb_eq in E. elim H. left. now symmetry.
    + apply IH. intros Hin. apply H. now right.
Qed.

(** The directory of [p/k] is [p], for a name [k] and a path other
    than "/". *)
Lemma dirname_below (p k : jsstring) :
  p <> [] -> p <> Path.sep -> valid_name k = true ->
  Path.dirname (p ++ Path.slash :: k) = p.
Proof.
  intros Hp Hs Hk. apply valid_name_spec in Hk. destruct Hk as [Hne Hfree].
  destruct p as [|c0 tail]; [congruence|]. cbn [app]. unfold Path.dirname.
  rewrite rev_app_distr. cbn [rev]. rewrite <- app_assoc. cbn [app].
  assert (Hr : slash_free (rev k)).
  { intros Hin. apply Hfree. now apply in_rev. }
  assert (Ed : Path.dropSlashes (rev k ++ Path.slash :: rev tail)
               = rev k ++ Path.slash :: rev tail).
  { destruct (rev k) as [|d r] eqn:E.
    - apply (f_equal (@rev N)) in E. rewrite rev_involutive in E.
      now elim Hne.
    - cbn [app Path.dropSlashes]. destruct (N.eqb d Path.slash) eqn:Eq;
        [|reflexivity].
      apply N.eqb_eq in Eq. elim Hr. left. now symmetry. }
  rewrite Ed, dropName_app by exact Hr.
  destruct (rev tail) as [|x before] eqn:Et.
  - apply (f_equal (@rev N)) in Et. rewrite rev_involutive in Et.
    subst tail. destruct (N.eqb c0 Path.slash) eqn:E; [|reflexivity].
    apply N.eqb_eq in E. subst c0. now elim Hs.
  - rewrite <- Et, rev_involutive. reflexivity.
Qed.

(** X21: for an absolute workspace root, a file directly in the directory
    of a discovered sub-project that holds a venv directory is located by
    [findVenvForFile] in that venv, [path.join(absolutePath, '.venv')],
    the one [createOrUpdateVenv] manages for the project. *)
Theorem project_venv_located
    (localeCompare : jsstring -> jsstring -> Z) (st : Config.settings)
    (fs : filesystem) (workspaceRoot : jsstring)
    (found : list Projects.SubProject) (sp : Projects.SubProject)
    (k : jsstring) (content : list byte) (es : list dirent) :
  well_formed (root fs) = true ->
  Path.isAbsolute workspaceRoot = true ->
  Projects.discoverSubprojects localeCompare st fs workspaceRoot
  = Some found ->
  In sp found ->
  valid_name k = true ->
  lookup fs (Projects.absolutePath sp ++ str "/" ++ k) = Some (File content) ->
  lookup fs (Path.join [Projects.absolutePath sp; str ".venv"])
  = Some (Dir es) ->
  Venv.findVenvForFile fs (Projects.absolutePath sp ++ str "/" ++ k)
    workspaceRoot
  = Ok (Some (Path.join [Projects.absolutePath sp; str ".venv"])).
Proof.
  intros Hwf Habs H Hin Hk Hfile Hvenv.
  destruct (found_at localeCompare st fs workspaceRoot found sp Hwf H Hin)
    as (n & s & Hb & _ & Hn & Hs & _ & Ea & _).
  pose proof (scan_paths_valid (Config.excludePatterns st) n Hn) as Hv.
  rewrite Forall_forall in Hv.
  pose proof (scan_paths_nonempty (Config.excludePatterns st) n s Hs) as Hsne.
  assert (Hps : pieces (segs_of workspaceRoot ++ s)).
  { apply Forall_app. split; [apply segs_of_pieces|].
    apply valid_pieces. now apply Hv. }
  assert (Hne : segs_of workspaceRoot ++ s <> [])
    by (destruct (segs_of workspaceRoot); [exact Hsne | discriminate]).
  assert (Er : Path.resolve (cwd fs) workspaceRoot
               = Path.sep ++ Js.join Path.sep (segs_of workspaceRoot)).
  { unfold Path.resolve, Path.resolve_segs, segs_of. now rewrite Habs. }
  assert (Ea' : Projects.absolutePath sp
                = Path.sep ++ Js.join Path.sep (segs_of workspaceRoot ++ s)).
  { rewrite Ea. unfold anchor. now rewrite Habs. }
  assert (Hstart : Js.startsWith (Projects.absolutePath sp)
                     (Path.resolve (cwd fs) workspaceRoot) = true).
  { rewrite Er, Ea'. apply JsFacts.startsWith_iff.
    destruct (segs_of workspaceRoot) as [|x r] eqn:Eseg.
    - exists (Js.join Path.sep s). reflexivity.
    - exists (Path.slash :: Js.join Path.sep s).
      rewrite join_app by (exact Hsne || discriminate).
      now rewrite <- app_assoc. }
  assert (Hd : Path.dirname (Projects.absolutePath sp ++ str "/" ++ k)
               = Projects.absolutePath sp).
  { apply dirname_below; [| |exact Hk].
    - rewrite Ea'. discriminate.
    - rewrite Ea'. intros E. injection E as E.
      now apply join_nonempty in E. }
  unfold Venv.findVenvForFile, statSync. rewrite Hfile. cbn [rbind isDirectory].
  rewrite Hd. cbn [Venv.walk_up]. now rewrite Hstart, Hvenv.
Qed.

End TogetherFacts.

(** ** More of the code, at concrete inputs *)

Module MoreExamples.
Import Fs Manager ManagerFacts Scenario SegFacts.

Lemma findRequirementsFile_entries_witness :
  Hash.findRequirementsFile studio (str "/ws/proj")
  = Some (str "/ws/proj/requirements.txt").
Proof.
  rewrite (RequirementsFacts.findRequirementsFile_entries studio
             (str "/ws/proj")) by discriminate.
  vm_compute. reflexivity.
Defined.

(** The list is in the order of code units: "-" comes before ".". *)
Example findAllRequirementsFiles_example :
  Hash.findAllRequirementsFiles studio (str "/ws/proj")
  = [str "/ws/proj/requirements-cpu.txt"; str "/ws/proj/requirements-dev.txt";
     str "/ws/proj/requirements.txt"]
  /\ Hash.findAllRequirementsFiles studio (str "/ws/none") = []
  /\ Hash.findAllRequirementsFiles studio [] = [].
Proof. repeat split; vm_compute; reflexivity. Qed.


(** With the empty string for a project path the two differ: the
    manifest is looked for in the working directory, the list is empty. *)
Example empty_project_path :
  let here := {| root := root studio; cwd := str "/ws/proj" |} in
  Hash.findRequirementsFile here [] = Some (str "requirements.txt")
  /\ Hash.findAllRequirementsFiles here [] = [].
Proof. split; vm_compute; reflexivity. Qed.

Lemma stored_hash_round_trip_witness :
  Hash.readStoredHash
    (or_else (Hash.writeHash studio (str "/ws/proj/.venv") (str " abc "))
             studio)
    (str "/ws/proj/.venv")
  = Ok (Some (str "abc")).
Proof.
  rewrite (StoreFacts.stored_hash_round_trip studio _ (str "/ws/proj/.venv")
             (str " abc ")).
  - reflexivity.
  - repeat constructor.
  - vm_compute. reflexivity.
Defined.

Lemma writeHash_needs_directory_witness :
  Hash.writeHash studio (str "/ws/none/.venv") (str "abc") = Throw ENOENT
  \/ Hash.writeHash studio (str "/ws/none/.venv") (str "abc") = Throw ENOTDIR.
Proof.
  apply StoreFacts.writeHash_needs_directory; [discriminate|].
  intros es H. vm_compute in H. discriminate H.
Defined.

Lemma findVenvForFile_nearest_witness :
  Venv.findVenvForFile studio (str "/ws/proj/src/tool.py") (str "/ws")
  = Ok (Some (str "/ws/proj/.venv"))
  /\ exists es, lookup studio (str "/ws/proj/.venv") = Some (Dir es).
Proof.
  assert (E : Venv.findVenvForFile studio (str "/ws/proj/src/tool.py")
                (str "/ws") = Ok (Some (str "/ws/proj/.venv")))
    by (vm_compute; reflexivity).
  split; [exact E|].
  destruct (LocatorFacts.findVenvForFile_nearest studio _ _ _ E)
    as (n & _ & _ & _ & H).
  exact H.
Defined.

Lemma create_path_witness :
  let c := fst (create_command proj PackageManager.venv_pip) in
  let a := snd (create_command proj PackageManager.venv_pip) in
  let out := run calm c a (Some proj) (files (fresh unbuilt)) in
  let '(r, w2) := createOrUpdateVenv calm proj None (fresh unbuilt) in
  (exists more,
     trace w2
     = trace (fresh unbuilt)
       ++ [ChannelShown; creating proj PackageManager.venv_pip; shown c a;
           Spawned c a (Some proj) (fst out)] ++ more
     /\ (succeeded (fst out) = false ->
         more = [] /\ r = Throw (error_of (fst out))
         /\ files w2 = snd out))
  /\ forall res,
       r = Ok res ->
       succeeded (fst out) = true
       /\ res = {| venvPath := Path.join [proj; str ".venv"];
                   manager := PackageManager.venv_pip;
                   created := true; updated := false |}.
Proof.
  apply (LifecycleFacts.create_path calm proj None (fresh unbuilt)
           (fresh unbuilt) PackageManager.venv_pip);
    vm_compute; reflexivity.
Defined.

(** The run on the project without a venv: it is created and the
    manifest installed, and the marker then is up to date. *)
Example create_path_run :
  fst (createOrUpdateVenv calm proj None (fresh unbuilt))
  = Ok {| venvPath := str "/ws/proj/.venv";
          manager := PackageManager.venv_pip;
          created := true; updated := false |}.
Proof. vm_compute. reflexivity. Qed.

Lemma returns_up_to_date_witness :
  Hash.isVenvStale
    (files (snd (createOrUpdateVenv calm proj None (fresh unbuilt))))
    (venv proj) proj_manifest
  = Ok false.
Proof.
  apply (LifecycleFacts.returns_up_to_date calm proj None (fresh unbuilt)
           (fresh unbuilt) _ PackageManager.venv_pip proj_manifest
           {| venvPath := str "/ws/proj/.venv";
              manager := PackageManager.venv_pip;
              created := true; updated := false |}).
  - vm_compute. reflexivity.
  - vm_compute. reflexivity.
  - vm_compute. reflexivity.
  - intros H. vm_compute in H. discriminate H.
Defined.

Lemma commands_follow_manager_witness :
  let '(r, w2) := createOrUpdateVenv calm proj None (fresh unbuilt) in
  exists evs,
    trace w2 = trace (fresh unbuilt) ++ evs
    /\ forall c a cwd st,
         In (Spawned c a cwd st) evs ->
         cwd = Some proj
         /\ Js.eqb c (str "uv")
            = Js.eqb PackageManager.venv_pip PackageManager.uv.
Proof.
  apply (LifecycleFacts.commands_follow_manager calm proj None
           (fresh unbuilt) (fresh unbuilt) PackageManager.venv_pip).
  vm_compute. reflexivity.
Defined.

Lemma studio_discovered :
  Projects.discoverSubprojects (fun _ _ => 0%Z) Config.defaults studio
    (str "/ws")
  = Some [studio_project].
Proof. vm_compute. reflexivity. Qed.

Lemma absolutePath_joins_name_witness :
  Path.join [str "/ws"; str "proj"] = str "/ws/proj".
Proof.
  apply (DiscoveryFacts.absolutePath_joins_name (fun _ _ => 0%Z)
           Config.defaults studio (str "/ws") [studio_project]
           studio_project);
    [reflexivity | exact studio_discovered | now left].
Defined.

Lemma file_in_project_witness :
  Venv.getProjectForFile (str "/")
    (str "/ws/proj" ++ str "/" ++ Js.join Path.sep [str "src"; str "tool.py"])
    (str "/ws") [str "proj"]
  = Some (str "proj").
Proof.
  apply (DiscoveryFacts.file_in_project (fun _ _ => 0%Z) Config.defaults
           studio (str "/ws") [studio_project] studio_project
           [str "src"; str "tool.py"]);
    [reflexivity | exact studio_discovered | now left
    |repeat constructor | discriminate].
Defined.

Lemma found_not_skipped_witness :
  Projects.markers studio_project <> []
  /\ Projects.name studio_project <> []
  /\ Forall
       (fun segment =>
          Projects.shouldSkip (Config.excludePatterns Config.defaults) segment
          = false)
       (Js.split Path.slash (Projects.name studio_project)).
Proof.
  apply (DiscoveryFacts.found_not_skipped (fun _ _ => 0%Z) Config.defaults
           studio (str "/ws") [studio_project] studio_project);
    [reflexivity | exact studio_discovered | now left].
Defined.

Lemma child_project_found_witness :
  exists found,
    Projects.discoverSubprojects (fun _ _ => 0%Z) Config.defaults
      (project flask) (str "/ws") = Some found
    /\ In {| Projects.name := str "proj";
             Projects.absolutePath := Path.join [str "/ws"; str "proj"];
             Projects.markers :=
               Projects.isProjectDir (project flask)
                 (Path.join [str "/ws"; str "proj"]) |}
          found.
Proof.
  apply (DiscoveryFacts.child_project_found (fun _ _ => 0%Z) Config.defaults
           (project flask) (str "/ws")
           [dir "proj" [file "requirements.txt" flask; dir ".venv" []]]
           (dir "proj" [file "requirements.txt" flask; dir ".venv" []]));
    try reflexivity; [now left|].
  intros H. vm_compute in H. discriminate H.
Defined.

Lemma unlistable_root_empty_witness :
  Projects.discoverSubprojects (fun _ _ => 0%Z) Config.defaults studio
    (str "/ws/proj/app.py")
  = Some [].
Proof.
  apply DiscoveryFacts.unlistable_root_empty.
  intros es H. vm_compute in H. discriminate H.
Defined.

Lemma star_pattern_excludes_all_witness :
  (forall name,
     Projects.shouldSkip (Config.excludePatterns starred) name = true)
  /\ Projects.discoverSubprojects (fun _ _ => 0%Z) starred studio (str "/ws")
     = Some [].
Proof.
  apply (DiscoveryFacts.star_pattern_excludes_all (fun _ _ => 0%Z) starred
           studio (str "/ws") (str "**"));
    [right; now left | reflexivity].
Defined.

Lemma findTestsForFile_twice_witness :
  Tests.findTestsForFile studio (str "/ws/proj" ++ str "/" ++ str "app.py")
    (str "/ws/proj")
  = [str "/ws/proj/tests/test_app.py"; str "/ws/proj/tests/test_app.py"].
Proof.
  rewrite (TestsFacts.findTestsForFile_twice studio (str "/ws/proj")
             (str "app.py")) by (discriminate || reflexivity).
  vm_compute. reflexivity.
Defined.

(** A source file one directory down has its test listed once. *)
Example findTestsForFile_example :
  Tests.findTestsForFile studio (str "/ws/proj/src/tool.py") (str "/ws/proj")
  = []
  /\ Tests.findTestsForFile studio (str "/ws/proj/src/app.py")
       (str "/ws/proj")
     = [str "/ws/proj/tests/test_app.py"].
Proof. split; vm_compute; reflexivity. Qed.

Lemma discoverExecutableFiles_sound_witness :
  ProjectsFacts.well_formed (root studio) = true
  /\ exists files,
       Tasks.discoverExecutableFiles studio (str "/ws/proj") [] = Some files
       /\ StronglySorted RequirementsFacts.ascending files.
Proof.
  assert (Hwf : ProjectsFacts.well_formed (root studio) = true)
    by reflexivity.
  split; [exact Hwf|].
  destruct (TasksFacts.discoverExecutableFiles_sound studio
              (str "/ws/proj") [] Hwf) as (files & E & Hs & _).
  now exists files.
Defined.

Example discoverExecutableFiles_example :
  Tasks.discoverExecutableFiles studio (str "/ws/proj") []
  = Some [str "/ws/proj/app.py"; str "/ws/proj/src/tool.py"].
Proof. vm_compute. reflexivity. Qed.

Lemma warning_means_work_witness :
  exists manifest,
    Hash.findRequirementsFile studio (Path.dirname proj_manifest)
    = Some manifest
    /\ let '(r, w2) :=
         createOrUpdateVenv calm (Path.dirname proj_manifest) None
           (fresh studio) in
       (exists more,
          trace w2
          = trace (fresh studio)
            ++ ChannelShown
               :: installing manifest :: more)
       /\ forall res,
            r = Ok res ->
            res = {| venvPath :=
                       Path.join [Path.dirname proj_manifest; str ".venv"];
                     manager := PackageManager.venv_pip;
                     created := false; updated := true |}.
Proof.
  apply (TogetherFacts.warning_means_work calm (str "/ws") proj_manifest
           (fresh studio) (fresh studio) PackageManager.venv_pip
           (str "py-toolkit: Dependencies changed in proj. Update venv?"));
    vm_compute; reflexivity.
Defined.

Lemma project_venv_located_witness :
  Venv.findVenvForFile studio (str "/ws/proj" ++ str "/" ++ str "app.py")
    (str "/ws")
  = Ok (Some (Path.join [str "/ws/proj"; str ".venv"])).
Proof.
  apply (TogetherFacts.project_venv_located (fun _ _ => 0%Z) Config.defaults
           studio (str "/ws") [studio_project] studio_project (str "app.py")
           main_py [dir "bin" [file "python" []]]);
    try reflexivity; now left.
Defined.

(** [path.basename(p, '.py')] on some paths. *)
Example basename_ext_examples :
  map (fun p => Path.basename_ext p (str ".py"))
    [str "/ws/proj/app.py"; str "app.py"; str "/ws/proj/app.py/";
     str "notes.txt"; str "/ws/.py"; str ".py"; str "app.py.py"]
  = [str "app"; str "app"; str "app"; str "notes.txt"; str ".py"; [];
     str "app.py"].
Proof. vm_compute. reflexivity. Qed.

End MoreExamples.
